(** * Trusted-cluster control plane of the auth server

    A shallow embedding of [lib/auth/trustedcluster.go]: the trust
    reconciler ([UpsertTrustedCluster]), the ensure loop
    ([EnsureTrustedClusters]), deletion, the validation envelope
    ([ToRaw] / [ToNative]) and the orphan-CA collector
    ([trustController.cycle]).

    The Go methods talk to their collaborators (Presence, the CA store, the
    tunnel registry, the token validator, the audit log, the HTTPS client)
    through facade calls.  Here a method is a program over those calls
    ([Prog]); a handler gives the calls a meaning on a state of its choice,
    so that a theorem about a method holds for every backend, and a concrete
    in-memory backend runs the end-to-end scenarios. *)

From Stdlib Require Import String Ascii List ZArith Bool Lia.
From Stdlib Require Import Strings.Byte.
Import ListNotations.
Local Open Scope string_scope.
Local Open Scope list_scope.


(** ** Errors ([gravitational/trace]) *)

Module trace.

(** The error kinds the code builds or inspects.  [Other] stands for any
    error that is none of them (network, JSON, storage). *)
Inductive Kind : Type :=
| KNotFound
| KAlreadyExists
| KBadParameter
| KAccessDenied
| KOther.

(** An error value (never Go's [nil]; "no error" is [None] or [Ok]). *)
#[local] Unset Elimination Schemes.
Inductive error : Type :=
| Error_ (kind : Kind) (msg : string)
| Aggregate_ (errs : list error).
#[local] Set Elimination Schemes.

Definition kind_eqb (a b : Kind) : bool :=
  match a, b with
  | KNotFound, KNotFound
  | KAlreadyExists, KAlreadyExists
  | KBadParameter, KBadParameter
  | KAccessDenied, KAccessDenied
  | KOther, KOther => true
  | _, _ => false
  end.

Definition NotFound (msg : string) : error := Error_ KNotFound msg.
Definition AlreadyExists (msg : string) : error := Error_ KAlreadyExists msg.
Definition BadParameter (msg : string) : error := Error_ KBadParameter msg.
Definition AccessDenied (msg : string) : error := Error_ KAccessDenied msg.

Definition IsNotFound (e : error) : bool :=
  match e with Error_ KNotFound _ => true | _ => false end.
Definition IsAlreadyExists (e : error) : bool :=
  match e with Error_ KAlreadyExists _ => true | _ => false end.
Definition IsBadParameter (e : error) : bool :=
  match e with Error_ KBadParameter _ => true | _ => false end.
Definition IsAccessDenied (e : error) : bool :=
  match e with Error_ KAccessDenied _ => true | _ => false end.

(** [trace.Wrap] adds a stack trace and keeps the kind and the message. *)
Definition Wrap (e : error) : error := e.

(** [trace.NewAggregate(errs...)]: [nil] for no error. *)
Definition NewAggregate (errs : list error) : option error :=
  match errs with
  | [] => None
  | _ :: _ => Some (Aggregate_ errs)
  end.

(** [err.Error()]: the message; an aggregate joins its members'. *)
Fixpoint Error (e : error) : string :=
  match e with
  | Error_ _ msg => msg
  | Aggregate_ errs =>
      (fix join (l : list error) : string :=
         match l with
         | [] => ""
         | x :: rest =>
             match rest with
             | [] => Error x
             | _ :: _ => (Error x ++ ", " ++ join rest)%string
             end
         end) errs
  end.

End trace.
Import trace.

(** A Go result [(v, err)]. *)
Inductive Result (A : Type) : Type :=
| Ok (a : A)
| Err (e : error).
Arguments Ok {A} a.
Arguments Err {A} e.

(** A Go result [err] of a function that returns only an error. *)
Definition to_result (o : option error) : Result unit :=
  match o with None => Ok tt | Some e => Err e end.

(** [strings.Contains]. *)
Fixpoint Contains (s substr : string) : bool :=
  if String.prefix substr s then true
  else match s with
       | EmptyString => false
       | String _ rest => Contains rest substr
       end.

(** ** Resources ([lib/services]) *)

Definition bytes : Type := list Byte.byte.

Inductive CertAuthType : Type := HostCA | UserCA.

Definition CertAuthType_eqb (a b : CertAuthType) : bool :=
  match a, b with
  | HostCA, HostCA | UserCA, UserCA => true
  | _, _ => false
  end.

Record CertAuthID : Type := {
  Type_ : CertAuthType;
  DomainName : string
}.

Definition CertAuthID_eqb (a b : CertAuthID) : bool :=
  CertAuthType_eqb (Type_ a) (Type_ b) && String.eqb (DomainName a) (DomainName b).

Record RoleMapping : Type := {
  Remote : string;
  Local_ : list string
}.

Definition RoleMap : Type := list RoleMapping.

Record TLSKeyPair : Type := {
  Cert : bytes;
  Key : bytes
}.

(** Modelled from the spec: [services.CertAuthority] is declared outside
    this file.  Spec 3: a CA has the id (type, domain_name), the
    cluster_name of its signing identity, roles, a role_map and TLS key
    pairs; whether it is active belongs to the store. *)
Record CertAuthority : Type := {
  ca_type : CertAuthType;
  ca_name : string;
  ca_cluster_name : string;
  ca_roles : list string;
  ca_role_map : RoleMap;
  ca_tls_key_pairs : list TLSKeyPair
}.

(** Modelled from the spec: [services.TrustedCluster] is declared outside
    this file.  Spec 3: name, enabled, token, proxy_address,
    reverse_tunnel_address, roles and role_map. *)
Record TrustedCluster : Type := {
  tc_name : string;
  tc_enabled : bool;
  tc_token : string;
  tc_proxy_address : string;
  tc_reverse_tunnel_address : string;
  tc_roles : list string;
  tc_role_map : RoleMap
}.

(** Modelled from the spec: [services.ReverseTunnel] is declared outside
    this file.  Spec 3: a name and the dial addresses. *)
Record ReverseTunnel : Type := {
  rt_name : string;
  rt_dial_addrs : list string
}.

(** *** Accessors *)

(** Modelled from the spec: the getters of [services.CertAuthority] are
    declared outside this file; they read the fields of spec 3, and the id
    is (type, domain_name). *)
Definition GetType (ca : CertAuthority) : CertAuthType := ca_type ca.
Definition GetClusterName (ca : CertAuthority) : string := ca_cluster_name ca.
Definition GetTLSKeyPairs (ca : CertAuthority) : list TLSKeyPair := ca_tls_key_pairs ca.
Definition GetID (ca : CertAuthority) : CertAuthID :=
  {| Type_ := ca_type ca; DomainName := ca_name ca |}.

(** Modelled from the spec: the setters of [services.CertAuthority] are
    declared outside this file; a CA is a record with explicit accessors
    (spec 9): [SetName] sets the [domain_name] of the id, [SetRoles]
    replaces the roles, [AddRole] adds one role at the end and
    [SetRoleMap] replaces the role map. *)
Definition SetName (ca : CertAuthority) (name : string) : CertAuthority :=
  {| ca_type := ca_type ca; ca_name := name;
     ca_cluster_name := ca_cluster_name ca; ca_roles := ca_roles ca;
     ca_role_map := ca_role_map ca; ca_tls_key_pairs := ca_tls_key_pairs ca |}.
Definition SetRoles (ca : CertAuthority) (roles : list string) : CertAuthority :=
  {| ca_type := ca_type ca; ca_name := ca_name ca;
     ca_cluster_name := ca_cluster_name ca; ca_roles := roles;
     ca_role_map := ca_role_map ca; ca_tls_key_pairs := ca_tls_key_pairs ca |}.
Definition AddRole (ca : CertAuthority) (r : string) : CertAuthority :=
  SetRoles ca (ca_roles ca ++ [r]).
Definition SetRoleMap (ca : CertAuthority) (m : RoleMap) : CertAuthority :=
  {| ca_type := ca_type ca; ca_name := ca_name ca;
     ca_cluster_name := ca_cluster_name ca; ca_roles := ca_roles ca;
     ca_role_map := m; ca_tls_key_pairs := ca_tls_key_pairs ca |}.

(** Modelled from the spec: the getters of [services.TrustedCluster] are
    declared outside this file; they read the fields of spec 3. *)
Definition GetName (t : TrustedCluster) : string := tc_name t.
Definition GetEnabled (t : TrustedCluster) : bool := tc_enabled t.
Definition GetToken (t : TrustedCluster) : string := tc_token t.
Definition GetProxyAddress (t : TrustedCluster) : string := tc_proxy_address t.
Definition GetReverseTunnelAddress (t : TrustedCluster) : string :=
  tc_reverse_tunnel_address t.
Definition GetRoles (t : TrustedCluster) : list string := tc_roles t.
Definition GetRoleMap (t : TrustedCluster) : RoleMap := tc_role_map t.

(** Modelled from the spec: [trustedCluster.SetName] is declared outside
    this file; it sets the name (spec 3: mutable until the first
    handshake).  The descriptor is a pointer, so the caller sees the new
    name; the methods below hand the descriptor back. *)
Definition tc_SetName (t : TrustedCluster) (name : string) : TrustedCluster :=
  {| tc_name := name; tc_enabled := tc_enabled t; tc_token := tc_token t;
     tc_proxy_address := tc_proxy_address t;
     tc_reverse_tunnel_address := tc_reverse_tunnel_address t;
     tc_roles := tc_roles t; tc_role_map := tc_role_map t |}.

(** Modelled from the spec: [services.NewReverseTunnel] is declared
    outside this file; spec 3: the tunnel's name and its dial addresses. *)
Definition NewReverseTunnel (clusterName : string) (dialAddrs : list string)
  : ReverseTunnel :=
  {| rt_name := clusterName; rt_dial_addrs := dialAddrs |}.

(** *** Deep equality, [ca.Equals(other)] *)

Fixpoint list_eqb {A : Type} (eqb : A -> A -> bool) (l1 l2 : list A) : bool :=
  match l1, l2 with
  | [], [] => true
  | x :: l1', y :: l2' => eqb x y && list_eqb eqb l1' l2'
  | _, _ => false
  end.

Definition RoleMapping_eqb (a b : RoleMapping) : bool :=
  String.eqb (Remote a) (Remote b) && list_eqb String.eqb (Local_ a) (Local_ b).

Definition TLSKeyPair_eqb (a b : TLSKeyPair) : bool :=
  list_eqb Byte.eqb (Cert a) (Cert b) && list_eqb Byte.eqb (Key a) (Key b).

(** Modelled from the spec: [ca.Equals] is declared outside this file;
    spec 3: deep equality. *)
Definition Equals (a b : CertAuthority) : bool :=
  CertAuthType_eqb (ca_type a) (ca_type b)
  && String.eqb (ca_name a) (ca_name b)
  && String.eqb (ca_cluster_name a) (ca_cluster_name b)
  && list_eqb String.eqb (ca_roles a) (ca_roles b)
  && list_eqb RoleMapping_eqb (ca_role_map a) (ca_role_map b)
  && list_eqb TLSKeyPair_eqb (ca_tls_key_pairs a) (ca_tls_key_pairs b).

(** ** What the surrounding system supplies *)

(** [services.CertAuthorityMarshaler]. *)
Class CertAuthorityMarshaler : Type := {
  MarshalCertAuthority : CertAuthority -> Result bytes;
  UnmarshalCertAuthority : bytes -> Result CertAuthority
}.

(** The subject of an X.509 certificate, as attribute and value pairs. *)
Definition pkix_Name : Type := list (string * string).

Record Certificate : Type := { Subject : pkix_Name }.

(** An argument of a format string. *)
Inductive FmtArg : Type :=
| FString (s : string)
| FStrings (l : list string).

(** Pure helpers of other packages: [tlsca.ParseCertificatePEM],
    [tlsca.ClusterName], [utils.ContainsExpansion], the descriptor's own
    [CanChangeStateTo] rule, [fmt]'s formatting of a message, and the two
    role constants of package [teleport] that a cluster token may carry. *)
Class Externals : Type := {
  RoleTrustedCluster : string;
  LegacyClusterTokenType : string;
  ParseCertificatePEM : bytes -> Result Certificate;
  tlsca_ClusterName : pkix_Name -> Result string;
  ContainsExpansion : string -> bool;
  CanChangeStateTo : TrustedCluster -> TrustedCluster -> option error;
  Sprintf : string -> list FmtArg -> string
}.

(** ** The validation envelope, native and raw *)

Record ValidateTrustedClusterRequest : Type := {
  req_Token : string;
  req_CAs : list CertAuthority
}.

Record ValidateTrustedClusterRequestRaw : Type := {
  rawreq_Token : string;
  rawreq_CAs : list bytes
}.

Record ValidateTrustedClusterResponse : Type := {
  resp_CAs : list CertAuthority
}.

Record ValidateTrustedClusterResponseRaw : Type := {
  rawresp_CAs : list bytes
}.

(** ** Facade calls *)

Inductive AuditEvent : Type :=
| TrustedClusterCreate
| TrustedClusterDelete.

(** [context.Context], as far as the code reads it: [clientUsername(ctx)]. *)
Record Context : Type := { clientUsername : string }.

(** Role names carried by a token ([teleport.Roles]). *)
Definition Roles : Type := list string.

(** Modelled from the spec: [roles.Include] is declared outside this
    file; spec 3: the token's record lists the capabilities it carries. *)
Definition Include (roles : Roles) (role : string) : bool :=
  existsb (String.eqb role) roles.

(** One constructor per facade method the file calls; the index is the type
    of the value the method returns beside its error. *)
Inductive Op : Type -> Type :=
(* Presence *)
| Presence_GetTrustedCluster (name : string) : Op TrustedCluster
| Presence_UpsertTrustedCluster (tc : TrustedCluster) : Op TrustedCluster
| Presence_DeleteTrustedCluster (name : string) : Op unit
(* a.GetTrustedClusters(): the auth server's own read path *)
| GetTrustedClusters : Op (list TrustedCluster)
(* auth.AuthServices.GetTrustedClusters(): the backend itself *)
| AuthServices_GetTrustedClusters : Op (list TrustedCluster)
(* CA store *)
| ActivateCertAuthority (id : CertAuthID) : Op unit
| DeactivateCertAuthority (id : CertAuthID) : Op unit
| GetCertAuthority (id : CertAuthID) (loadSecrets : bool) : Op CertAuthority
| GetCertAuthorities (caType : CertAuthType) (loadSecrets : bool)
    : Op (list CertAuthority)
| CreateCertAuthority (ca : CertAuthority) : Op unit
| DeleteCertAuthority (id : CertAuthID) : Op unit
(* tunnel registry *)
| UpsertReverseTunnel (rt : ReverseTunnel) : Op unit
| DeleteReverseTunnel (name : string) : Op unit
(* roles, names, tokens, audit *)
| GetRole (name : string) : Op unit
| GetClusterName_ : Op string
| GetDomainName : Op string
| ValidateToken (token : string) : Op Roles
| EmitAuditEvent (ev : AuditEvent) (user : string) : Op unit
(* HTTPS client towards the proxy of the other cluster *)
| NewClient (host : string) : Op unit
| PostJSON (host : string) (body : ValidateTrustedClusterRequestRaw)
    : Op (option ValidateTrustedClusterResponseRaw).

(** A call made, without its answer. *)
Definition Call : Type := { Y : Type & Op Y }.
Definition mkCall {Y : Type} (op : Op Y) : Call := existT _ Y op.

(** Calls that write to the local backend. *)
Definition is_mutation {Y : Type} (op : Op Y) : bool :=
  match op with
  | Presence_UpsertTrustedCluster _
  | Presence_DeleteTrustedCluster _
  | ActivateCertAuthority _
  | DeactivateCertAuthority _
  | CreateCertAuthority _
  | DeleteCertAuthority _
  | UpsertReverseTunnel _
  | DeleteReverseTunnel _
  | EmitAuditEvent _ _ => true
  | _ => false
  end.

Definition mutates (c : Call) : bool := is_mutation (projT2 c).

(** ** Programs over facade calls *)

(** A method body: it returns, it panics (an index out of range), or it
    makes a call and goes on with the answer. *)
Inductive Prog (A : Type) : Type :=
| Ret (a : A)
| Panic (msg : string)
| Vis (Y : Type) (op : Op Y) (k : Result Y -> Prog A).
Arguments Ret {A} a.
Arguments Panic {A} msg.
Arguments Vis {A Y} op k.

Fixpoint bind {A B : Type} (p : Prog A) (f : A -> Prog B) : Prog B :=
  match p with
  | Ret a => f a
  | Panic msg => Panic msg
  | Vis op k => Vis op (fun r => bind (k r) f)
  end.

Definition call {Y : Type} (op : Op Y) : Prog (Result Y) := Vis op Ret.

Declare Scope prog_scope.
Delimit Scope prog_scope with prog.
Notation "x <- p ;; q" := (bind p (fun x => q))
  (at level 100, p at next level, right associativity) : prog_scope.
Notation "' pat <- p ;; q" := (bind p (fun x => match x with pat => q end))
  (at level 100, pat pattern, p at next level, right associativity) : prog_scope.
(** [v, err := f(); if err != nil { return nil, trace.Wrap(err) }]. *)
Notation "x <-? p ;; q" :=
  (bind p (fun r => match r with Ok x => q | Err e => Ret (Err (Wrap e)) end))
  (at level 100, p at next level, right associativity) : prog_scope.
(** [if err := f(); err != nil { return trace.Wrap(err) }]. *)
Notation "'check' p ;; q" :=
  (bind p (fun r => match r with Ok _ => q | Err e => Ret (Err (Wrap e)) end))
  (at level 100, p at next level, right associativity) : prog_scope.
Local Open Scope prog_scope.

(** A backend: what every call answers, and what it does to the state. *)
Definition Handler (St : Type) : Type :=
  forall Y : Type, Op Y -> St -> Result Y * St.

Inductive Outcome (A : Type) : Type :=
| Done (a : A)
| Panicked (msg : string).
Arguments Done {A} a.
Arguments Panicked {A} msg.

(** Running a program: its outcome, the final state, the calls it made. *)
Fixpoint exec {St A : Type} (h : Handler St) (p : Prog A) (s : St)
  : Outcome A * St * list Call :=
  match p with
  | Ret a => (Done a, s, [])
  | Panic msg => (Panicked msg, s, [])
  | Vis op k =>
      let '(r, s1) := h _ op s in
      let '(o, s2, tr) := exec h (k r) s1 in
      (o, s2, mkCall op :: tr)
  end.

Definition outcome {St A : Type} (h : Handler St) (p : Prog A) (s : St) : Outcome A :=
  fst (fst (exec h p s)).
Definition final {St A : Type} (h : Handler St) (p : Prog A) (s : St) : St :=
  snd (fst (exec h p s)).
Definition calls {St A : Type} (h : Handler St) (p : Prog A) (s : St) : list Call :=
  snd (exec h p s).

(** The answer of one call, and the state it leaves. *)
Definition answer {St Y : Type} (h : Handler St) (op : Op Y) (s : St) : Result Y :=
  fst (h _ op s).
Definition after {St Y : Type} (h : Handler St) (op : Op Y) (s : St) : St :=
  snd (h _ op s).

(** ** The methods of [trustedcluster.go]

    Log statements are left out; they have no effect on what is returned
    or stored. *)

Section Methods.

Context {M : CertAuthorityMarshaler} {E : Externals}.

(** *** Envelope conversion (lines 658-744) *)

(** The loop of both [ToRaw] methods. *)
Fixpoint marshal_loop (CAs : list CertAuthority) (cas : list bytes)
  : Result (list bytes) :=
  match CAs with
  | [] => Ok cas
  | certAuthority :: rest =>
      match MarshalCertAuthority certAuthority with
      | Err err => Err (Wrap err)
      | Ok data => marshal_loop rest (cas ++ [data])
      end
  end.

(** The loop of both [ToNative] methods. *)
Fixpoint unmarshal_loop (CAs : list bytes) (cas : list CertAuthority)
  : Result (list CertAuthority) :=
  match CAs with
  | [] => Ok cas
  | rawCertAuthority :: rest =>
      match UnmarshalCertAuthority rawCertAuthority with
      | Err err => Err (Wrap err)
      | Ok certAuthority => unmarshal_loop rest (cas ++ [certAuthority])
      end
  end.

Definition Request_ToRaw (v : ValidateTrustedClusterRequest)
  : Result ValidateTrustedClusterRequestRaw :=
  match marshal_loop (req_CAs v) [] with
  | Err err => Err err
  | Ok cas => Ok {| rawreq_Token := req_Token v; rawreq_CAs := cas |}
  end.

Definition RequestRaw_ToNative (v : ValidateTrustedClusterRequestRaw)
  : Result ValidateTrustedClusterRequest :=
  match unmarshal_loop (rawreq_CAs v) [] with
  | Err err => Err err
  | Ok cas => Ok {| req_Token := rawreq_Token v; req_CAs := cas |}
  end.

Definition Response_ToRaw (v : ValidateTrustedClusterResponse)
  : Result ValidateTrustedClusterResponseRaw :=
  match marshal_loop (resp_CAs v) [] with
  | Err err => Err err
  | Ok cas => Ok {| rawresp_CAs := cas |}
  end.

Definition ResponseRaw_ToNative (v : ValidateTrustedClusterResponseRaw)
  : Result ValidateTrustedClusterResponse :=
  match unmarshal_loop (rawresp_CAs v) [] with
  | Err err => Err err
  | Ok cas => Ok {| resp_CAs := cas |}
  end.

(** *** Helpers over the CA store and the tunnel registry (lines 746-801) *)

Definition activateCertAuthority (t : TrustedCluster) : Prog (Result unit) :=
  check call (ActivateCertAuthority {| Type_ := UserCA; DomainName := GetName t |}) ;;
  check call (ActivateCertAuthority {| Type_ := HostCA; DomainName := GetName t |}) ;;
  Ret (Ok tt).

Definition getCertAuthorities (t : TrustedCluster)
  : Prog (Result (list CertAuthority)) :=
  userCA <-? call (GetCertAuthority {| Type_ := UserCA; DomainName := GetName t |} false) ;;
  hostCA <-? call (GetCertAuthority {| Type_ := HostCA; DomainName := GetName t |} false) ;;
  Ret (Ok [userCA; hostCA]).

Definition deactivateCertAuthority (t : TrustedCluster) : Prog (Result unit) :=
  check call (DeactivateCertAuthority {| Type_ := UserCA; DomainName := GetName t |}) ;;
  r <- call (DeactivateCertAuthority {| Type_ := HostCA; DomainName := GetName t |}) ;;
  match r with
  | Ok _ => Ret (Ok tt)
  | Err err => Ret (Err (Wrap err))
  end.

Definition createReverseTunnel (t : TrustedCluster) : Prog (Result unit) :=
  let reverseTunnel :=
    NewReverseTunnel (GetName t) [GetReverseTunnelAddress t] in
  r <- call (UpsertReverseTunnel reverseTunnel) ;;
  match r with
  | Ok _ => Ret (Ok tt)
  | Err err => Ret (Err (Wrap err))
  end.

(** *** [checkLocalRoles] (lines 277-295) *)

Fixpoint checkLocalRoles_inner (mapping : RoleMapping) (locals : list string)
  : Prog (Result unit) :=
  match locals with
  | [] => Ret (Ok tt)
  | localRole :: rest =>
      if ContainsExpansion localRole then checkLocalRoles_inner mapping rest
      else
        r <- call (GetRole localRole) ;;
        match r with
        | Err err =>
            if IsNotFound err then
              Ret (Err (NotFound (Sprintf
                "a role %q referenced in a mapping %v:%v is not defined"
                [FString localRole; FString (Remote mapping);
                 FStrings (Local_ mapping)])))
            else Ret (Err (Wrap err))
        | Ok _ => checkLocalRoles_inner mapping rest
        end
  end.

Fixpoint checkLocalRoles (roleMap : RoleMap) : Prog (Result unit) :=
  match roleMap with
  | [] => Ret (Ok tt)
  | mapping :: rest =>
      check checkLocalRoles_inner mapping (Local_ mapping) ;;
      checkLocalRoles rest
  end.

(** *** [sendValidateRequestToProxy] (lines 598-656)

    [NewClient] stands for the set-up of the HTTPS client (the insecure
    development transport and [roundtrip.NewClient]); [PostJSON] for the
    POST to [webapi/trustedclusters/validate], the conversion of the
    HTTP response and the JSON decoding of its body into
    [validateResponseRaw], a pointer that a JSON [null] leaves [nil]:
    [ToNative] then reads [v.CAs] through it. *)
Definition sendValidateRequestToProxy (host : string)
    (validateRequest : ValidateTrustedClusterRequest)
  : Prog (Result ValidateTrustedClusterResponse) :=
  check call (NewClient host) ;;
  match Request_ToRaw validateRequest with
  | Err err => Ret (Err (Wrap err))
  | Ok validateRequestRaw =>
      validateResponseRaw <-? call (PostJSON host validateRequestRaw) ;;
      match validateResponseRaw with
      | None => Panic "invalid memory address or nil pointer dereference"
      | Some validateResponseRaw =>
          match ResponseRaw_ToNative validateResponseRaw with
          | Err err => Ret (Err (Wrap err))
          | Ok validateResponse => Ret (Ok validateResponse)
          end
      end
  end.

(** *** [establishTrust] (lines 341-402) *)

(** The inner loop over the TLS key pairs of one returned CA. *)
Fixpoint check_key_pairs (domainName : string) (keyPairs : list TLSKeyPair)
  : option error :=
  match keyPairs with
  | [] => None
  | keyPair :: rest =>
      match ParseCertificatePEM (Cert keyPair) with
      | Err err => Some (Wrap err)
      | Ok cert =>
          match tlsca_ClusterName (Subject cert) with
          | Err err => Some (Wrap err)
          | Ok remoteClusterName =>
              if String.eqb remoteClusterName domainName then
                Some (BadParameter
                  "remote cluster name can not be the same as local cluster name")
              else check_key_pairs domainName rest
          end
      end
  end.

(** The outer loop over the returned CAs. *)
Fixpoint check_remote_CAs (domainName : string) (CAs : list CertAuthority)
  : option error :=
  match CAs with
  | [] => None
  | ca :: rest =>
      match check_key_pairs domainName (GetTLSKeyPairs ca) with
      | Some err => Some err
      | None => check_remote_CAs domainName rest
      end
  end.

Definition establishTrust (trustedCluster : TrustedCluster)
  : Prog (Result (list CertAuthority)) :=
  domainName <-? call GetDomainName ;;
  allLocalCAs <-? call (GetCertAuthorities HostCA false) ;;
  let localCertAuthorities :=
    filter (fun lca => String.eqb (GetClusterName lca) domainName) allLocalCAs in
  let validateRequest :=
    {| req_Token := GetToken trustedCluster; req_CAs := localCertAuthorities |} in
  r <- sendValidateRequestToProxy (GetProxyAddress trustedCluster) validateRequest ;;
  match r with
  | Err err =>
      if Contains (Error err) "x509" then
        Ret (Err (AccessDenied
          "the trusted cluster uses misconfigured HTTP/TLS certificate."))
      else Ret (Err (Wrap err))
  | Ok validateResponse =>
      match check_remote_CAs domainName (resp_CAs validateResponse) with
      | Some err => Ret (Err err)
      | None => Ret (Ok (resp_CAs validateResponse))
      end
  end.

(** *** [addCertAuthorities] (lines 404-429) *)

(** What the loop body does to one CA before it stores it. *)
Definition prepare_remote_CA (trustedCluster : TrustedCluster)
    (remoteCertAuthority : CertAuthority) : CertAuthority :=
  let remoteCertAuthority := SetName remoteCertAuthority (GetName trustedCluster) in
  let remoteCertAuthority := SetRoles remoteCertAuthority [] in
  if CertAuthType_eqb (GetType remoteCertAuthority) UserCA then
    let remoteCertAuthority :=
      fold_left AddRole (GetRoles trustedCluster) remoteCertAuthority in
    SetRoleMap remoteCertAuthority (GetRoleMap trustedCluster)
  else remoteCertAuthority.

Fixpoint addCertAuthorities (trustedCluster : TrustedCluster)
    (remoteCAs : list CertAuthority) : Prog (Result unit) :=
  match remoteCAs with
  | [] => Ret (Ok tt)
  | remoteCertAuthority :: rest =>
      check call (CreateCertAuthority
                    (prepare_remote_CA trustedCluster remoteCertAuthority)) ;;
      addCertAuthorities trustedCluster rest
  end.

(** *** [UpsertTrustedCluster] (lines 40-151) *)

Definition legacy_message : string :=
  "enable only supported for Trusted Clusters created with Teleport 2.3 and above".

(** The [switch] on [(exists, enable)]; it hands back the descriptor,
    renamed by [SetName] in the two creating cases. *)
Definition change_state (exists_ enable : bool) (trustedCluster : TrustedCluster)
  : Prog (Result TrustedCluster) :=
  match exists_, enable with
  | true, true =>
      r <- activateCertAuthority trustedCluster ;;
      match r with
      | Err err =>
          if IsNotFound err then Ret (Err (BadParameter legacy_message))
          else Ret (Err (Wrap err))
      | Ok _ =>
          check createReverseTunnel trustedCluster ;;
          Ret (Ok trustedCluster)
      end
  | true, false =>
      r <- deactivateCertAuthority trustedCluster ;;
      match r with
      | Err err =>
          if IsNotFound err then Ret (Err (BadParameter legacy_message))
          else Ret (Err (Wrap err))
      | Ok _ =>
          check call (DeleteReverseTunnel (GetName trustedCluster)) ;;
          Ret (Ok trustedCluster)
      end
  | false, true =>
      check checkLocalRoles (GetRoleMap trustedCluster) ;;
      remoteCAs <-? establishTrust trustedCluster ;;
      match remoteCAs with
      | [] => Panic "index out of range [0] with length 0"
      | ca0 :: _ =>
          let trustedCluster := tc_SetName trustedCluster (GetClusterName ca0) in
          check addCertAuthorities trustedCluster remoteCAs ;;
          check createReverseTunnel trustedCluster ;;
          Ret (Ok trustedCluster)
      end
  | false, false =>
      check checkLocalRoles (GetRoleMap trustedCluster) ;;
      remoteCAs <-? establishTrust trustedCluster ;;
      match remoteCAs with
      | [] => Panic "index out of range [0] with length 0"
      | ca0 :: _ =>
          let trustedCluster := tc_SetName trustedCluster (GetClusterName ca0) in
          check addCertAuthorities trustedCluster remoteCAs ;;
          check deactivateCertAuthority trustedCluster ;;
          Ret (Ok trustedCluster)
      end
  end.

(** The look-up at the top: [exists] and, when it holds, the stored
    descriptor. *)
Definition lookup_existing (trustedCluster : TrustedCluster)
  : Prog (option TrustedCluster) :=
  if String.eqb (GetName trustedCluster) "" then Ret None
  else
    r <- call (Presence_GetTrustedCluster (GetName trustedCluster)) ;;
    match r with
    | Ok existingCluster => Ret (Some existingCluster)
    | Err _ => Ret None
    end.

Definition UpsertTrustedCluster (ctx : Context) (trustedCluster : TrustedCluster)
  : Prog (Result TrustedCluster) :=
  existing <- lookup_existing trustedCluster ;;
  let exists_ := match existing with Some _ => true | None => false end in
  let enable := GetEnabled trustedCluster in
  match (match existing with
         | Some existingCluster => CanChangeStateTo existingCluster trustedCluster
         | None => None
         end) with
  | Some err => Ret (Err (Wrap err))
  | None =>
      trustedCluster <-? change_state exists_ enable trustedCluster ;;
      tc <-? call (Presence_UpsertTrustedCluster trustedCluster) ;;
      _ <- call (EmitAuditEvent TrustedClusterCreate (clientUsername ctx)) ;;
      Ret (Ok tc)
  end.

(** *** [ensureEnabled], [ensureDisabled] (lines 205-275) *)

Definition result_error {A : Type} (r : Result A) : option error :=
  match r with Ok _ => None | Err err => Some (Wrap err) end.

(** Returns the descriptor (renamed in place when trust is established
    under another name), [renamed] and [err]. *)
Definition ensureEnabled (tc : TrustedCluster)
  : Prog (TrustedCluster * bool * option error) :=
  let finish (tc : TrustedCluster) (renamed : bool) :=
    r <- createReverseTunnel tc ;;
    Ret (tc, renamed, result_error r) in
  r <- activateCertAuthority tc ;;
  match r with
  | Ok _ => finish tc false
  | Err err =>
      if negb (IsNotFound err) then Ret (tc, false, Some (Wrap err))
      else
        r <- getCertAuthorities tc ;;
        match r with
        | Ok _ => finish tc false
        | Err err =>
            if negb (IsNotFound err) then Ret (tc, false, Some (Wrap err))
            else
              r <- establishTrust tc ;;
              match r with
              | Err err => Ret (tc, false, Some (Wrap err))
              | Ok cas =>
                  match cas with
                  | [] => Panic "index out of range [0] with length 0"
                  | ca0 :: _ =>
                      let name := GetClusterName ca0 in
                      let renamed := negb (String.eqb name (GetName tc)) in
                      let tc := if renamed then tc_SetName tc name else tc in
                      r <- addCertAuthorities tc cas ;;
                      match r with
                      | Err err => Ret (tc, renamed, Some (Wrap err))
                      | Ok _ => finish tc renamed
                      end
                  end
              end
        end
  end.

(** [if err := f(); err != nil && !trace.IsNotFound(err) { return
    trace.Wrap(err) }]: the error to return, if any. *)
Definition tolerate_not_found (r : Result unit) : option error :=
  match r with
  | Ok _ => None
  | Err err => if negb (IsNotFound err) then Some (Wrap err) else None
  end.

Definition ensureDisabled (tc : TrustedCluster) : Prog (option error) :=
  r <- deactivateCertAuthority tc ;;
  match tolerate_not_found r with
  | Some err => Ret (Some err)
  | None =>
      r <- call (DeleteReverseTunnel (GetName tc)) ;;
      match tolerate_not_found r with
      | Some err => Ret (Some err)
      | None => Ret None
      end
  end.

(** *** [EnsureTrustedClusters] (lines 163-198) *)

(** The [if tc.GetEnabled()] at the top of the loop body: the descriptor
    as the call leaves it, [renamed] and [err]. *)
Definition EnsureTrustedClusters_ensure (tc : TrustedCluster)
  : Prog (TrustedCluster * bool * option error) :=
  if GetEnabled tc then ensureEnabled tc
  else (err <- ensureDisabled tc ;; Ret (tc, false, err)).

(** One iteration of the loop: [errs] is the error list so far; the
    iteration hands back the descriptor as the caller's slice now holds
    it, and the error list. *)
Definition EnsureTrustedClusters_body (tc : TrustedCluster) (errs : list error)
  : Prog (TrustedCluster * list error) :=
  let name := GetName tc in
  '(tc, renamed, err) <- EnsureTrustedClusters_ensure tc ;;
  let errs := match err with Some err => errs ++ [err] | None => errs end in
  if negb renamed then Ret (tc, errs)
  else
    r <- call (Presence_UpsertTrustedCluster tc) ;;
    match r with
    | Err err => Ret (tc, errs ++ [err])
    | Ok _ =>
        r <- call (Presence_DeleteTrustedCluster name) ;;
        match r with
        | Err err => Ret (tc, errs ++ [err])
        | Ok _ => Ret (tc, errs)
        end
    end.

Fixpoint EnsureTrustedClusters_loop (tcs : list TrustedCluster)
    (errs : list error) : Prog (list TrustedCluster * list error) :=
  match tcs with
  | [] => Ret ([], errs)
  | tc :: rest =>
      '(tc, errs) <- EnsureTrustedClusters_body tc errs ;;
      '(rest, errs) <- EnsureTrustedClusters_loop rest errs ;;
      Ret (tc :: rest, errs)
  end.

(** Returns the error, and the descriptors of the caller's slice as the
    call leaves them (they are pointers: a rename is seen by the caller;
    a list loaded here because none was supplied is not). *)
Definition EnsureTrustedClusters (ctx : Context) (tcs : list TrustedCluster)
  : Prog (list TrustedCluster * option error) :=
  match tcs with
  | [] =>
      r <- call GetTrustedClusters ;;
      match r with
      | Err err => Ret ([], Some (Wrap err))
      | Ok tcs =>
          '(_, errs) <- EnsureTrustedClusters_loop tcs [] ;;
          Ret ([], NewAggregate errs)
      end
  | _ :: _ =>
      '(tcs, errs) <- EnsureTrustedClusters_loop tcs [] ;;
      Ret (tcs, NewAggregate errs)
  end.

(** *** [DeleteTrustedCluster] (lines 299-339) *)

Definition DeleteTrustedCluster (ctx : Context) (name : string)
  : Prog (Result unit) :=
  cn <-? call GetClusterName_ ;;
  if String.eqb cn name then
    Ret (Err (BadParameter (Sprintf
      "trusted cluster %q is the name of this root cluster and cannot be removed."
      [FString name])))
  else
    r <- call (DeleteCertAuthority {| Type_ := HostCA; DomainName := name |}) ;;
    match tolerate_not_found r with
    | Some err => Ret (Err err)
    | None =>
    r <- call (DeleteCertAuthority {| Type_ := UserCA; DomainName := name |}) ;;
    match tolerate_not_found r with
    | Some err => Ret (Err err)
    | None =>
    r <- call (DeleteReverseTunnel name) ;;
    match tolerate_not_found r with
    | Some err => Ret (Err err)
    | None =>
    check call (Presence_DeleteTrustedCluster name) ;;
    _ <- call (EmitAuditEvent TrustedClusterDelete (clientUsername ctx)) ;;
    Ret (Ok tt)
    end end end.

(** *** [validateTrustedClusterToken] (lines 585-596) *)

Definition validateTrustedClusterToken (token : string) : Prog (Result unit) :=
  r <- call (ValidateToken token) ;;
  match r with
  | Err _ =>
      Ret (Err (AccessDenied
        "the remote server denied access: invalid cluster token"))
  | Ok roles =>
      if negb (Include roles RoleTrustedCluster)
         && negb (Include roles LegacyClusterTokenType)
      then Ret (Err (AccessDenied "role does not match"))
      else Ret (Ok tt)
  end.

(** *** The orphan collector (lines 803-908) *)

(** [time.Time] as nanoseconds, [time.Duration] as a 64-bit count of
    nanoseconds; [t.Sub(u)] saturates at the bounds of a duration. *)
Definition Time : Type := Z.
Definition Duration : Type := Z.

Definition maxDuration : Z := 2 ^ 63 - 1.
Definition minDuration : Z := - 2 ^ 63.

Definition After (t u : Time) : bool := (u <? t)%Z.
Definition Sub (t u : Time) : Duration :=
  let d := (t - u)%Z in
  if (maxDuration <? d)%Z then maxDuration
  else if (d <? minDuration)%Z then minDuration
  else d.

Record suspectedOrphanCA : Type := {
  sus_ca : CertAuthority;
  since : Time;
  seen : bool
}.

Record trustController : Type := {
  orphanAfter : Duration;
  suspectedOrphanCAs : list suspectedOrphanCA
}.

Definition set_seen (sus : suspectedOrphanCA) (b : bool) : suspectedOrphanCA :=
  {| sus_ca := sus_ca sus; since := since sus; seen := b |}.

(** [for _, sus := range c.suspectedOrphanCAs { sus.seen = false }].
    The slice holds struct values and [sus] is the loop's copy of an
    element: the assignment changes the copy, and the slice of [c] is
    what it was. *)
Fixpoint reset_seen (range : list suspectedOrphanCA) (c : trustController)
  : trustController :=
  match range with
  | [] => c
  | sus :: rest =>
      let sus := set_seen sus false in
      reset_seen rest c
  end.

(** The loop over the tracked suspects inside [Processing]: whether it
    left by [continue Processing].  [sus.seen = true] is again an
    assignment to the loop's copy. *)
Fixpoint already_tracked (ca : CertAuthority) (range : list suspectedOrphanCA)
  : bool :=
  match range with
  | [] => false
  | sus :: rest =>
      if Equals ca (sus_ca sus) then
        let sus := set_seen sus true in
        true
      else already_tracked ca rest
  end.

(** The loop over the descriptors inside [Processing]. *)
Fixpoint claimed_by (ca : CertAuthority) (tcs : list TrustedCluster) : bool :=
  match tcs with
  | [] => false
  | tc :: rest =>
      if String.eqb (GetName tc) (GetClusterName ca) then true
      else claimed_by ca rest
  end.

(** One iteration of [Processing]. *)
Definition Processing_body (domainName : string) (tcs : list TrustedCluster)
    (c : trustController) (t : Time)
    (nextSuspects : list suspectedOrphanCA) (ca : CertAuthority)
  : list suspectedOrphanCA :=
  if String.eqb (GetClusterName ca) domainName then nextSuspects
  else if claimed_by ca tcs then nextSuspects
  else if already_tracked ca (suspectedOrphanCAs c) then nextSuspects
  else nextSuspects ++ [{| sus_ca := ca; seen := true; since := t |}].

(** The loop over the CA types. *)
Fixpoint scan (domainName : string) (tcs : list TrustedCluster)
    (c : trustController) (t : Time) (caTypes : list CertAuthType)
    (nextSuspects : list suspectedOrphanCA)
  : Prog (Result (list suspectedOrphanCA)) :=
  match caTypes with
  | [] => Ret (Ok nextSuspects)
  | caType :: rest =>
      cas <-? call (GetCertAuthorities caType false) ;;
      scan domainName tcs c t rest
        (fold_left (Processing_body domainName tcs c t) cas nextSuspects)
  end.

(** The last loop: delete what is past the cutoff, keep the rest. *)
Fixpoint sweep (c : trustController) (t : Time)
    (range : list suspectedOrphanCA) (nextSuspects : list suspectedOrphanCA)
  : Prog (list suspectedOrphanCA) :=
  match range with
  | [] => Ret nextSuspects
  | sus :: rest =>
      if negb (seen sus) then sweep c t rest nextSuspects
      else if After t (since sus) && (orphanAfter c <? Sub t (since sus))%Z then
        _ <- call (DeleteCertAuthority (GetID (sus_ca sus))) ;;
        sweep c t rest nextSuspects
      else sweep c t rest (nextSuspects ++ [sus])
  end.

(** Returns the controller as the cycle leaves it, and the error. *)
Definition cycle (c : trustController) (ctx : Context) (t : Time)
  : Prog (trustController * option error) :=
  r <- call GetDomainName ;;
  match r with
  | Err err => Ret (c, Some (Wrap err))
  | Ok domainName =>
  r <- call AuthServices_GetTrustedClusters ;;
  match r with
  | Err err => Ret (c, Some (Wrap err))
  | Ok tcs =>
  '(tcs, _) <- EnsureTrustedClusters ctx tcs ;;
  let c := reset_seen (suspectedOrphanCAs c) c in
  r <- scan domainName tcs c t [UserCA; HostCA] [] ;;
  match r with
  | Err err => Ret (c, Some err)
  | Ok nextSuspects =>
  nextSuspects <- sweep c t (suspectedOrphanCAs c) nextSuspects ;;
  Ret ({| orphanAfter := orphanAfter c; suspectedOrphanCAs := nextSuspects |},
       None)
  end end end.

End Methods.

(** ** An in-memory backend *)

Module InMemory.

(** Modelled from the spec: the stores behind the facades are declared
    outside this file.  The state holds what spec 3 and 6 name: the local
    domain, the CA records keyed by (type, domain_name) with their
    active or inactive state, the TrustedCluster descriptors and the
    reverse tunnels keyed by name, the local roles, the issued tokens
    with their capabilities, the audit log, and what the proxy of the
    other cluster answers to a validation request. *)
Record Backend : Type := {
  domain : string;
  cert_authorities : list (CertAuthority * bool);
  trusted_clusters : list TrustedCluster;
  reverse_tunnels : list ReverseTunnel;
  local_roles : list string;
  tokens : list (string * Roles);
  audit_log : list (AuditEvent * string);
  proxy : string -> ValidateTrustedClusterRequestRaw
          -> Result ValidateTrustedClusterResponseRaw
}.

Definition with_cert_authorities (b : Backend) (cas : list (CertAuthority * bool))
  : Backend :=
  {| domain := domain b; cert_authorities := cas;
     trusted_clusters := trusted_clusters b;
     reverse_tunnels := reverse_tunnels b; local_roles := local_roles b;
     tokens := tokens b; audit_log := audit_log b; proxy := proxy b |}.

Definition with_trusted_clusters (b : Backend) (tcs : list TrustedCluster)
  : Backend :=
  {| domain := domain b; cert_authorities := cert_authorities b;
     trusted_clusters := tcs;
     reverse_tunnels := reverse_tunnels b; local_roles := local_roles b;
     tokens := tokens b; audit_log := audit_log b; proxy := proxy b |}.

Definition with_reverse_tunnels (b : Backend) (rts : list ReverseTunnel)
  : Backend :=
  {| domain := domain b; cert_authorities := cert_authorities b;
     trusted_clusters := trusted_clusters b;
     reverse_tunnels := rts; local_roles := local_roles b;
     tokens := tokens b; audit_log := audit_log b; proxy := proxy b |}.

Definition with_audit_log (b : Backend) (l : list (AuditEvent * string))
  : Backend :=
  {| domain := domain b; cert_authorities := cert_authorities b;
     trusted_clusters := trusted_clusters b;
     reverse_tunnels := reverse_tunnels b; local_roles := local_roles b;
     tokens := tokens b; audit_log := l; proxy := proxy b |}.

Definition has_id (id : CertAuthID) (e : CertAuthority * bool) : bool :=
  CertAuthID_eqb (GetID (fst e)) id.

Definition named (name : string) (tc : TrustedCluster) : bool :=
  String.eqb (tc_name tc) name.

Definition tunnel_named (name : string) (rt : ReverseTunnel) : bool :=
  String.eqb (rt_name rt) name.

(** Replace the first element that satisfies [p], or add at the end. *)
Fixpoint upsert {A : Type} (p : A -> bool) (x : A) (l : list A) : list A :=
  match l with
  | [] => [x]
  | y :: rest => if p y then x :: rest else y :: upsert p x rest
  end.

Definition remove_if {A : Type} (p : A -> bool) (l : list A) : list A :=
  filter (fun y => negb (p y)) l.

(** Set the state of the CA [id] to [target] when it is stored in the
    other state. *)
Definition set_active (id : CertAuthID) (target : bool)
    (l : list (CertAuthority * bool)) : list (CertAuthority * bool) :=
  map (fun e => if has_id id e then (fst e, target) else e) l.

Definition not_found (what : string) : error := NotFound what.

(** Modelled from the spec: what each facade call answers and stores.
    Reads fail with not-found for a missing record.  Activation finds
    only an inactive CA and deactivation only an active one (the
    comments of [ensureEnabled] and [ensureDisabled]); a read by id
    finds a CA under either state.  CA creation is create-only and fails
    with already-exists on a collision (spec 4.2).  Deletions fail with
    not-found for a missing record.  Upserts replace or add.  The audit
    log grows by one entry per event. *)
Definition handle : Handler Backend :=
  fun Y op =>
    match op in Op Y0 return Backend -> Result Y0 * Backend with
    | Presence_GetTrustedCluster name => fun b =>
        match find (named name) (trusted_clusters b) with
        | Some tc => (Ok tc, b)
        | None => (Err (not_found "trusted cluster not found"), b)
        end
    | Presence_UpsertTrustedCluster tc => fun b =>
        (Ok tc, with_trusted_clusters b
                  (upsert (named (tc_name tc)) tc (trusted_clusters b)))
    | Presence_DeleteTrustedCluster name => fun b =>
        if existsb (named name) (trusted_clusters b) then
          (Ok tt, with_trusted_clusters b
                    (remove_if (named name) (trusted_clusters b)))
        else (Err (not_found "trusted cluster not found"), b)
    | GetTrustedClusters => fun b => (Ok (trusted_clusters b), b)
    | AuthServices_GetTrustedClusters => fun b => (Ok (trusted_clusters b), b)
    | ActivateCertAuthority id => fun b =>
        if existsb (fun e => has_id id e && negb (snd e)) (cert_authorities b) then
          (Ok tt, with_cert_authorities b (set_active id true (cert_authorities b)))
        else (Err (not_found "inactive certificate authority not found"), b)
    | DeactivateCertAuthority id => fun b =>
        if existsb (fun e => has_id id e && snd e) (cert_authorities b) then
          (Ok tt, with_cert_authorities b (set_active id false (cert_authorities b)))
        else (Err (not_found "active certificate authority not found"), b)
    | GetCertAuthority id _ => fun b =>
        match find (has_id id) (cert_authorities b) with
        | Some e => (Ok (fst e), b)
        | None => (Err (not_found "certificate authority not found"), b)
        end
    | GetCertAuthorities caType _ => fun b =>
        (Ok (map fst (filter (fun e => CertAuthType_eqb (ca_type (fst e)) caType)
                             (cert_authorities b))), b)
    | CreateCertAuthority ca => fun b =>
        if existsb (has_id (GetID ca)) (cert_authorities b) then
          (Err (AlreadyExists "certificate authority already exists"), b)
        else (Ok tt, with_cert_authorities b (cert_authorities b ++ [(ca, true)]))
    | DeleteCertAuthority id => fun b =>
        if existsb (has_id id) (cert_authorities b) then
          (Ok tt, with_cert_authorities b (remove_if (has_id id) (cert_authorities b)))
        else (Err (not_found "certificate authority not found"), b)
    | UpsertReverseTunnel rt => fun b =>
        (Ok tt, with_reverse_tunnels b
                  (upsert (tunnel_named (rt_name rt)) rt (reverse_tunnels b)))
    | DeleteReverseTunnel name => fun b =>
        if existsb (tunnel_named name) (reverse_tunnels b) then
          (Ok tt, with_reverse_tunnels b
                    (remove_if (tunnel_named name) (reverse_tunnels b)))
        else (Err (not_found "reverse tunnel not found"), b)
    | GetRole name => fun b =>
        if existsb (String.eqb name) (local_roles b) then (Ok tt, b)
        else (Err (not_found "role not found"), b)
    | GetClusterName_ => fun b => (Ok (domain b), b)
    | GetDomainName => fun b => (Ok (domain b), b)
    | ValidateToken token => fun b =>
        match find (fun e => String.eqb (fst e) token) (tokens b) with
        | Some e => (Ok (snd e), b)
        | None => (Err (not_found "token not found"), b)
        end
    | EmitAuditEvent ev user => fun b =>
        (Ok tt, with_audit_log b (audit_log b ++ [(ev, user)]))
    | NewClient _ => fun b => (Ok tt, b)
    | PostJSON host body => fun b =>
        match proxy b host body with
        | Ok raw => (Ok (Some raw), b)
        | Err err => (Err err, b)
        end
    end.

End InMemory.

(** ** Concrete collaborators for the end-to-end scenarios *)

Module Scenario.

Import InMemory.

(** A marshaller given by a table of CAs and their encodings. *)
Definition table_marshaler (table : list (CertAuthority * bytes))
  : CertAuthorityMarshaler :=
  {| MarshalCertAuthority := fun ca =>
       match find (fun e => Equals ca (fst e)) table with
       | Some e => Ok (snd e)
       | None => Err (BadParameter "certificate authority cannot be marshalled")
       end;
     UnmarshalCertAuthority := fun data =>
       match find (fun e => list_eqb Byte.eqb data (snd e)) table with
       | Some e => Ok (fst e)
       | None => Err (BadParameter "certificate authority cannot be unmarshalled")
       end |}.

Definition plain_ca (t : CertAuthType) (name : string) : CertAuthority :=
  {| ca_type := t; ca_name := name; ca_cluster_name := name; ca_roles := [];
     ca_role_map := []; ca_tls_key_pairs := [] |}.

Definition root_host : CertAuthority := plain_ca HostCA "root".
Definition root_user : CertAuthority := plain_ca UserCA "root".
Definition leaf_host : CertAuthority := plain_ca HostCA "leaf-east".
Definition leaf_user : CertAuthority := plain_ca UserCA "leaf-east".
Definition ghost_host : CertAuthority := plain_ca HostCA "ghost".

Definition table : list (CertAuthority * bytes) :=
  [(root_host, [x01]); (leaf_host, [x02]); (leaf_user, [x03])].

#[local] Instance marshaler : CertAuthorityMarshaler := table_marshaler table.

(** A certificate whose bytes are its cluster name; a descriptor may
    change nothing but [enabled]; a format string is kept as it is. *)
#[local] Instance externals : Externals :=
  {| RoleTrustedCluster := "trusted_cluster";
     LegacyClusterTokenType := "legacy_trusted_cluster";
     ParseCertificatePEM := fun pem =>
       Ok {| Subject := [("O", string_of_list_byte pem)] |};
     tlsca_ClusterName := fun subject =>
       match subject with
       | [(_, name)] => Ok name
       | _ => Err (BadParameter "missing cluster name")
       end;
     ContainsExpansion := fun s => Contains s "{{";
     CanChangeStateTo := fun existing t =>
       if String.eqb (tc_token existing) (tc_token t)
          && String.eqb (tc_proxy_address existing) (tc_proxy_address t)
       then None
       else Some (Error_ KOther "invalid transition");
     Sprintf := fun format _ => format |}.

(** The leaf answers every validation request with its two CAs. *)
Definition leaf_proxy (host : string) (body : ValidateTrustedClusterRequestRaw)
  : Result ValidateTrustedClusterResponseRaw :=
  Ok {| rawresp_CAs := [[x02]; [x03]] |}.

(** The leaf rejects the token. *)
Definition denying_proxy (host : string) (body : ValidateTrustedClusterRequestRaw)
  : Result ValidateTrustedClusterResponseRaw :=
  Err (AccessDenied "the remote server denied access: invalid cluster token").

(** The root cluster before any enrolment. *)
Definition root_backend (p : string -> ValidateTrustedClusterRequestRaw
                             -> Result ValidateTrustedClusterResponseRaw)
  : Backend :=
  {| domain := "root";
     cert_authorities := [(root_host, true); (root_user, true)];
     trusted_clusters := [];
     reverse_tunnels := [];
     local_roles := ["admin"];
     tokens := [];
     audit_log := [];
     proxy := p |}.

Definition admin : Context := {| clientUsername := "alice" |}.

(** The descriptor of scenario S1, submitted under a provisional name. *)
Definition T_temp : TrustedCluster :=
  {| tc_name := "temp"; tc_enabled := true; tc_token := "tok";
     tc_proxy_address := "p:443";
     tc_reverse_tunnel_address := "p:3024";
     tc_roles := ["admin"];
     tc_role_map := [{| Remote := "dev"; Local_ := ["admin"] |}] |}.

(** The root with one issued node token, which lacks the trusted-cluster
    capability. *)
Definition token_backend : Backend :=
  {| domain := "root";
     cert_authorities := [(root_host, true); (root_user, true)];
     trusted_clusters := [];
     reverse_tunnels := [];
     local_roles := ["admin"];
     tokens := [("node-token", ["node"]); ("cluster-token", ["trusted_cluster"])];
     audit_log := [];
     proxy := denying_proxy |}.

(** A descriptor stored by an old version: no CA was ever recorded for it. *)
Definition T_legacy : TrustedCluster :=
  {| tc_name := "legacy"; tc_enabled := true; tc_token := "tok";
     tc_proxy_address := "p:443";
     tc_reverse_tunnel_address := "p:3024";
     tc_roles := []; tc_role_map := [] |}.

(** The same descriptor, to be disabled. *)
Definition T_legacy_off : TrustedCluster :=
  {| tc_name := "legacy"; tc_enabled := false; tc_token := "tok";
     tc_proxy_address := "p:443";
     tc_reverse_tunnel_address := "p:3024";
     tc_roles := []; tc_role_map := [] |}.

Definition legacy_backend : Backend :=
  {| domain := "root";
     cert_authorities := [(root_host, true); (root_user, true)];
     trusted_clusters := [T_legacy];
     reverse_tunnels := [];
     local_roles := ["admin"];
     tokens := [];
     audit_log := [];
     proxy := denying_proxy |}.

(** The root after the enrolment of scenario S1. *)
Definition enrolled_backend : Backend :=
  final handle (UpsertTrustedCluster admin T_temp) (root_backend leaf_proxy).

(** The descriptor of the leaf under its pinned name. *)
Definition T_leaf : TrustedCluster := tc_SetName T_temp "leaf-east".

(** The root with the leaf's host CA already stored. *)
Definition half_backend : Backend :=
  with_cert_authorities (root_backend leaf_proxy)
    [(root_host, true); (root_user, true);
     (prepare_remote_CA T_leaf leaf_host, true)].

(** The enrolled root whose reverse tunnel was removed. *)
Definition untunnelled_backend : Backend :=
  with_reverse_tunnels enrolled_backend [].

(** A proxy map: the leaf answers at "p:443", every other host denies. *)
Definition split_proxy (host : string) (body : ValidateTrustedClusterRequestRaw)
  : Result ValidateTrustedClusterResponseRaw :=
  if String.eqb host "p:443" then leaf_proxy host body
  else denying_proxy host body.

(** A descriptor whose proxy denies the token. *)
Definition T_denied : TrustedCluster :=
  {| tc_name := "west"; tc_enabled := true; tc_token := "nope";
     tc_proxy_address := "w:443";
     tc_reverse_tunnel_address := "w:3024";
     tc_roles := []; tc_role_map := [] |}.

(** The root with two descriptors stored and no trust established yet. *)
Definition two_backend : Backend :=
  with_trusted_clusters (root_backend split_proxy) [T_denied; T_temp].

(** Scenario S5: the root holds the two CAs of a cluster "ghost" that no
    descriptor covers. *)
Definition ghost_user : CertAuthority := plain_ca UserCA "ghost".

Definition ghost_backend : Backend :=
  with_cert_authorities (root_backend denying_proxy)
    [(root_host, true); (root_user, true);
     (ghost_host, true); (ghost_user, true)].

(** The descriptor an administrator then stores for "ghost". *)
Definition T_ghost : TrustedCluster :=
  {| tc_name := "ghost"; tc_enabled := true; tc_token := "tok";
     tc_proxy_address := "g:443";
     tc_reverse_tunnel_address := "g:3024";
     tc_roles := []; tc_role_map := [] |}.

Definition claimed_backend : Backend :=
  with_trusted_clusters ghost_backend [T_ghost].

(** A collector that has tracked nothing yet, with a grace window of 50. *)
Definition collector : trustController :=
  {| orphanAfter := 50%Z; suspectedOrphanCAs := [] |}.

(** The collector after its first cycle at time 100 over [ghost_backend]. *)
Definition tracking_collector : trustController :=
  {| orphanAfter := 50%Z;
     suspectedOrphanCAs :=
       [{| sus_ca := ghost_user; since := 100%Z; seen := true |};
        {| sus_ca := ghost_host; since := 100%Z; seen := true |}] |}.



(** The in-memory backend with a CA store that cannot delete a user CA:
    the deletion fails with an error that is no not-found. *)
Definition user_CA_undeletable : Handler Backend :=
  fun Y op =>
    match op in Op Y0 return Backend -> Result Y0 * Backend with
    | DeleteCertAuthority id => fun b =>
        match Type_ id with
        | UserCA => (Err (Error_ KOther "backend unavailable"), b)
        | HostCA => handle _ (DeleteCertAuthority id) b
        end
    | op' => handle _ op'
    end.

End Scenario.

(** ** Words of the specification *)

(** A step "tolerates not-found": it succeeded, or it failed with
    not-found. *)
Definition ok_or_not_found {A : Type} (r : Result A) : Prop :=
  match r with
  | Ok _ => True
  | Err e => IsNotFound e = true
  end.

(** *** One pass of the ensure loop, in the words of the specification *)

Definition error_list (err : option error) : list error :=
  match err with Some e => [e] | None => [] end.

Section PassWords.

Context {M : CertAuthorityMarshaler} {E : Externals}.
Context {St : Type} (h : Handler St).

(** [Reconciled tc s tc' errs s' tr]: reconciling the descriptor [tc] from
    the state [s] leaves the descriptor [tc'] and the state [s'], makes
    the calls [tr] and contributes the errors [errs].  The descriptor is
    ensured enabled or disabled; when that did not rename it nothing else
    happens.  When it did, the descriptor is first stored under its new
    name and then the record under the old name is deleted; a failure of
    the store adds its error and skips the deletion, a failure of the
    deletion adds its error.  The error of the ensure step, if any, comes
    first in each case. *)
Inductive Reconciled
  : TrustedCluster -> St -> TrustedCluster -> list error -> St -> list Call
    -> Prop :=
| Reconciled_in_place (tc : TrustedCluster) (s : St) tc' err s1 tr :
    exec h (EnsureTrustedClusters_ensure tc) s = (Done (tc', false, err), s1, tr) ->
    Reconciled tc s tc' (error_list err) s1 tr
| Reconciled_store_failed (tc : TrustedCluster) (s : St) tc' err s1 tr e :
    exec h (EnsureTrustedClusters_ensure tc) s = (Done (tc', true, err), s1, tr) ->
    answer h (Presence_UpsertTrustedCluster tc') s1 = Err e ->
    Reconciled tc s tc' (error_list err ++ [e])
      (after h (Presence_UpsertTrustedCluster tc') s1)
      (tr ++ [mkCall (Presence_UpsertTrustedCluster tc')])
| Reconciled_delete_failed (tc : TrustedCluster) (s : St) tc' err s1 tr stored e :
    exec h (EnsureTrustedClusters_ensure tc) s = (Done (tc', true, err), s1, tr) ->
    answer h (Presence_UpsertTrustedCluster tc') s1 = Ok stored ->
    answer h (Presence_DeleteTrustedCluster (GetName tc))
      (after h (Presence_UpsertTrustedCluster tc') s1) = Err e ->
    Reconciled tc s tc' (error_list err ++ [e])
      (after h (Presence_DeleteTrustedCluster (GetName tc))
         (after h (Presence_UpsertTrustedCluster tc') s1))
      (tr ++ [mkCall (Presence_UpsertTrustedCluster tc');
              mkCall (Presence_DeleteTrustedCluster (GetName tc))])
| Reconciled_renamed (tc : TrustedCluster) (s : St) tc' err s1 tr stored u :
    exec h (EnsureTrustedClusters_ensure tc) s = (Done (tc', true, err), s1, tr) ->
    answer h (Presence_UpsertTrustedCluster tc') s1 = Ok stored ->
    answer h (Presence_DeleteTrustedCluster (GetName tc))
      (after h (Presence_UpsertTrustedCluster tc') s1) = Ok u ->
    Reconciled tc s tc' (error_list err)
      (after h (Presence_DeleteTrustedCluster (GetName tc))
         (after h (Presence_UpsertTrustedCluster tc') s1))
      (tr ++ [mkCall (Presence_UpsertTrustedCluster tc');
              mkCall (Presence_DeleteTrustedCluster (GetName tc))]).

(** [Pass tcs s tcs' errs s' tr]: every descriptor of [tcs] is reconciled
    in turn, each from the state the one before it left, whatever errors
    the ones before it contributed; the errors add up in order. *)
Inductive Pass
  : list TrustedCluster -> St -> list TrustedCluster -> list error -> St
    -> list Call -> Prop :=
| Pass_nil (s : St) : Pass [] s [] [] s []
| Pass_cons (tc : TrustedCluster) (rest : list TrustedCluster) (s : St)
    tc' errs1 s1 tr1 rest' errs2 s2 tr2 :
    Reconciled tc s tc' errs1 s1 tr1 ->
    Pass rest s1 rest' errs2 s2 tr2 ->
    Pass (tc :: rest) s (tc' :: rest') (errs1 ++ errs2) s2 (tr1 ++ tr2).

End PassWords.

(** The call that upserts the reverse tunnel of a descriptor. *)
Definition tunnel_of (t : TrustedCluster) : Op unit :=
  UpsertReverseTunnel (NewReverseTunnel (GetName t) [GetReverseTunnelAddress t]).

(** A run that made no call that writes to the local backend. *)
Definition reads_only (tr : list Call) : bool :=
  forallb (fun c => negb (mutates c)) tr.

(** A backend whose state is the same after a call that does not write. *)
Definition reads_keep_state {St : Type} (h : Handler St) : Prop :=
  forall (Y : Type) (op : Op Y) (st : St),
    is_mutation op = false -> after h op st = st.

(** * Further definitions *)

(** ** What a run touches *)

(** The facade method behind a call. *)
Inductive OpKind : Type :=
| KPresenceGet | KPresenceUpsert | KPresenceDelete
| KGetTrustedClusters | KBackendGetTrustedClusters
| KActivateCA | KDeactivateCA | KGetCA | KGetCAs | KCreateCA | KDeleteCA
| KUpsertTunnel | KDeleteTunnel
| KGetRole | KGetClusterName | KGetDomainName | KValidateToken | KEmitAudit
| KNewClient | KPostJSON.

Definition kind_of {Y : Type} (op : Op Y) : OpKind :=
  match op with
  | Presence_GetTrustedCluster _ => KPresenceGet
  | Presence_UpsertTrustedCluster _ => KPresenceUpsert
  | Presence_DeleteTrustedCluster _ => KPresenceDelete
  | GetTrustedClusters => KGetTrustedClusters
  | AuthServices_GetTrustedClusters => KBackendGetTrustedClusters
  | ActivateCertAuthority _ => KActivateCA
  | DeactivateCertAuthority _ => KDeactivateCA
  | GetCertAuthority _ _ => KGetCA
  | GetCertAuthorities _ _ => KGetCAs
  | CreateCertAuthority _ => KCreateCA
  | DeleteCertAuthority _ => KDeleteCA
  | UpsertReverseTunnel _ => KUpsertTunnel
  | DeleteReverseTunnel _ => KDeleteTunnel
  | GetRole _ => KGetRole
  | GetClusterName_ => KGetClusterName
  | GetDomainName => KGetDomainName
  | ValidateToken _ => KValidateToken
  | EmitAuditEvent _ _ => KEmitAudit
  | NewClient _ => KNewClient
  | PostJSON _ _ => KPostJSON
  end.

Definition OpKind_eqb (a b : OpKind) : bool :=
  match a, b with
  | KPresenceGet, KPresenceGet
  | KPresenceUpsert, KPresenceUpsert
  | KPresenceDelete, KPresenceDelete
  | KGetTrustedClusters, KGetTrustedClusters
  | KBackendGetTrustedClusters, KBackendGetTrustedClusters
  | KActivateCA, KActivateCA
  | KDeactivateCA, KDeactivateCA
  | KGetCA, KGetCA
  | KGetCAs, KGetCAs
  | KCreateCA, KCreateCA
  | KDeleteCA, KDeleteCA
  | KUpsertTunnel, KUpsertTunnel
  | KDeleteTunnel, KDeleteTunnel
  | KGetRole, KGetRole
  | KGetClusterName, KGetClusterName
  | KGetDomainName, KGetDomainName
  | KValidateToken, KValidateToken
  | KEmitAudit, KEmitAudit
  | KNewClient, KNewClient
  | KPostJSON, KPostJSON => true
  | _, _ => false
  end.

Definition kind_in (ks : list OpKind) (c : Call) : bool :=
  existsb (OpKind_eqb (kind_of (projT2 c))) ks.

(** [touches h ks p]: from every state, every call of [p] is to one of the
    facade methods [ks]. *)
Definition touches {St A : Type} (h : Handler St) (ks : list OpKind)
    (p : Prog A) : Prop :=
  forall s, forallb (kind_in ks) (calls h p s) = true.

(** The ids a run asked the CA store to delete, in order. *)
Definition deleted_CA (c : Call) : list CertAuthID :=
  match projT2 c with
  | DeleteCertAuthority id => [id]
  | _ => []
  end.

Definition CA_deletions (tr : list Call) : list CertAuthID :=
  flat_map deleted_CA tr.

(** The validation requests a run posted, with the host they went to. *)
Definition posted (c : Call)
  : list (string * ValidateTrustedClusterRequestRaw) :=
  match projT2 c with
  | PostJSON host body => [(host, body)]
  | _ => []
  end.

Definition posted_requests (tr : list Call)
  : list (string * ValidateTrustedClusterRequestRaw) :=
  flat_map posted tr.

(** The roles [checkLocalRoles] looks up: the local roles of the mappings
    that are no template expansion, in order. *)
Definition looked_up_roles {E : Externals} (roleMap : RoleMap) : list string :=
  filter (fun r => negb (ContainsExpansion r)) (flat_map Local_ roleMap).

(** A tracked suspect the last loop of a cycle at time [t] deletes. *)
Definition past_cutoff (c : trustController) (t : Time)
    (sus : suspectedOrphanCA) : bool :=
  seen sus && After t (since sus) && (orphanAfter c <? Sub t (since sus))%Z.

(** A suspect a cycle at time [t] adds: a CA that is not of the local
    domain, that no descriptor of [tcs] covers and that was not tracked in
    [c], tagged seen and dated [t]. *)
Definition newly_tracked (domainName : string) (tcs : list TrustedCluster)
    (c : trustController) (t : Time) (sus : suspectedOrphanCA) : Prop :=
  since sus = t
  /\ seen sus = true
  /\ String.eqb (GetClusterName (sus_ca sus)) domainName = false
  /\ claimed_by (sus_ca sus) tcs = false
  /\ already_tracked (sus_ca sus) (suspectedOrphanCAs c) = false.

(** The in-memory backend with a CA store that cannot list its CAs. *)
Definition unlistable : Handler InMemory.Backend :=
  fun Y op =>
    match op in Op Y0 return InMemory.Backend -> Result Y0 * InMemory.Backend with
    | GetCertAuthorities _ _ => fun b =>
        (Err (Error_ KOther "backend unavailable"), b)
    | op' => InMemory.handle _ op'
    end.

(** An error that is a not-found whenever every failing role lookup of the
    backend is one. *)
Definition not_found_if_lookups_are {St : Type} (h : Handler St) (e : error)
  : Prop :=
  (forall r s e0, answer h (GetRole r) s = Err e0 -> IsNotFound e0 = true) ->
  IsNotFound e = true.

(** Every TLS certificate of the CA parses and names a cluster other than
    [domainName]. *)
Definition certificates_name_another {E : Externals} (domainName : string)
    (ca : CertAuthority) : Prop :=
  Forall (fun keyPair =>
            exists cert name,
              ParseCertificatePEM (Cert keyPair) = Ok cert
              /\ tlsca_ClusterName (Subject cert) = Ok name
              /\ String.eqb name domainName = false)
         (GetTLSKeyPairs ca).

(** ** Further concrete cases *)

Module Cases.

Import InMemory Scenario.

(** The leaf's host CA with a TLS certificate; in the scenarios a
    certificate's bytes are the cluster name it is issued for. *)
Definition leaf_tls_host : CertAuthority :=
  {| ca_type := HostCA; ca_name := "leaf-east"; ca_cluster_name := "leaf-east";
     ca_roles := []; ca_role_map := [];
     ca_tls_key_pairs :=
       [{| Cert := list_byte_of_string "leaf-east"; Key := [] |}] |}.

Definition tls_table : list (CertAuthority * bytes) :=
  [(root_host, [x01]); (leaf_tls_host, [x04])].

Definition tls_marshaler : CertAuthorityMarshaler := table_marshaler tls_table.

(** The leaf answers with its host CA and the certificate. *)
Definition tls_proxy (host : string) (body : ValidateTrustedClusterRequestRaw)
  : Result ValidateTrustedClusterResponseRaw :=
  Ok {| rawresp_CAs := [[x04]] |}.

(** The enrolled root whose host CA for the leaf was deactivated while the
    user CA stayed active. *)
Definition split_backend : Backend :=
  with_cert_authorities enrolled_backend
    (set_active {| Type_ := HostCA; DomainName := "leaf-east" |} false
       (cert_authorities enrolled_backend)).

(** The leaf's descriptor, to be disabled. *)
Definition T_leaf_off : TrustedCluster :=
  {| tc_name := "leaf-east"; tc_enabled := false; tc_token := "tok";
     tc_proxy_address := "p:443";
     tc_reverse_tunnel_address := "p:3024";
     tc_roles := ["admin"];
     tc_role_map := [{| Remote := "dev"; Local_ := ["admin"] |}] |}.

(** The legacy descriptor resubmitted with another token. *)
Definition T_legacy_retoken : TrustedCluster :=
  {| tc_name := "legacy"; tc_enabled := true; tc_token := "other";
     tc_proxy_address := "p:443";
     tc_reverse_tunnel_address := "p:3024";
     tc_roles := []; tc_role_map := [] |}.

(** A role map with a template expansion and a role that does not exist. *)
Definition template_map : RoleMap :=
  [{| Remote := "dev"; Local_ := ["admin"; "{{external.groups}}"] |};
   {| Remote := "ops"; Local_ := ["admin"] |}].

Definition missing_map : RoleMap :=
  [{| Remote := "dev"; Local_ := ["admin"] |};
   {| Remote := "ops"; Local_ := ["operator"; "admin"] |}].

(** The backends that hold the one local role "admin". *)
Definition only_admin (b : Backend) : Prop := local_roles b = ["admin"].

End Cases.

(** ** Programs over a wider family of calls

    The responder of the handshake and the remote-cluster methods of
    [trustedcluster.go] call facade methods beside those of [Op]; their
    bodies are programs over a family of calls [O] that is given. *)

Section ProgOver.

Variable O : Type -> Type.

Inductive ProgOf (A : Type) : Type :=
| RetOf (a : A)
| PanicOf (msg : string)
| VisOf (Y : Type) (op : O Y) (k : Result Y -> ProgOf A).
Arguments RetOf {A} a.
Arguments PanicOf {A} msg.
Arguments VisOf {A Y} op k.

Fixpoint bindOf {A B : Type} (p : ProgOf A) (f : A -> ProgOf B) : ProgOf B :=
  match p with
  | RetOf a => f a
  | PanicOf msg => PanicOf msg
  | VisOf op k => VisOf op (fun r => bindOf (k r) f)
  end.

Definition callOf {Y : Type} (op : O Y) : ProgOf (Result Y) :=
  VisOf op (fun r => RetOf r).

Definition HandlerOf (St : Type) : Type :=
  forall Y : Type, O Y -> St -> Result Y * St.

Definition CallOf : Type := { Y : Type & O Y }.
Definition mkCallOf {Y : Type} (op : O Y) : CallOf := existT _ Y op.

Fixpoint execOf {St A : Type} (h : HandlerOf St) (p : ProgOf A) (s : St)
  : Outcome A * St * list CallOf :=
  match p with
  | RetOf a => (Done a, s, [])
  | PanicOf msg => (Panicked msg, s, [])
  | VisOf op k =>
      let '(r, s1) := h _ op s in
      let '(o, s2, tr) := execOf h (k r) s1 in
      (o, s2, mkCallOf op :: tr)
  end.

Definition outcomeOf {St A : Type} (h : HandlerOf St) (p : ProgOf A) (s : St)
  : Outcome A := fst (fst (execOf h p s)).
Definition finalOf {St A : Type} (h : HandlerOf St) (p : ProgOf A) (s : St)
  : St := snd (fst (execOf h p s)).
Definition callsOf {St A : Type} (h : HandlerOf St) (p : ProgOf A) (s : St)
  : list CallOf := snd (execOf h p s).

Definition answerOf {St Y : Type} (h : HandlerOf St) (op : O Y) (s : St)
  : Result Y := fst (h _ op s).
Definition afterOf {St Y : Type} (h : HandlerOf St) (op : O Y) (s : St)
  : St := snd (h _ op s).

End ProgOver.

Arguments RetOf {O A} a.
Arguments PanicOf {O A} msg.
Arguments VisOf {O A Y} op k.
Arguments bindOf {O A B} p f.
Arguments callOf {O Y} op.
Arguments mkCallOf {O Y} op.
Arguments execOf {O St A} h p s.
Arguments outcomeOf {O St A} h p s.
Arguments finalOf {O St A} h p s.
Arguments callsOf {O St A} h p s.
Arguments answerOf {O St Y} h op s.
Arguments afterOf {O St Y} h op s.

Declare Scope progof_scope.
Delimit Scope progof_scope with progof.
Notation "x <- p ;; q" := (bindOf p (fun x => q))
  (at level 100, p at next level, right associativity) : progof_scope.
Notation "' pat <- p ;; q" := (bindOf p (fun x => match x with pat => q end))
  (at level 100, pat pattern, p at next level, right associativity)
  : progof_scope.
Notation "x <-? p ;; q" :=
  (bindOf p (fun r => match r with Ok x => q | Err e => RetOf (Err (Wrap e)) end))
  (at level 100, p at next level, right associativity) : progof_scope.
Notation "'check' p ;; q" :=
  (bindOf p (fun r => match r with Ok _ => q | Err e => RetOf (Err (Wrap e)) end))
  (at level 100, p at next level, right associativity) : progof_scope.

(** ** Remote clusters and the responder *)

(** Modelled from the spec: [services.RemoteCluster] is declared outside
    this file.  Spec 3: name, connection_status and last_heartbeat. *)
Record RemoteCluster : Type := {
  rc_name : string;
  rc_connection_status : string;
  rc_last_heartbeat : Time
}.

Definition SetConnectionStatus (rc : RemoteCluster) (status : string)
  : RemoteCluster :=
  {| rc_name := rc_name rc; rc_connection_status := status;
     rc_last_heartbeat := rc_last_heartbeat rc |}.

Definition SetLastHeartbeat (rc : RemoteCluster) (t : Time) : RemoteCluster :=
  {| rc_name := rc_name rc; rc_connection_status := rc_connection_status rc;
     rc_last_heartbeat := t |}.

(** Modelled from the spec: [services.TunnelConnection] is declared
    outside this file; the code reads its last heartbeat. *)
Record TunnelConnection : Type := {
  conn_cluster_name : string;
  conn_proxy_name : string;
  conn_last_heartbeat : Time
}.

Definition GetLastHeartbeat (conn : TunnelConnection) : Time :=
  conn_last_heartbeat conn.

(** Modelled from the spec: [services.ClusterConfig] is declared outside
    this file; spec 6: keep_alive_count_max and keep_alive_interval. *)
Record ClusterConfig : Type := {
  KeepAliveCountMax : Z;
  KeepAliveInterval : Duration
}.

(** [ca.GetName()]: the resource name of a CA. *)
Definition CA_GetName (ca : CertAuthority) : string := ca_name ca.

(** Pure helpers of package [services] and the status constant of package
    [teleport]: [services.NewRemoteCluster], [services.LatestTunnelConnection],
    and [services.TunnelConnectionStatus] applied to the reading it takes
    of the clock it is given. *)
Class RemoteExternals : Type := {
  RemoteClusterStatusOffline : string;
  NewRemoteCluster : string -> Result RemoteCluster;
  LatestTunnelConnection : list TunnelConnection -> Result TunnelConnection;
  TunnelConnectionStatus : Time -> TunnelConnection -> Duration -> string
}.

(** The calls of [Op] and those of the remote-cluster side. *)
Inductive RemoteOp : Type -> Type :=
| Auth (Y : Type) (op : Op Y) : RemoteOp Y
| Presence_GetRemoteCluster (clusterName : string) : RemoteOp RemoteCluster
| Presence_GetRemoteClusters : RemoteOp (list RemoteCluster)
| Presence_DeleteRemoteCluster (clusterName : string) : RemoteOp unit
| CreateRemoteCluster (rc : RemoteCluster) : RemoteOp unit
| UpsertCertAuthority (ca : CertAuthority) : RemoteOp unit
(* GetCertAuthority(id, loadSecrets, services.SkipValidation()) *)
| GetCertAuthority_SkipValidation (id : CertAuthID) (loadSecrets : bool)
    : RemoteOp CertAuthority
| GetClusterConfig : RemoteOp ClusterConfig
| GetTunnelConnections (clusterName : string) : RemoteOp (list TunnelConnection).
Arguments Auth {Y} op.

(** A method of the part above, run among the calls of this side. *)
Fixpoint lift {A : Type} (p : Prog A) : ProgOf RemoteOp A :=
  match p with
  | Ret a => RetOf a
  | Panic msg => PanicOf msg
  | Vis op k => VisOf (Auth op) (fun r => lift (k r))
  end.

(** The backend the lifted methods see. *)
Definition auth_part {St : Type} (h : HandlerOf RemoteOp St) : Handler St :=
  fun Y op => h Y (Auth op).

(** Calls of this side that write to the local backend. *)
Definition remote_write {Y : Type} (op : RemoteOp Y) : bool :=
  match op with
  | Auth op => is_mutation op
  | Presence_DeleteRemoteCluster _
  | CreateRemoteCluster _
  | UpsertCertAuthority _ => true
  | _ => false
  end.

Definition remote_reads_only (tr : list (CallOf RemoteOp)) : bool :=
  forallb (fun c => negb (remote_write (projT2 c))) tr.

(** The CAs a trace upserts, in order. *)
Definition upserted_CA (c : CallOf RemoteOp) : list CertAuthority :=
  match projT2 c with
  | UpsertCertAuthority ca => [ca]
  | _ => []
  end.

Definition CA_upserts (tr : list (CallOf RemoteOp)) : list CertAuthority :=
  flat_map upserted_CA tr.

(** The remote clusters a trace creates, in order. *)
Definition created_cluster (c : CallOf RemoteOp) : list RemoteCluster :=
  match projT2 c with
  | CreateRemoteCluster rc => [rc]
  | _ => []
  end.

Definition cluster_creations (tr : list (CallOf RemoteOp)) : list RemoteCluster :=
  flat_map created_cluster tr.

(** The CA ids a trace deletes, in order. *)
Definition remote_deleted_CA (c : CallOf RemoteOp) : list CertAuthID :=
  match projT2 c with
  | Auth (DeleteCertAuthority id) => [id]
  | _ => []
  end.

Definition remote_CA_deletions (tr : list (CallOf RemoteOp)) : list CertAuthID :=
  flat_map remote_deleted_CA tr.

(** [int64] multiplication: the product, wrapped. *)
Definition wrap64 (z : Z) : Z :=
  ((z + 2 ^ 63) mod 2 ^ 64 - 2 ^ 63)%Z.

Section RemoteMethods.

Context {E : Externals} {R : RemoteExternals}.

Local Open Scope progof_scope.

(** *** [DeleteRemoteCluster] (lines 433-465) *)

Definition DeleteRemoteCluster (clusterName : string)
  : ProgOf RemoteOp (Result unit) :=
  check callOf (Presence_GetRemoteCluster clusterName) ;;
  r <- callOf (Auth (DeleteCertAuthority
                       {| Type_ := HostCA; DomainName := clusterName |})) ;;
  match tolerate_not_found r with
  | Some err => RetOf (Err err)
  | None =>
  r <- callOf (Auth (DeleteCertAuthority
                       {| Type_ := UserCA; DomainName := clusterName |})) ;;
  match tolerate_not_found r with
  | Some err => RetOf (Err err)
  | None => callOf (Presence_DeleteRemoteCluster clusterName)
  end end.

(** *** [updateRemoteClusterStatus] (lines 481-503)

    The remote cluster is a pointer; the method hands it back as it
    leaves it, beside the error.  [now] is the reading
    [services.TunnelConnectionStatus] takes of [a.clock]. *)
Definition updateRemoteClusterStatus (now : Time) (remoteCluster : RemoteCluster)
  : ProgOf RemoteOp (RemoteCluster * option error) :=
  r <- callOf GetClusterConfig ;;
  match r with
  | Err err => RetOf (remoteCluster, Some (Wrap err))
  | Ok clusterConfig =>
  let keepAliveCountMax := KeepAliveCountMax clusterConfig in
  let keepAliveInterval := KeepAliveInterval clusterConfig in
  r <- callOf (GetTunnelConnections (rc_name remoteCluster)) ;;
  match r with
  | Err err => RetOf (remoteCluster, Some (Wrap err))
  | Ok connections =>
  let remoteCluster :=
    SetConnectionStatus remoteCluster RemoteClusterStatusOffline in
  match LatestTunnelConnection connections with
  | Err _ => RetOf (remoteCluster, None)
  | Ok lastConn =>
      let offlineThreshold := wrap64 (keepAliveCountMax * keepAliveInterval) in
      let tunnelStatus := TunnelConnectionStatus now lastConn offlineThreshold in
      let remoteCluster := SetConnectionStatus remoteCluster tunnelStatus in
      let remoteCluster :=
        SetLastHeartbeat remoteCluster (GetLastHeartbeat lastConn) in
      RetOf (remoteCluster, None)
  end end end.

(** *** [GetRemoteCluster] (lines 468-479) *)

Definition GetRemoteCluster (now : Time) (clusterName : string)
  : ProgOf RemoteOp (Result RemoteCluster) :=
  remoteCluster <-? callOf (Presence_GetRemoteCluster clusterName) ;;
  ' (remoteCluster, err) <- updateRemoteClusterStatus now remoteCluster ;;
  match err with
  | Some err => RetOf (Err (Wrap err))
  | None => RetOf (Ok remoteCluster)
  end.

(** *** [GetRemoteClusters] (lines 506-519)

    [for i := range remoteClusters]: [range] is what is left of the slice,
    [done] the elements already updated in place, [i] the index and
    [clock i] the reading of [a.clock] in that iteration. *)
Fixpoint GetRemoteClusters_loop (clock : nat -> Time) (i : nat)
    (range done : list RemoteCluster)
  : ProgOf RemoteOp (Result (list RemoteCluster)) :=
  match range with
  | [] => RetOf (Ok done)
  | remoteCluster :: rest =>
      ' (remoteCluster, err) <- updateRemoteClusterStatus (clock i) remoteCluster ;;
      match err with
      | Some err => RetOf (Err (Wrap err))
      | None => GetRemoteClusters_loop clock (S i) rest (done ++ [remoteCluster])
      end
  end.

Definition GetRemoteClusters (clock : nat -> Time)
  : ProgOf RemoteOp (Result (list RemoteCluster)) :=
  remoteClusters <-? callOf Presence_GetRemoteClusters ;;
  GetRemoteClusters_loop clock 0 remoteClusters [].

(** *** [validateTrustedCluster] (lines 521-583)

    The two [log.Debugf] lines are left out: they call nothing of the
    backend and their output is no part of the result. *)

(** The first loop over the request's CAs: the name of the last one, or
    the refusal of one named as the local cluster. *)
Fixpoint remote_cluster_name (domainName : string) (range : list CertAuthority)
    (remoteClusterName : string) : Result string :=
  match range with
  | [] => Ok remoteClusterName
  | certAuthority :: rest =>
      if String.eqb (CA_GetName certAuthority) domainName
      then Err (AccessDenied (Sprintf
             "remote certificate authority has same name as cluster certificate authority: %v"
             [FString domainName]))
      else remote_cluster_name domainName rest (CA_GetName certAuthority)
  end.

Definition tolerate_already_exists (r : Result unit) : option error :=
  match r with
  | Ok _ => None
  | Err err => if negb (IsAlreadyExists err) then Some (Wrap err) else None
  end.

(** The second loop: every CA of the request is upserted. *)
Fixpoint upsert_loop (range : list CertAuthority)
  : ProgOf RemoteOp (option error) :=
  match range with
  | [] => RetOf None
  | certAuthority :: rest =>
      r <- callOf (UpsertCertAuthority certAuthority) ;;
      match r with
      | Err err => RetOf (Some (Wrap err))
      | Ok _ => upsert_loop rest
      end
  end.

(** The third loop: the local CAs of the types in [range] are appended to
    the response. *)
Fixpoint export_loop (domainName : string) (range : list CertAuthType)
    (validateResponse : ValidateTrustedClusterResponse)
  : ProgOf RemoteOp (Result ValidateTrustedClusterResponse) :=
  match range with
  | [] => RetOf (Ok validateResponse)
  | caType :: rest =>
      certAuthority <-? callOf (GetCertAuthority_SkipValidation
                                  {| Type_ := caType; DomainName := domainName |}
                                  false) ;;
      export_loop domainName rest
        {| resp_CAs := resp_CAs validateResponse ++ [certAuthority] |}
  end.

Definition validateTrustedCluster (validateRequest : ValidateTrustedClusterRequest)
  : ProgOf RemoteOp (Result ValidateTrustedClusterResponse) :=
  domainName <-? callOf (Auth GetDomainName) ;;
  check lift (validateTrustedClusterToken (req_Token validateRequest)) ;;
  match remote_cluster_name domainName (req_CAs validateRequest) "" with
  | Err err => RetOf (Err err)
  | Ok remoteClusterName =>
  match NewRemoteCluster remoteClusterName with
  | Err err => RetOf (Err (Wrap err))
  | Ok remoteCluster =>
  r <- callOf (CreateRemoteCluster remoteCluster) ;;
  match tolerate_already_exists r with
  | Some err => RetOf (Err err)
  | None =>
  err <- upsert_loop (req_CAs validateRequest) ;;
  match err with
  | Some err => RetOf (Err err)
  | None =>
  export_loop domainName [HostCA; UserCA] {| resp_CAs := [] |}
  end end end end.

End RemoteMethods.

(** A call of the part above, as a call of this side. *)
Definition lift_call (c : Call) : CallOf RemoteOp := mkCallOf (Auth (projT2 c)).

(** The CAs a trace reads for the response: the id asked for and whether
    the secrets were asked for. *)
Definition exported_CA (c : CallOf RemoteOp) : list (CertAuthID * bool) :=
  match projT2 c with
  | GetCertAuthority_SkipValidation id loadSecrets => [(id, loadSecrets)]
  | _ => []
  end.

Definition CA_exports (tr : list (CallOf RemoteOp)) : list (CertAuthID * bool) :=
  flat_map exported_CA tr.

(** The remote-cluster records a trace deletes, in order. *)
Definition deleted_cluster (c : CallOf RemoteOp) : list string :=
  match projT2 c with
  | Presence_DeleteRemoteCluster name => [name]
  | _ => []
  end.

Definition cluster_deletions (tr : list (CallOf RemoteOp)) : list string :=
  flat_map deleted_cluster tr.

(** No CA of the list is named [domainName]. *)
Definition none_named (domainName : string) (cas : list CertAuthority) : bool :=
  forallb (fun ca => negb (String.eqb (CA_GetName ca) domainName)) cas.

(** The validator knows the token and it carries one of the two cluster
    roles. *)
Definition token_accepted {E : Externals} (r : Result Roles) : bool :=
  match r with
  | Ok roles =>
      Include roles RoleTrustedCluster || Include roles LegacyClusterTokenType
  | Err _ => false
  end.

(** A deletion that succeeded or found nothing to delete. *)
Definition gone (r : Result unit) : bool :=
  match r with
  | Ok _ => true
  | Err err => IsNotFound err
  end.

Definition succeeded {A : Type} (r : Result A) : bool :=
  match r with
  | Ok _ => true
  | Err _ => false
  end.

(** The calls of the second and of the third loop of
    [validateTrustedCluster]. *)
Definition upsert_call (ca : CertAuthority) : CallOf RemoteOp :=
  mkCallOf (UpsertCertAuthority ca).

Definition export_call (domainName : string) (caType : CertAuthType)
  : CallOf RemoteOp :=
  mkCallOf (GetCertAuthority_SkipValidation
              {| Type_ := caType; DomainName := domainName |} false).

(** ** A concrete root cluster for the remote-cluster side *)

Module RemoteCases.

Import InMemory Scenario.

#[local] Existing Instance externals.

(** Modelled from the spec: the stores of the remote-cluster side are
    declared outside this file.  The state adds to the backend above the
    RemoteCluster records of spec 3, the keep-alive configuration of
    spec 6 and the tunnel connections that spec 4.7 reads. *)
Record World : Type := {
  auth : Backend;
  remote_clusters : list RemoteCluster;
  cluster_config : ClusterConfig;
  tunnel_connections : list TunnelConnection
}.

Definition with_auth (w : World) (b : Backend) : World :=
  {| auth := b; remote_clusters := remote_clusters w;
     cluster_config := cluster_config w;
     tunnel_connections := tunnel_connections w |}.

Definition with_remote_clusters (w : World) (rcs : list RemoteCluster) : World :=
  {| auth := auth w; remote_clusters := rcs;
     cluster_config := cluster_config w;
     tunnel_connections := tunnel_connections w |}.

Definition cluster_named (name : string) (rc : RemoteCluster) : bool :=
  String.eqb (rc_name rc) name.

(** Modelled from the spec: what each call of the remote-cluster side
    answers and stores.  A read of a missing remote cluster fails with
    not-found, and so does its deletion; a creation fails with
    already-exists on a collision (spec 4.3, step 3); a CA upsert replaces
    the CA of the same id or adds it (spec 4.3, step 4); the read of a CA
    for the response finds it by id. *)
Definition handle : HandlerOf RemoteOp World :=
  fun Y op =>
    match op in RemoteOp Y0 return World -> Result Y0 * World with
    | Auth op => fun w =>
        let '(r, b) := InMemory.handle _ op (auth w) in (r, with_auth w b)
    | Presence_GetRemoteCluster name => fun w =>
        match find (cluster_named name) (remote_clusters w) with
        | Some rc => (Ok rc, w)
        | None => (Err (not_found "remote cluster not found"), w)
        end
    | Presence_GetRemoteClusters => fun w => (Ok (remote_clusters w), w)
    | Presence_DeleteRemoteCluster name => fun w =>
        if existsb (cluster_named name) (remote_clusters w) then
          (Ok tt, with_remote_clusters w
                    (remove_if (cluster_named name) (remote_clusters w)))
        else (Err (not_found "remote cluster not found"), w)
    | CreateRemoteCluster rc => fun w =>
        if existsb (cluster_named (rc_name rc)) (remote_clusters w) then
          (Err (AlreadyExists "remote cluster already exists"), w)
        else (Ok tt, with_remote_clusters w (remote_clusters w ++ [rc]))
    | UpsertCertAuthority ca => fun w =>
        (Ok tt, with_auth w
                  (with_cert_authorities (auth w)
                     (upsert (has_id (GetID ca)) (ca, true)
                        (cert_authorities (auth w)))))
    | GetCertAuthority_SkipValidation id _ => fun w =>
        match find (has_id id) (cert_authorities (auth w)) with
        | Some e => (Ok (fst e), w)
        | None => (Err (not_found "certificate authority not found"), w)
        end
    | GetClusterConfig => fun w => (Ok (cluster_config w), w)
    | GetTunnelConnections name => fun w =>
        (Ok (filter (fun c => String.eqb (conn_cluster_name c) name)
               (tunnel_connections w)), w)
    end.

(** The connection with the latest heartbeat, the first one on a tie. *)
Fixpoint latest (conn : TunnelConnection) (rest : list TunnelConnection)
  : TunnelConnection :=
  match rest with
  | [] => conn
  | c :: rest =>
      if (conn_last_heartbeat conn <? conn_last_heartbeat c)%Z
      then latest c rest else latest conn rest
  end.

(** Modelled from the spec: [services.NewRemoteCluster],
    [services.LatestTunnelConnection] and [services.TunnelConnectionStatus]
    are declared outside this file.  A remote cluster needs a name; the
    latest connection of none is not found; spec 4.7: a connection whose
    last heartbeat is older than the threshold is offline. *)
#[local] Instance remote_externals : RemoteExternals :=
  {| RemoteClusterStatusOffline := "offline";
     NewRemoteCluster := fun name =>
       if String.eqb name "" then Err (BadParameter "missing parameter Name")
       else Ok {| rc_name := name; rc_connection_status := "";
                  rc_last_heartbeat := 0%Z |};
     LatestTunnelConnection := fun conns =>
       match conns with
       | [] => Err (not_found "no connections found")
       | c :: rest => Ok (latest c rest)
       end;
     TunnelConnectionStatus := fun now conn threshold =>
       if (Sub now (conn_last_heartbeat conn) <? threshold)%Z
       then "online" else "offline" |}.

(** The root with its two tokens, no remote cluster yet, and the leaf's
    tunnel connections from two proxies. *)
Definition root_world : World :=
  {| auth := token_backend;
     remote_clusters := [];
     cluster_config := {| KeepAliveCountMax := 3%Z; KeepAliveInterval := 5%Z |};
     tunnel_connections :=
       [{| conn_cluster_name := "leaf-east"; conn_proxy_name := "p1";
           conn_last_heartbeat := 90%Z |};
        {| conn_cluster_name := "leaf-east"; conn_proxy_name := "p2";
           conn_last_heartbeat := 96%Z |}] |}.

(** The request of the leaf, and one that smuggles a CA named as the root
    after the leaf's own. *)
Definition leaf_request : ValidateTrustedClusterRequest :=
  {| req_Token := "cluster-token"; req_CAs := [leaf_host] |}.

Definition smuggling_request : ValidateTrustedClusterRequest :=
  {| req_Token := "cluster-token"; req_CAs := [leaf_host; root_host] |}.

(** The root after it accepted the leaf's request; the record it stored
    carries a status that was never computed. *)
Definition joined_world : World :=
  finalOf handle (validateTrustedCluster leaf_request) root_world.

(** The leaf as a read at time 100 returns it. *)
Definition leaf_online : RemoteCluster :=
  {| rc_name := "leaf-east"; rc_connection_status := "online";
     rc_last_heartbeat := 96%Z |}.

End RemoteCases.

(** ** Client credentials (package [client])

    [Credentials] and its three implementations, and [configure]. *)

Module client.

(** Types of [crypto/tls], [crypto/x509], [ssh] and of this package that
    the file hands on without looking inside; [tls_Config_other] stands
    for the fields of [tls.Config] the file does not name, and
    [tls_Config_other_zero] for their zero values. *)
Class Foreign : Type := {
  tls_Certificate : Type;
  tls_CertificateRequestInfo : Type;
  x509_CertPool : Type;
  ssh_ClientConfig : Type;
  ContextDialer : Type;
  IdentityFile : Type;
  tls_Config_other : Type;
  tls_Config_other_zero : tls_Config_other
}.

(** [tls.Config], as far as the file reads and writes it.  A [nil] slice
    is the empty list, a [nil] function or pool is [None]. *)
Record tls_Config {F : Foreign} : Type := {
  Certificates : list tls_Certificate;
  GetClientCertificate :
    option (tls_CertificateRequestInfo -> Result tls_Certificate);
  RootCAs : option x509_CertPool;
  NextProtos : list string;
  ServerName : string;
  other : tls_Config_other
}.

(** [c.Clone()]: a copy with the same fields. *)
Definition Clone {F : Foreign} (c : tls_Config) : tls_Config := c.

Definition set_NextProtos {F : Foreign} (c : tls_Config) (v : list string)
  : tls_Config :=
  {| Certificates := Certificates c;
     GetClientCertificate := GetClientCertificate c;
     RootCAs := RootCAs c; NextProtos := v; ServerName := ServerName c;
     other := other c |}.

Definition set_ServerName {F : Foreign} (c : tls_Config) (v : string)
  : tls_Config :=
  {| Certificates := Certificates c;
     GetClientCertificate := GetClientCertificate c;
     RootCAs := RootCAs c; NextProtos := NextProtos c; ServerName := v;
     other := other c |}.

Definition set_Certificates {F : Foreign} (c : tls_Config)
    (v : list tls_Certificate) : tls_Config :=
  {| Certificates := v;
     GetClientCertificate := GetClientCertificate c;
     RootCAs := RootCAs c; NextProtos := NextProtos c;
     ServerName := ServerName c; other := other c |}.

Definition set_GetClientCertificate {F : Foreign} (c : tls_Config)
    (v : option (tls_CertificateRequestInfo -> Result tls_Certificate))
  : tls_Config :=
  {| Certificates := Certificates c;
     GetClientCertificate := v;
     RootCAs := RootCAs c; NextProtos := NextProtos c;
     ServerName := ServerName c; other := other c |}.

(** Constants and pure helpers of other packages: [http2.NextProtoTLS],
    [constants.APIDomain], [x509.NewCertPool], [pool.AppendCertsFromPEM]
    (the pool as it leaves it, and [ok]), [trace.ConvertSystemError], the
    two methods of an identity file (each may hand back a [nil] pointer),
    and the formatting of a message with an error argument. *)
Class ClientExternals {F : Foreign} : Type := {
  NextProtoTLS : string;
  APIDomain : string;
  NewCertPool : x509_CertPool;
  AppendCertsFromPEM : x509_CertPool -> bytes -> x509_CertPool * bool;
  ConvertSystemError : error -> error;
  IdentityFile_TLSConfig : IdentityFile -> Result (option tls_Config);
  IdentityFile_SSHClientConfig : IdentityFile -> Result (option ssh_ClientConfig);
  Errorf : string -> error -> string
}.

(** [trace.NotImplemented]: a kind none of the code above tests. *)
Definition NotImplemented (msg : string) : error := Error_ KOther msg.

(** What the file reads from disk. *)
Inductive ClientOp {F : Foreign} : Type -> Type :=
| tls_LoadX509KeyPair (certFile keyFile : string) : ClientOp tls_Certificate
| ioutil_ReadFile (filename : string) : ClientOp bytes
| ReadIdentityFile (path : string) : ClientOp IdentityFile.

Section Methods.

Context {F : Foreign} {X : ClientExternals}.

Local Open Scope progof_scope.

(** [Credentials]: what authenticates a client to Auth. *)
Class Credentials (C : Type) : Type := {
  Dialer : C -> ProgOf ClientOp (Result ContextDialer);
  TLSConfig : C -> ProgOf ClientOp (Result tls_Config);
  SSHConfig : C -> ProgOf ClientOp (Result (option ssh_ClientConfig))
}.

(** *** [configure] (lines 155-176) *)

Definition configure (c : tls_Config) : tls_Config :=
  let tlsConfig := Clone c in
  let tlsConfig := set_NextProtos tlsConfig [NextProtoTLS] in
  let tlsConfig :=
    if String.eqb (ServerName tlsConfig) "" then set_ServerName tlsConfig APIDomain
    else tlsConfig in
  match Certificates tlsConfig with
  | cert :: _ =>
      let tlsConfig := set_Certificates tlsConfig [] in
      set_GetClientCertificate tlsConfig (Some (fun _ => Ok cert))
  | [] => tlsConfig
  end.

(** *** [TLSConfigCreds] (lines 42-65) *)

Record TLSConfigCreds : Type := { tlsConfig : option tls_Config }.

Definition LoadTLS (tlsConfig : option tls_Config) : TLSConfigCreds :=
  {| tlsConfig := tlsConfig |}.

Definition TLSConfigCreds_Dialer (c : TLSConfigCreds)
  : ProgOf ClientOp (Result ContextDialer) :=
  RetOf (Err (NotImplemented "no dialer")).

Definition TLSConfigCreds_TLSConfig (c : TLSConfigCreds)
  : ProgOf ClientOp (Result tls_Config) :=
  match tlsConfig c with
  | None => RetOf (Err (BadParameter "tls config is nil"))
  | Some cfg => RetOf (Ok (configure cfg))
  end.

Definition TLSConfigCreds_SSHConfig (c : TLSConfigCreds)
  : ProgOf ClientOp (Result (option ssh_ClientConfig)) :=
  RetOf (Ok None).

#[export] Instance TLSConfigCreds_Credentials : Credentials TLSConfigCreds :=
  {| Dialer := TLSConfigCreds_Dialer;
     TLSConfig := TLSConfigCreds_TLSConfig;
     SSHConfig := TLSConfigCreds_SSHConfig |}.

(** *** [KeyPairCreds] (lines 68-110) *)

Record KeyPairCreds : Type := {
  certFile : string;
  keyFile : string;
  caFile : string
}.

Definition LoadKeyPair (certFile keyFile caFile : string) : KeyPairCreds :=
  {| certFile := certFile; keyFile := keyFile; caFile := caFile |}.

Definition KeyPairCreds_Dialer (c : KeyPairCreds)
  : ProgOf ClientOp (Result ContextDialer) :=
  RetOf (Err (NotImplemented "no dialer")).

Definition KeyPairCreds_TLSConfig (c : KeyPairCreds)
  : ProgOf ClientOp (Result tls_Config) :=
  cert <-? callOf (tls_LoadX509KeyPair (certFile c) (keyFile c)) ;;
  r <- callOf (ioutil_ReadFile (caFile c)) ;;
  match r with
  | Err err => RetOf (Err (ConvertSystemError err))
  | Ok cas =>
      let pool := NewCertPool in
      let '(pool, ok) := AppendCertsFromPEM pool cas in
      if negb ok then RetOf (Err (BadParameter "invalid TLS CA cert PEM"))
      else
        RetOf (Ok (configure
          {| Certificates := [cert];
             GetClientCertificate := None;
             RootCAs := Some pool;
             NextProtos := [];
             ServerName := "";
             other := tls_Config_other_zero |}))
  end.

Definition KeyPairCreds_SSHConfig (c : KeyPairCreds)
  : ProgOf ClientOp (Result (option ssh_ClientConfig)) :=
  RetOf (Ok None).

#[export] Instance KeyPairCreds_Credentials : Credentials KeyPairCreds :=
  {| Dialer := KeyPairCreds_Dialer;
     TLSConfig := KeyPairCreds_TLSConfig;
     SSHConfig := KeyPairCreds_SSHConfig |}.

(** *** [IdentityCreds] (lines 113-153) *)

Record IdentityCreds : Type := { path : string }.

Definition LoadIdentityFile (path : string) : IdentityCreds :=
  {| path := path |}.

Definition IdentityCreds_Dialer (c : IdentityCreds)
  : ProgOf ClientOp (Result ContextDialer) :=
  RetOf (Err (NotImplemented "no dialer")).

Definition IdentityCreds_TLSConfig (c : IdentityCreds)
  : ProgOf ClientOp (Result tls_Config) :=
  r <- callOf (ReadIdentityFile (path c)) ;;
  match r with
  | Err err =>
      RetOf (Err (BadParameter
        (Errorf "identity file could not be decoded: %v" err)))
  | Ok identityFile =>
      match IdentityFile_TLSConfig identityFile with
      | Err err => RetOf (Err (Wrap err))
      | Ok None => PanicOf "invalid memory address or nil pointer dereference"
      | Ok (Some tlsConfig) => RetOf (Ok (configure tlsConfig))
      end
  end.

Definition IdentityCreds_SSHConfig (c : IdentityCreds)
  : ProgOf ClientOp (Result (option ssh_ClientConfig)) :=
  r <- callOf (ReadIdentityFile (path c)) ;;
  match r with
  | Err err =>
      RetOf (Err (BadParameter
        (Errorf "identity file could not be decoded: %v" err)))
  | Ok identityFile =>
      match IdentityFile_SSHClientConfig identityFile with
      | Err err => RetOf (Err (Wrap err))
      | Ok sshConfig => RetOf (Ok sshConfig)
      end
  end.

#[export] Instance IdentityCreds_Credentials : Credentials IdentityCreds :=
  {| Dialer := IdentityCreds_Dialer;
     TLSConfig := IdentityCreds_TLSConfig;
     SSHConfig := IdentityCreds_SSHConfig |}.

(** A configuration as [configure] leaves one: the only protocol offered
    is [NextProtoTLS], no static certificate is left, and configuring it
    again changes nothing. *)
Definition configured (c : tls_Config) : Prop :=
  NextProtos c = [NextProtoTLS]
  /\ Certificates c = []
  /\ configure c = c.

(** The certificate a configuration presents to a request. *)
Definition presents (c : tls_Config) (info : tls_CertificateRequestInfo)
  : option (Result tls_Certificate) :=
  match GetClientCertificate c with
  | Some f => Some (f info)
  | None => None
  end.

End Methods.

End client.

(** ** A concrete disk for the client credentials *)

Module ClientCases.

Import client.

(** A certificate is the name it was issued for, a pool the PEM blocks it
    holds, an identity file the certificate it carries. *)
#[local] Instance foreign : Foreign :=
  {| tls_Certificate := string;
     tls_CertificateRequestInfo := list string;
     x509_CertPool := list bytes;
     ssh_ClientConfig := string;
     ContextDialer := unit;
     IdentityFile := string;
     tls_Config_other := unit;
     tls_Config_other_zero := tt |}.

(** Modelled from the spec: the packages behind these helpers are declared
    outside this file (spec 1 names credential loading an external
    collaborator).  A PEM blob is accepted when it is not empty; an
    identity file yields a configuration with its certificate as the only
    static one. *)
#[local] Instance externals : ClientExternals :=
  {| NextProtoTLS := "h2";
     APIDomain := "teleport.cluster.local";
     NewCertPool := [];
     AppendCertsFromPEM := fun pool pem =>
       match pem with
       | [] => (pool, false)
       | _ => (pool ++ [pem], true)
       end;
     ConvertSystemError := fun err => err;
     IdentityFile_TLSConfig := fun identity =>
       Ok (Some {| Certificates := [identity];
                   GetClientCertificate := None;
                   RootCAs := None;
                   NextProtos := ["http/1.1"];
                   ServerName := "";
                   other := tt |});
     IdentityFile_SSHClientConfig := fun identity => Ok (Some identity);
     Errorf := fun format _ => format |}.

(** The files of a disk, by name. *)
Definition Disk : Type := list (string * string).

Definition read (disk : Disk) (name : string) : Result string :=
  match find (fun f => String.eqb (fst f) name) disk with
  | Some f => Ok (snd f)
  | None => Err (NotFound "no such file or directory")
  end.

(** Modelled from the spec: reading never changes the disk; a file that is
    missing is not found; a key pair is the content of the certificate
    file when both files are there. *)
Definition handle : HandlerOf ClientOp Disk :=
  fun Y op =>
    match op in ClientOp Y0 return Disk -> Result Y0 * Disk with
    | tls_LoadX509KeyPair certFile keyFile => fun disk =>
        match read disk certFile, read disk keyFile with
        | Ok cert, Ok _ => (Ok cert, disk)
        | Err e, _ | _, Err e => (Err e, disk)
        end
    | ioutil_ReadFile filename => fun disk =>
        match read disk filename with
        | Ok content => (Ok (list_byte_of_string content), disk)
        | Err e => (Err e, disk)
        end
    | ReadIdentityFile path => fun disk => (read disk path, disk)
    end.

Definition disk : Disk :=
  [("alice.crt", "alice"); ("alice.key", "secret"); ("ca.pem", "root-ca");
   ("alice.identity", "alice")].

(** What alice's key pair and the CA file give. *)
Definition alice_config : tls_Config :=
  {| Certificates := [];
     GetClientCertificate := Some (fun _ => Ok "alice");
     RootCAs := Some [list_byte_of_string "root-ca"];
     NextProtos := ["h2"];
     ServerName := "teleport.cluster.local";
     other := tt |}.

End ClientCases.

(** ** Web handlers for local users (package [web]) *)

Module web.

(** [requestUser]: what the web UI sends to create or update a user. *)
Record requestUser : Type := {
  req_Name : string;
  req_Roles : list string
}.

(** [ui.User] and [ui.ResetToken]. *)
Record ui_User : Type := {
  ui_Name : string;
  ui_Roles : list string;
  ui_Created : Time
}.

Record ui_ResetToken : Type := {
  reset_Name : string;
  reset_Value : string;
  reset_Expires : string
}.

Record responseCreateUser : Type := {
  rcu_User : ui_User;
  rcu_Token : ui_ResetToken
}.

Record responseGetUsers : Type := { rgu_Users : list ui_User }.

Record responseUpdateUser : Type := { ruu_User : ui_User }.

(** [services.CreatedBy], as far as the file fills and reads it. *)
Record CreatedBy : Type := {
  cb_User : string;
  cb_Time : Time
}.

(** [auth.CreateResetPasswordTokenRequest], as far as the file fills it. *)
Record CreateResetPasswordTokenRequest : Type := {
  crt_Name : string;
  crt_Type : string
}.

(** Types and helpers of other packages: a user of package [services]
    with the getters and setters the file calls, [services.NewUser], a
    reset-password token with its three getters, the invite token type,
    the handler's [ok()], the rounding to seconds and printing of a
    duration, and the formatting of the two messages. *)
Class WebExternals : Type := {
  User : Type;
  GetName : User -> string;
  GetRoles : User -> list string;
  GetCreatedBy : User -> CreatedBy;
  SetRoles : User -> list string -> User;
  SetCreatedBy : User -> CreatedBy -> User;
  NewUser : string -> Result User;
  ResetPasswordToken : Type;
  token_GetUser : ResetPasswordToken -> string;
  token_Metadata_Name : ResetPasswordToken -> string;
  token_Expiry : ResetPasswordToken -> Time;
  ResetPasswordTokenTypeInvite : string;
  Message : Type;
  ok : Message;
  Round_Second_String : Duration -> string;
  Sprintf_q : string -> string -> string;
  Wrap_message : error -> string -> string -> error
}.

(** The calls on the auth client of the session, [ctx.clt]. *)
Inductive WebOp {W : WebExternals} : Type -> Type :=
| GetUser (name : string) (withSecrets : bool) : WebOp User
| GetUsers (withSecrets : bool) : WebOp (list User)
| CreateUser (user : User) : WebOp unit
| UpdateUser (user : User) : WebOp unit
| DeleteUser (username : string) : WebOp unit
| CreateResetPasswordToken (req : CreateResetPasswordTokenRequest)
    : WebOp ResetPasswordToken.

(** Calls that write. *)
Definition web_write {W : WebExternals} {Y : Type} (op : WebOp Y) : bool :=
  match op with
  | GetUser _ _ | GetUsers _ => false
  | _ => true
  end.

(** The users a trace creates, updates and deletes, and the tokens it
    asks for, each in order. *)
Definition user_creations {W : WebExternals} (tr : list (CallOf WebOp))
  : list User :=
  flat_map (fun c => match projT2 c with CreateUser u => [u] | _ => [] end) tr.

Definition user_updates {W : WebExternals} (tr : list (CallOf WebOp))
  : list User :=
  flat_map (fun c => match projT2 c with UpdateUser u => [u] | _ => [] end) tr.

Definition user_deletions {W : WebExternals} (tr : list (CallOf WebOp))
  : list string :=
  flat_map (fun c => match projT2 c with DeleteUser n => [n] | _ => [] end) tr.

Definition token_requests {W : WebExternals} (tr : list (CallOf WebOp))
  : list CreateResetPasswordTokenRequest :=
  flat_map (fun c => match projT2 c with
                     | CreateResetPasswordToken r => [r]
                     | _ => []
                     end) tr.

Section Handlers.

Context {W : WebExternals}.

Local Open Scope progof_scope.

(** *** [checkAndSetDefaults] (lines 226-234) *)

Definition checkAndSetDefaults (r : requestUser) : option error :=
  if String.eqb (req_Name r) "" then Some (BadParameter "missing user name")
  else if (length (req_Roles r) =? 0)%nat then Some (BadParameter "missing roles")
  else None.

(** [ui.User{Name: u.GetName(), Roles: u.GetRoles(), Created:
    u.GetCreatedBy().Time}]. *)
Definition to_ui (u : User) : ui_User :=
  {| ui_Name := GetName u; ui_Roles := GetRoles u;
     ui_Created := cb_Time (GetCreatedBy u) |}.

(** *** [createUser] (lines 73-129)

    [body] is what [httplib.ReadJSON] leaves in [req], a [nil] pointer
    included, or its error; [user] is [ctx.user]; [t1] and [t2] are the two
    readings of [h.clock]. *)
Definition createUser (body : Result (option requestUser)) (user : string)
    (t1 t2 : Time) : ProgOf WebOp (Result responseCreateUser) :=
  match body with
  | Err err => RetOf (Err (Wrap err))
  | Ok None => PanicOf "invalid memory address or nil pointer dereference"
  | Ok (Some req) =>
  match checkAndSetDefaults req with
  | Some err => RetOf (Err (Wrap err))
  | None =>
  r <- callOf (GetUser (req_Name req) false) ;;
  match (match r with
         | Ok _ =>
             Some (BadParameter
                     (Sprintf_q "user %q already registered" (req_Name req)))
         | Err err =>
             if negb (IsNotFound err)
             then Some (Wrap_message err
                          "failed to check whether user %q exists: %v"
                          (req_Name req))
             else None
         end) with
  | Some err => RetOf (Err err)
  | None =>
  match NewUser (req_Name req) with
  | Err err => RetOf (Err (Wrap err))
  | Ok newUser =>
  let newUser := SetRoles newUser (req_Roles req) in
  let newUser := SetCreatedBy newUser {| cb_User := user; cb_Time := t1 |} in
  check callOf (CreateUser newUser) ;;
  token <-? callOf (CreateResetPasswordToken
                      {| crt_Name := req_Name req;
                         crt_Type := ResetPasswordTokenTypeInvite |}) ;;
  RetOf (Ok {| rcu_User := to_ui newUser;
               rcu_Token :=
                 {| reset_Name := token_GetUser token;
                    reset_Value := token_Metadata_Name token;
                    reset_Expires :=
                      Round_Second_String (Sub (token_Expiry token) t2) |} |})
  end end end end.

(** *** [getUsers] (lines 139-157) *)

Fixpoint getUsers_loop (range : list User) (users : list ui_User)
  : list ui_User :=
  match range with
  | [] => users
  | u :: rest => getUsers_loop rest (users ++ [to_ui u])
  end.

Definition getUsers : ProgOf WebOp (Result responseGetUsers) :=
  localUsers <-? callOf (GetUsers false) ;;
  RetOf (Ok {| rgu_Users := getUsers_loop localUsers [] |}).

(** *** [updateUser] (lines 173-202) *)

Definition updateUser (body : Result (option requestUser))
  : ProgOf WebOp (Result responseUpdateUser) :=
  match body with
  | Err err => RetOf (Err (Wrap err))
  | Ok None => PanicOf "invalid memory address or nil pointer dereference"
  | Ok (Some req) =>
  match checkAndSetDefaults req with
  | Some err => RetOf (Err (Wrap err))
  | None =>
  user <-? callOf (GetUser (req_Name req) false) ;;
  let user := SetRoles user (req_Roles req) in
  check callOf (UpdateUser user) ;;
  RetOf (Ok {| ruu_User := to_ui user |})
  end end.

(** *** [deleteUser] (lines 212-223)

    [username] is [p.ByName("username")]. *)
Definition deleteUser (username : string) : ProgOf WebOp (Result Message) :=
  if String.eqb username "" then RetOf (Err (BadParameter "missing user name"))
  else
    check callOf (DeleteUser username) ;;
    RetOf (Ok ok).

End Handlers.

End web.

(** ** A concrete auth client for the web handlers *)

Module WebCases.

Import web.

Record LocalUser : Type := {
  lu_name : string;
  lu_roles : list string;
  lu_created_by : CreatedBy
}.

Record Token : Type := {
  tk_user : string;
  tk_name : string;
  tk_expiry : Time
}.

(** Modelled from the spec: packages [services], [auth] and [time] are
    declared outside this file (spec 1 names the web UI an external
    collaborator).  A user holds what its setters store; a new user needs
    a name and has no roles; a duration is printed as its seconds. *)
#[local] Instance externals : WebExternals :=
  {| User := LocalUser;
     GetName := lu_name;
     GetRoles := lu_roles;
     GetCreatedBy := lu_created_by;
     SetRoles := fun u roles =>
       {| lu_name := lu_name u; lu_roles := roles;
          lu_created_by := lu_created_by u |};
     SetCreatedBy := fun u by_ =>
       {| lu_name := lu_name u; lu_roles := lu_roles u;
          lu_created_by := by_ |};
     NewUser := fun name =>
       if String.eqb name "" then Err (BadParameter "missing user name")
       else Ok {| lu_name := name; lu_roles := [];
                  lu_created_by := {| cb_User := ""; cb_Time := 0%Z |} |};
     ResetPasswordToken := Token;
     token_GetUser := tk_user;
     token_Metadata_Name := tk_name;
     token_Expiry := tk_expiry;
     ResetPasswordTokenTypeInvite := "invite";
     Message := string;
     ok := "ok";
     Round_Second_String := fun d =>
       if (d =? 3600)%Z then "1h0m0s" else "some time";
     Sprintf_q := fun format _ => format;
     Wrap_message := fun err _ _ => err |}.

Definition user_named (name : string) (u : LocalUser) : bool :=
  String.eqb (lu_name u) name.

(** Modelled from the spec: the auth server behind the session's client
    is declared outside this file.  The state is the list of local users;
    a read or a deletion of a missing user is not found, a creation of an
    existing one already exists, an update of a missing one is not found;
    a token is issued for an hour from time 100. *)
Definition handle : HandlerOf WebOp (list LocalUser) :=
  fun Y op =>
    match op in WebOp Y0 return list LocalUser -> Result Y0 * list LocalUser with
    | GetUser name _ => fun users =>
        match find (user_named name) users with
        | Some u => (Ok u, users)
        | None => (Err (NotFound "user not found"), users)
        end
    | GetUsers _ => fun users => (Ok users, users)
    | CreateUser u => fun users =>
        if existsb (user_named (lu_name u)) users
        then (Err (AlreadyExists "user already exists"), users)
        else (Ok tt, users ++ [u])
    | UpdateUser u => fun users =>
        if existsb (user_named (lu_name u)) users
        then (Ok tt, map (fun v => if user_named (lu_name u) v then u else v) users)
        else (Err (NotFound "user not found"), users)
    | DeleteUser name => fun users =>
        if existsb (user_named name) users
        then (Ok tt, filter (fun v => negb (user_named name v)) users)
        else (Err (NotFound "user not found"), users)
    | CreateResetPasswordToken req => fun users =>
        (Ok {| tk_user := crt_Name req; tk_name := "t-1";
               tk_expiry := 3700%Z |}, users)
    end.

Definition alice : LocalUser :=
  {| lu_name := "alice"; lu_roles := ["admin"];
     lu_created_by := {| cb_User := "root"; cb_Time := 10%Z |} |}.

Definition users : list LocalUser := [alice].

(** A request without roles. *)
Definition no_roles : requestUser := {| req_Name := "bob"; req_Roles := [] |}.

End WebCases.

(** * Properties *)

(** ** Running programs *)

Section Exec.

Context {St : Type} (h : Handler St).

Lemma exec_bind {A B : Type} (p : Prog A) (f : A -> Prog B) (s : St) :
  exec h (bind p f) s =
  match exec h p s with
  | (Done a, s1, tr1) =>
      let '(o, s2, tr2) := exec h (f a) s1 in (o, s2, tr1 ++ tr2)
  | (Panicked msg, s1, tr1) => (Panicked msg, s1, tr1)
  end.
Proof.
  revert s. induction p as [a | msg | Y op k IH]; intros s; simpl.
  - destruct (exec h (f a) s) as [[o s2] tr2]. reflexivity.
  - reflexivity.
  - destruct (h _ op s) as [r s1]. rewrite IH.
    destruct (exec h (k r) s1) as [[[a | msg] s2] tr1]; [|reflexivity].
    destruct (exec h (f a) s2) as [[o s3] tr2]. reflexivity.
Qed.

(** Outcome, final state and calls of a return, of a call and of a
    sequence. *)
Lemma outcome_Ret {A : Type} (a : A) (s : St) : outcome h (Ret a) s = Done a.
Proof. reflexivity. Qed.

Lemma final_Ret {A : Type} (a : A) (s : St) : final h (Ret a) s = s.
Proof. reflexivity. Qed.

Lemma calls_Ret {A : Type} (a : A) (s : St) : calls h (Ret a) s = [].
Proof. reflexivity. Qed.

Lemma outcome_Vis {Y A : Type} (op : Op Y) (k : Result Y -> Prog A) (s : St) :
  outcome h (Vis op k) s = outcome h (k (answer h op s)) (after h op s).
Proof.
  unfold outcome, answer, after. simpl. destruct (h _ op s) as [r s1]. simpl.
  destruct (exec h (k r) s1) as [[o s2] tr]. reflexivity.
Qed.

Lemma final_Vis {Y A : Type} (op : Op Y) (k : Result Y -> Prog A) (s : St) :
  final h (Vis op k) s = final h (k (answer h op s)) (after h op s).
Proof.
  unfold final, answer, after. simpl. destruct (h _ op s) as [r s1]. simpl.
  destruct (exec h (k r) s1) as [[o s2] tr]. reflexivity.
Qed.

Lemma calls_Vis {Y A : Type} (op : Op Y) (k : Result Y -> Prog A) (s : St) :
  calls h (Vis op k) s = mkCall op :: calls h (k (answer h op s)) (after h op s).
Proof.
  unfold calls, answer, after. simpl. destruct (h _ op s) as [r s1]. simpl.
  destruct (exec h (k r) s1) as [[o s2] tr]. reflexivity.
Qed.

Lemma outcome_bind {A B : Type} (p : Prog A) (f : A -> Prog B) (s : St) :
  outcome h (bind p f) s =
  match outcome h p s with
  | Done a => outcome h (f a) (final h p s)
  | Panicked msg => Panicked msg
  end.
Proof.
  unfold outcome, final. rewrite exec_bind.
  destruct (exec h p s) as [[[a | msg] s1] tr1]; simpl; [| reflexivity].
  destruct (exec h (f a) s1) as [[o s2] tr2]. reflexivity.
Qed.

Lemma final_bind {A B : Type} (p : Prog A) (f : A -> Prog B) (s : St) :
  final h (bind p f) s =
  match outcome h p s with
  | Done a => final h (f a) (final h p s)
  | Panicked _ => final h p s
  end.
Proof.
  unfold outcome, final. rewrite exec_bind.
  destruct (exec h p s) as [[[a | msg] s1] tr1]; simpl; [| reflexivity].
  destruct (exec h (f a) s1) as [[o s2] tr2]. reflexivity.
Qed.

Lemma calls_bind {A B : Type} (p : Prog A) (f : A -> Prog B) (s : St) :
  calls h (bind p f) s =
  match outcome h p s with
  | Done a => calls h p s ++ calls h (f a) (final h p s)
  | Panicked _ => calls h p s
  end.
Proof.
  unfold outcome, final, calls. rewrite exec_bind.
  destruct (exec h p s) as [[[a | msg] s1] tr1]; simpl; [| reflexivity].
  destruct (exec h (f a) s1) as [[o s2] tr2]. reflexivity.
Qed.

End Exec.

Create Rewrite HintDb exec.
#[local] Hint Rewrite @outcome_Ret @final_Ret @calls_Ret
  @outcome_Vis @final_Vis @calls_Vis : exec.

(** Unfold one call of a method body. *)
Ltac step := cbn [bind call]; autorewrite with exec.

(** ** Deep equality is equality *)

Lemma list_eqb_eq {A : Type} (eqb : A -> A -> bool) :
  (forall x y, eqb x y = true -> x = y) ->
  forall l1 l2, list_eqb eqb l1 l2 = true -> l1 = l2.
Proof.
  intros Heq. induction l1 as [| x l1 IH]; destruct l2 as [| y l2]; simpl;
    try discriminate; auto.
  intros H. apply andb_true_iff in H as [Hx Hl].
  f_equal; auto.
Qed.

Lemma byte_eqb_eq (x y : Byte.byte) : Byte.eqb x y = true -> x = y.
Proof. apply Byte.byte_dec_bl. Qed.

Lemma CertAuthType_eqb_eq (a b : CertAuthType) :
  CertAuthType_eqb a b = true -> a = b.
Proof. destruct a, b; simpl; congruence. Qed.

Lemma RoleMapping_eqb_eq (a b : RoleMapping) : RoleMapping_eqb a b = true -> a = b.
Proof.
  destruct a as [r1 l1], b as [r2 l2]. unfold RoleMapping_eqb. simpl.
  intros H. apply andb_true_iff in H as [Hr Hl].
  apply String.eqb_eq in Hr.
  apply (list_eqb_eq String.eqb) in Hl; [| intros x y; apply String.eqb_eq].
  congruence.
Qed.

Lemma TLSKeyPair_eqb_eq (a b : TLSKeyPair) : TLSKeyPair_eqb a b = true -> a = b.
Proof.
  destruct a as [c1 k1], b as [c2 k2]. unfold TLSKeyPair_eqb. simpl.
  intros H. apply andb_true_iff in H as [Hc Hk].
  apply (list_eqb_eq Byte.eqb byte_eqb_eq) in Hc.
  apply (list_eqb_eq Byte.eqb byte_eqb_eq) in Hk.
  congruence.
Qed.

Lemma Equals_eq (a b : CertAuthority) : Equals a b = true -> a = b.
Proof.
  destruct a, b. unfold Equals. simpl. intros H.
  repeat (apply andb_true_iff in H as [H ?]).
  apply CertAuthType_eqb_eq in H.
  repeat match goal with
         | H : String.eqb _ _ = true |- _ => apply String.eqb_eq in H
         end.
  match goal with
  | H : list_eqb String.eqb _ _ = true |- _ =>
      apply (list_eqb_eq String.eqb) in H; [| intros x y; apply String.eqb_eq]
  end.
  match goal with
  | H : list_eqb RoleMapping_eqb _ _ = true |- _ =>
      apply (list_eqb_eq _ RoleMapping_eqb_eq) in H
  end.
  match goal with
  | H : list_eqb TLSKeyPair_eqb _ _ = true |- _ =>
      apply (list_eqb_eq _ TLSKeyPair_eqb_eq) in H
  end.
  congruence.
Qed.

(** ** The wire envelope *)

Section Envelope.

Context {M : CertAuthorityMarshaler}.

Lemma marshal_loop_inv (CAs : list CertAuthority) :
  forall cas out, marshal_loop CAs cas = Ok out ->
  exists ds, out = cas ++ ds
             /\ Forall2 (fun ca d => MarshalCertAuthority ca = Ok d) CAs ds.
Proof.
  induction CAs as [| ca CAs IH]; simpl; intros cas out H.
  - inversion H; subst. exists []. rewrite app_nil_r. split; constructor.
  - destruct (MarshalCertAuthority ca) as [d |] eqn:Hm; [| discriminate].
    apply IH in H as (ds & -> & HF).
    exists (d :: ds). rewrite <- app_assoc. split; [reflexivity |].
    constructor; assumption.
Qed.

Lemma marshal_loop_all (CAs : list CertAuthority) (ds : list bytes) :
  Forall2 (fun ca d => MarshalCertAuthority ca = Ok d) CAs ds ->
  forall cas, marshal_loop CAs cas = Ok (cas ++ ds).
Proof.
  induction 1 as [| ca d CAs ds Hm _ IH]; intros cas; simpl.
  - rewrite app_nil_r. reflexivity.
  - rewrite Hm, IH, <- app_assoc. reflexivity.
Qed.

Lemma unmarshal_loop_inv (raws : list bytes) :
  forall cas out, unmarshal_loop raws cas = Ok out ->
  exists CAs, out = cas ++ CAs
              /\ Forall2 (fun ca d => UnmarshalCertAuthority d = Ok ca) CAs raws.
Proof.
  induction raws as [| d raws IH]; simpl; intros cas out H.
  - inversion H; subst. exists []. rewrite app_nil_r. split; constructor.
  - destruct (UnmarshalCertAuthority d) as [ca |] eqn:Hu; [| discriminate].
    apply IH in H as (CAs & -> & HF).
    exists (ca :: CAs). rewrite <- app_assoc. split; [reflexivity |].
    constructor; assumption.
Qed.

Lemma unmarshal_loop_all (CAs : list CertAuthority) (ds : list bytes) :
  Forall2 (fun ca d => UnmarshalCertAuthority d = Ok ca) CAs ds ->
  forall cas, unmarshal_loop ds cas = Ok (cas ++ CAs).
Proof.
  induction 1 as [| ca d CAs ds Hu _ IH]; intros cas; simpl.
  - rewrite app_nil_r. reflexivity.
  - rewrite Hu, IH, <- app_assoc. reflexivity.
Qed.

Lemma Forall2_impl2 {A B : Type} (P Q : A -> B -> Prop) (l : list A) (l' : list B) :
  (forall a b, P a b -> Q a b) -> Forall2 P l l' -> Forall2 Q l l'.
Proof. intros HPQ. induction 1; constructor; auto. Qed.

(** C10.  When the CA marshaller's two directions undo each other, a
    request and a response survive the trip raw -> native -> raw: the raw
    form of a native envelope converts back to a native envelope whose raw
    form is the same (token and CA blobs), and so does any raw envelope
    that converts to native at all. *)
Theorem envelope_round_trip
  (unmarshal_marshal : forall ca d,
      MarshalCertAuthority ca = Ok d -> UnmarshalCertAuthority d = Ok ca)
  (marshal_unmarshal : forall d ca,
      UnmarshalCertAuthority d = Ok ca -> MarshalCertAuthority ca = Ok d) :
  (forall v raw, Request_ToRaw v = Ok raw ->
     exists n, RequestRaw_ToNative raw = Ok n /\ Request_ToRaw n = Ok raw)
  /\ (forall v raw, Response_ToRaw v = Ok raw ->
     exists n, ResponseRaw_ToNative raw = Ok n /\ Response_ToRaw n = Ok raw)
  /\ (forall raw n, RequestRaw_ToNative raw = Ok n -> Request_ToRaw n = Ok raw)
  /\ (forall raw n, ResponseRaw_ToNative raw = Ok n -> Response_ToRaw n = Ok raw).
Proof.
  assert (to_native : forall CAs ds,
             marshal_loop CAs [] = Ok ds -> unmarshal_loop ds [] = Ok CAs).
  { intros CAs ds H. apply marshal_loop_inv in H as (ds' & -> & HF).
    simpl. apply (unmarshal_loop_all CAs ds').
    eapply Forall2_impl2; [| exact HF]. auto. }
  assert (to_raw : forall ds CAs,
             unmarshal_loop ds [] = Ok CAs -> marshal_loop CAs [] = Ok ds).
  { intros ds CAs H. apply unmarshal_loop_inv in H as (CAs' & -> & HF).
    simpl. apply (marshal_loop_all CAs' ds).
    clear - HF marshal_unmarshal. induction HF; constructor; auto. }
  repeat split.
  - intros [token CAs] raw. unfold Request_ToRaw, RequestRaw_ToNative. simpl.
    destruct (marshal_loop CAs []) as [ds |] eqn:Hm; [| discriminate].
    intros H. inversion H; subst; clear H. simpl.
    rewrite (to_native _ _ Hm). eexists. split; [reflexivity |].
    simpl. rewrite Hm. reflexivity.
  - intros [CAs] raw. unfold Response_ToRaw, ResponseRaw_ToNative. simpl.
    destruct (marshal_loop CAs []) as [ds |] eqn:Hm; [| discriminate].
    intros H. inversion H; subst; clear H. simpl.
    rewrite (to_native _ _ Hm). eexists. split; [reflexivity |].
    simpl. rewrite Hm. reflexivity.
  - intros [token ds] n. unfold Request_ToRaw, RequestRaw_ToNative. simpl.
    destruct (unmarshal_loop ds []) as [CAs |] eqn:Hu; [| discriminate].
    intros H. inversion H; subst; clear H. simpl.
    rewrite (to_raw _ _ Hu). reflexivity.
  - intros [ds] n. unfold Response_ToRaw, ResponseRaw_ToNative. simpl.
    destruct (unmarshal_loop ds []) as [CAs |] eqn:Hu; [| discriminate].
    intros H. inversion H; subst; clear H. simpl.
    rewrite (to_raw _ _ Hu). reflexivity.
Qed.

End Envelope.

(** The table marshaller of the scenarios undoes itself in both directions. *)
Lemma table_unmarshal_marshal (ca : CertAuthority) (d : bytes) :
  @MarshalCertAuthority Scenario.marshaler ca = Ok d ->
  @UnmarshalCertAuthority Scenario.marshaler d = Ok ca.
Proof.
  unfold Scenario.marshaler, Scenario.table_marshaler, Scenario.table.
  cbn [MarshalCertAuthority UnmarshalCertAuthority find fst snd].
  destruct (Equals ca Scenario.root_host) eqn:E1.
  { apply Equals_eq in E1. subst. intros H. inversion H. reflexivity. }
  destruct (Equals ca Scenario.leaf_host) eqn:E2.
  { apply Equals_eq in E2. subst. intros H. inversion H. reflexivity. }
  destruct (Equals ca Scenario.leaf_user) eqn:E3.
  { apply Equals_eq in E3. subst. intros H. inversion H. reflexivity. }
  discriminate.
Qed.

Lemma table_marshal_unmarshal (d : bytes) (ca : CertAuthority) :
  @UnmarshalCertAuthority Scenario.marshaler d = Ok ca ->
  @MarshalCertAuthority Scenario.marshaler ca = Ok d.
Proof.
  unfold Scenario.marshaler, Scenario.table_marshaler, Scenario.table.
  cbn [MarshalCertAuthority UnmarshalCertAuthority find fst snd].
  destruct (list_eqb Byte.eqb d [x01]) eqn:E1.
  { apply (list_eqb_eq _ byte_eqb_eq) in E1. subst. intros H. inversion H.
    reflexivity. }
  destruct (list_eqb Byte.eqb d [x02]) eqn:E2.
  { apply (list_eqb_eq _ byte_eqb_eq) in E2. subst. intros H. inversion H.
    reflexivity. }
  destruct (list_eqb Byte.eqb d [x03]) eqn:E3.
  { apply (list_eqb_eq _ byte_eqb_eq) in E3. subst. intros H. inversion H.
    reflexivity. }
  discriminate.
Qed.

(** The request that carries the root's host CA makes the round trip. *)
Lemma envelope_round_trip_witness :
  exists n,
    @RequestRaw_ToNative Scenario.marshaler
      {| rawreq_Token := "tok"; rawreq_CAs := [[x01]] |} = Ok n
    /\ @Request_ToRaw Scenario.marshaler n
       = Ok {| rawreq_Token := "tok"; rawreq_CAs := [[x01]] |}.
Proof.
  exact (proj1 (@envelope_round_trip Scenario.marshaler
                  table_unmarshal_marshal table_marshal_unmarshal)
           {| req_Token := "tok"; req_CAs := [Scenario.root_host] |}
           {| rawreq_Token := "tok"; rawreq_CAs := [[x01]] |}
           eq_refl).
Defined.

(** ** Token validation on the responder *)

Section TokenValidation.

Context {E : Externals} {St : Type} (h : Handler St).

(** C5, as the code has it.  Token validation makes one call, to the token
    validator.  It fails with access-denied when the validator rejects the
    token, and when the token's roles hold neither the trusted-cluster
    role nor the legacy one; it succeeds otherwise.  The two failures
    carry different messages: "the remote server denied access: invalid
    cluster token" for the first and "role does not match" for the
    second. *)
Theorem validateTrustedClusterToken_denies (s : St) (token : string) :
  calls h (validateTrustedClusterToken token) s = [mkCall (ValidateToken token)]
  /\ (forall err, answer h (ValidateToken token) s = Err err ->
        outcome h (validateTrustedClusterToken token) s
        = Done (Err (AccessDenied
                  "the remote server denied access: invalid cluster token")))
  /\ (forall roles, answer h (ValidateToken token) s = Ok roles ->
        Include roles RoleTrustedCluster = false ->
        Include roles LegacyClusterTokenType = false ->
        outcome h (validateTrustedClusterToken token) s
        = Done (Err (AccessDenied "role does not match")))
  /\ (forall roles, answer h (ValidateToken token) s = Ok roles ->
        Include roles RoleTrustedCluster = true
        \/ Include roles LegacyClusterTokenType = true ->
        outcome h (validateTrustedClusterToken token) s = Done (Ok tt))
  /\ (forall e, outcome h (validateTrustedClusterToken token) s = Done (Err e) ->
        IsAccessDenied e = true).
Proof.
  unfold validateTrustedClusterToken. step.
  split.
  { destruct (answer h (ValidateToken token) s) as [roles | err]; [| reflexivity].
    destruct (negb _ && negb _); reflexivity. }
  split.
  { intros err ->. reflexivity. }
  split.
  { intros roles -> -> ->. reflexivity. }
  split.
  { intros roles -> [-> | ->]; simpl; [reflexivity |].
    rewrite andb_false_r. reflexivity. }
  intros e.
  destruct (answer h (ValidateToken token) s) as [roles | err].
  - destruct (negb _ && negb _); step; intros H; inversion H; reflexivity.
  - step. intros H; inversion H; reflexivity.
Qed.

End TokenValidation.

(** On the root of the scenarios an unknown token and a node token are both
    denied. *)
Lemma validateTrustedClusterToken_denies_witness :
  outcome InMemory.handle
    (@validateTrustedClusterToken Scenario.externals "nope")
    Scenario.token_backend
  = Done (Err (AccessDenied
                 "the remote server denied access: invalid cluster token"))
  /\ outcome InMemory.handle
       (@validateTrustedClusterToken Scenario.externals "node-token")
       Scenario.token_backend
     = Done (Err (AccessDenied "role does not match")).
Proof.
  split.
  - exact (proj1 (proj2 (@validateTrustedClusterToken_denies
                           Scenario.externals _ InMemory.handle
                           Scenario.token_backend "nope"))
             _ eq_refl).
  - exact (proj1 (proj2 (proj2 (@validateTrustedClusterToken_denies
                                  Scenario.externals _ InMemory.handle
                                  Scenario.token_backend "node-token")))
             ["node"] eq_refl eq_refl eq_refl).
Defined.

(** C5, as stated, fails: an unknown token and a token without the
    capability are denied with two different messages. *)
Lemma token_denials_differ :
  exists e1 e2,
    outcome InMemory.handle
      (@validateTrustedClusterToken Scenario.externals "nope")
      Scenario.token_backend = Done (Err e1)
    /\ outcome InMemory.handle
         (@validateTrustedClusterToken Scenario.externals "node-token")
         Scenario.token_backend = Done (Err e2)
    /\ Error e1 = "the remote server denied access: invalid cluster token"
    /\ Error e2 = "role does not match"
    /\ String.eqb (Error e1) (Error e2) = false.
Proof.
  exists (AccessDenied "the remote server denied access: invalid cluster token").
  exists (AccessDenied "role does not match").
  repeat split; reflexivity.
Qed.

(** ** The reconciler *)

Section Reconciler.

Context {M : CertAuthorityMarshaler} {E : Externals}.
Context {St : Type} (h : Handler St).

(** The look-up at the top of [UpsertTrustedCluster] finds a named
    descriptor that the store returns. *)
Lemma lookup_existing_found (s : St) (tc existing : TrustedCluster) :
  GetName tc <> "" ->
  answer h (Presence_GetTrustedCluster (GetName tc)) s = Ok existing ->
  outcome h (lookup_existing tc) s = Done (Some existing)
  /\ final h (lookup_existing tc) s
     = after h (Presence_GetTrustedCluster (GetName tc)) s
  /\ calls h (lookup_existing tc) s
     = [mkCall (Presence_GetTrustedCluster (GetName tc))].
Proof.
  intros Hname Hget. unfold lookup_existing.
  destruct (String.eqb (GetName tc) "") eqn:En.
  { apply String.eqb_eq in En. contradiction. }
  step. rewrite Hget. step. auto.
Qed.

(** C6.  For a descriptor that exists and may change state, a not-found
    error from activating (when it is to be enabled) or deactivating (when
    it is to be disabled) its CAs makes [UpsertTrustedCluster] fail with
    bad-parameter and the legacy-version message, not with not-found. *)
Theorem legacy_descriptor_bad_parameter (s : St) (ctx : Context)
    (tc existing : TrustedCluster) (err : error) :
  GetName tc <> "" ->
  answer h (Presence_GetTrustedCluster (GetName tc)) s = Ok existing ->
  CanChangeStateTo existing tc = None ->
  outcome h (if GetEnabled tc then activateCertAuthority tc
             else deactivateCertAuthority tc)
    (after h (Presence_GetTrustedCluster (GetName tc)) s) = Done (Err err) ->
  IsNotFound err = true ->
  outcome h (UpsertTrustedCluster ctx tc) s
  = Done (Err (BadParameter
       "enable only supported for Trusted Clusters created with Teleport 2.3 and above")).
Proof.
  intros Hname Hget Hcan Hact Hnf.
  destruct (lookup_existing_found s tc existing Hname Hget) as (Ho & Hf & _).
  unfold UpsertTrustedCluster.
  rewrite outcome_bind, Ho, Hf, Hcan.
  rewrite outcome_bind.
  unfold change_state.
  destruct (GetEnabled tc); rewrite outcome_bind, Hact, Hnf; reflexivity.
Qed.

End Reconciler.

(** Enabling and disabling the legacy descriptor of the scenarios, for
    which no CA is stored, both fail with bad-parameter. *)
Lemma legacy_descriptor_bad_parameter_witness :
  outcome InMemory.handle
    (@UpsertTrustedCluster Scenario.marshaler Scenario.externals
       Scenario.admin Scenario.T_legacy)
    Scenario.legacy_backend
  = Done (Err (BadParameter
       "enable only supported for Trusted Clusters created with Teleport 2.3 and above"))
  /\ outcome InMemory.handle
       (@UpsertTrustedCluster Scenario.marshaler Scenario.externals
          Scenario.admin Scenario.T_legacy_off)
       Scenario.legacy_backend
     = Done (Err (BadParameter
       "enable only supported for Trusted Clusters created with Teleport 2.3 and above")).
Proof.
  split.
  - apply (@legacy_descriptor_bad_parameter Scenario.marshaler
             Scenario.externals _ InMemory.handle Scenario.legacy_backend
             Scenario.admin Scenario.T_legacy Scenario.T_legacy
             (NotFound "inactive certificate authority not found")).
    + discriminate.
    + reflexivity.
    + reflexivity.
    + reflexivity.
    + reflexivity.
  - apply (@legacy_descriptor_bad_parameter Scenario.marshaler
             Scenario.externals _ InMemory.handle Scenario.legacy_backend
             Scenario.admin Scenario.T_legacy_off Scenario.T_legacy
             (NotFound "active certificate authority not found")).
    + discriminate.
    + reflexivity.
    + reflexivity.
    + reflexivity.
    + reflexivity.
Defined.

(** ** Deletion *)

Section Deletion.

Context {M : CertAuthorityMarshaler} {E : Externals}.
Context {St : Type} (h : Handler St).

Lemma tolerate_ok_or_not_found (r : Result unit) :
  ok_or_not_found r -> tolerate_not_found r = None.
Proof.
  destruct r as [u | e]; simpl; [reflexivity |].
  intros ->. reflexivity.
Qed.

(** C8.  [DeleteTrustedCluster name] first reads the local cluster name.
    When it equals [name] the call fails with bad-parameter and has made
    no other call.  Otherwise it deletes the host CA, then the user CA,
    then the reverse tunnel.  A step that succeeds or fails with
    not-found is followed by the next one; a step that fails with any
    other error ends the call with that error, and nothing after it is
    called.  After the three steps it deletes the descriptor, returns the
    error of that deletion if there is one, and otherwise emits the
    TrustedClusterDelete event and succeeds, whatever the audit log
    answers. *)
Theorem DeleteTrustedCluster_steps (s : St) (ctx : Context) (name cn : string) :
  answer h GetClusterName_ s = Ok cn ->
  let s1 := after h GetClusterName_ s in
  let hostCA := DeleteCertAuthority {| Type_ := HostCA; DomainName := name |} in
  let userCA := DeleteCertAuthority {| Type_ := UserCA; DomainName := name |} in
  let tunnel := DeleteReverseTunnel name in
  let descriptor := Presence_DeleteTrustedCluster name in
  let event := EmitAuditEvent TrustedClusterDelete (clientUsername ctx) in
  let s2 := after h hostCA s1 in
  let s3 := after h userCA s2 in
  let s4 := after h tunnel s3 in
  let s5 := after h descriptor s4 in
  (cn = name ->
     (exists msg, outcome h (DeleteTrustedCluster ctx name) s
                  = Done (Err (BadParameter msg)))
     /\ calls h (DeleteTrustedCluster ctx name) s = [mkCall GetClusterName_]
     /\ final h (DeleteTrustedCluster ctx name) s = s1)
  /\ (cn <> name ->
      ok_or_not_found (answer h hostCA s1) ->
      ok_or_not_found (answer h userCA s2) ->
      ok_or_not_found (answer h tunnel s3) ->
      match answer h descriptor s4 with
      | Err e =>
          outcome h (DeleteTrustedCluster ctx name) s = Done (Err e)
          /\ calls h (DeleteTrustedCluster ctx name) s
             = [mkCall GetClusterName_; mkCall hostCA; mkCall userCA;
                mkCall tunnel; mkCall descriptor]
          /\ final h (DeleteTrustedCluster ctx name) s = s5
      | Ok _ =>
          outcome h (DeleteTrustedCluster ctx name) s = Done (Ok tt)
          /\ calls h (DeleteTrustedCluster ctx name) s
             = [mkCall GetClusterName_; mkCall hostCA; mkCall userCA;
                mkCall tunnel; mkCall descriptor; mkCall event]
          /\ final h (DeleteTrustedCluster ctx name) s = after h event s5
      end)
  /\ (cn <> name ->
      forall e, IsNotFound e = false ->
        (answer h hostCA s1 = Err e ->
           outcome h (DeleteTrustedCluster ctx name) s = Done (Err e)
           /\ calls h (DeleteTrustedCluster ctx name) s
              = [mkCall GetClusterName_; mkCall hostCA]
           /\ final h (DeleteTrustedCluster ctx name) s = s2)
        /\ (ok_or_not_found (answer h hostCA s1) ->
            answer h userCA s2 = Err e ->
            outcome h (DeleteTrustedCluster ctx name) s = Done (Err e)
            /\ calls h (DeleteTrustedCluster ctx name) s
               = [mkCall GetClusterName_; mkCall hostCA; mkCall userCA]
            /\ final h (DeleteTrustedCluster ctx name) s = s3)
        /\ (ok_or_not_found (answer h hostCA s1) ->
            ok_or_not_found (answer h userCA s2) ->
            answer h tunnel s3 = Err e ->
            outcome h (DeleteTrustedCluster ctx name) s = Done (Err e)
            /\ calls h (DeleteTrustedCluster ctx name) s
               = [mkCall GetClusterName_; mkCall hostCA; mkCall userCA;
                  mkCall tunnel]
            /\ final h (DeleteTrustedCluster ctx name) s = s4)).
Proof.
  intros Hcn s1 hostCA userCA tunnel descriptor event s2 s3 s4 s5.
  unfold DeleteTrustedCluster. split; [| split].
  - intros ->. step. rewrite Hcn, String.eqb_refl. step.
    split; [eexists; reflexivity | split; reflexivity].
  - intros Hne H1 H2 H3.
    apply tolerate_ok_or_not_found in H1, H2, H3.
    apply String.eqb_neq in Hne.
    step. rewrite Hcn, Hne. step.
    fold s1 hostCA. rewrite H1. step.
    fold s2 userCA. rewrite H2. step.
    fold s3 tunnel. rewrite H3. step.
    fold s4 descriptor.
    destruct (answer h descriptor s4) as [u | e]; step; auto.
  - intros Hne e He. apply String.eqb_neq in Hne.
    split; [| split].
    + intros H1. step. rewrite Hcn, Hne. step.
      fold s1 hostCA. rewrite H1. cbn [tolerate_not_found]. rewrite He.
      step. auto.
    + intros H1 H2. apply tolerate_ok_or_not_found in H1.
      step. rewrite Hcn, Hne. step.
      fold s1 hostCA. rewrite H1. step.
      fold s2 userCA. rewrite H2. cbn [tolerate_not_found]. rewrite He.
      step. auto.
    + intros H1 H2 H3. apply tolerate_ok_or_not_found in H1, H2.
      step. rewrite Hcn, Hne. step.
      fold s1 hostCA. rewrite H1. step.
      fold s2 userCA. rewrite H2. step.
      fold s3 tunnel. rewrite H3. cbn [tolerate_not_found]. rewrite He.
      step. auto.
Qed.

End Deletion.

(** On the root after scenario S1: deleting "root" is refused, and deleting
    "leaf-east" removes the two CAs, the tunnel and the descriptor, in that
    order, and records the audit event.  When the CA store cannot delete
    the user CA, the deletion of "leaf-east" ends there with the error of
    the store: the tunnel and the descriptor are not touched. *)
Lemma DeleteTrustedCluster_steps_witness :
  ((exists msg,
      outcome InMemory.handle
        (@DeleteTrustedCluster Scenario.externals Scenario.admin "root")
        Scenario.enrolled_backend = Done (Err (BadParameter msg)))
   /\ calls InMemory.handle
        (@DeleteTrustedCluster Scenario.externals Scenario.admin "root")
        Scenario.enrolled_backend = [mkCall GetClusterName_]
   /\ final InMemory.handle
        (@DeleteTrustedCluster Scenario.externals Scenario.admin "root")
        Scenario.enrolled_backend = Scenario.enrolled_backend)
  /\ (outcome InMemory.handle
        (@DeleteTrustedCluster Scenario.externals Scenario.admin "leaf-east")
        Scenario.enrolled_backend = Done (Ok tt)
      /\ calls InMemory.handle
           (@DeleteTrustedCluster Scenario.externals Scenario.admin "leaf-east")
           Scenario.enrolled_backend
         = [mkCall GetClusterName_;
            mkCall (DeleteCertAuthority {| Type_ := HostCA; DomainName := "leaf-east" |});
            mkCall (DeleteCertAuthority {| Type_ := UserCA; DomainName := "leaf-east" |});
            mkCall (DeleteReverseTunnel "leaf-east");
            mkCall (Presence_DeleteTrustedCluster "leaf-east");
            mkCall (EmitAuditEvent TrustedClusterDelete "alice")])
  /\ (outcome Scenario.user_CA_undeletable
        (@DeleteTrustedCluster Scenario.externals Scenario.admin "leaf-east")
        Scenario.enrolled_backend
      = Done (Err (Error_ KOther "backend unavailable"))
      /\ calls Scenario.user_CA_undeletable
           (@DeleteTrustedCluster Scenario.externals Scenario.admin "leaf-east")
           Scenario.enrolled_backend
         = [mkCall GetClusterName_;
            mkCall (DeleteCertAuthority {| Type_ := HostCA; DomainName := "leaf-east" |});
            mkCall (DeleteCertAuthority {| Type_ := UserCA; DomainName := "leaf-east" |})]
      /\ InMemory.reverse_tunnels
           (final Scenario.user_CA_undeletable
              (@DeleteTrustedCluster Scenario.externals Scenario.admin "leaf-east")
              Scenario.enrolled_backend)
         = InMemory.reverse_tunnels Scenario.enrolled_backend
      /\ InMemory.trusted_clusters
           (final Scenario.user_CA_undeletable
              (@DeleteTrustedCluster Scenario.externals Scenario.admin "leaf-east")
              Scenario.enrolled_backend)
         = InMemory.trusted_clusters Scenario.enrolled_backend).
Proof.
  assert (Hne : "root" <> "leaf-east") by discriminate.
  split; [| split].
  - exact (proj1 (@DeleteTrustedCluster_steps Scenario.externals _
                    InMemory.handle Scenario.enrolled_backend Scenario.admin
                    "root" "root" eq_refl) eq_refl).
  - pose proof (proj1 (proj2 (@DeleteTrustedCluster_steps Scenario.externals _
                    InMemory.handle Scenario.enrolled_backend Scenario.admin
                    "leaf-east" "root" eq_refl))) as H.
    cbv zeta in H.
    specialize (H Hne I I I).
    destruct H as (Ho & Hc & _). split; assumption.
  - pose proof (proj2 (proj2 (@DeleteTrustedCluster_steps Scenario.externals _
                    Scenario.user_CA_undeletable Scenario.enrolled_backend
                    Scenario.admin "leaf-east" "root" eq_refl))) as H.
    cbv zeta in H.
    destruct (H Hne (Error_ KOther "backend unavailable") eq_refl)
      as (_ & Huser & _).
    destruct (Huser I eq_refl) as (Ho & Hc & Hf).
    split; [exact Ho |]. split; [exact Hc |].
    rewrite Hf. split; reflexivity.
Defined.

(** ** CA import *)

Section CAImport.

Context {St : Type} (h : Handler St).

Lemma fold_AddRole (roles : list string) :
  forall ca,
    fold_left AddRole roles ca = SetRoles ca (ca_roles ca ++ roles).
Proof.
  induction roles as [| r roles IH]; intros ca; simpl.
  - rewrite app_nil_r. destruct ca; reflexivity.
  - rewrite IH. unfold AddRole, SetRoles. simpl.
    rewrite <- app_assoc. reflexivity.
Qed.

(** What the import stores for one returned CA. *)
Lemma prepare_remote_CA_fields (tc : TrustedCluster) (ca : CertAuthority) :
  let ca' := prepare_remote_CA tc ca in
  ca_name ca' = GetName tc
  /\ ca_type ca' = ca_type ca
  /\ ca_cluster_name ca' = ca_cluster_name ca
  /\ ca_tls_key_pairs ca' = ca_tls_key_pairs ca
  /\ match ca_type ca with
     | UserCA => ca_roles ca' = GetRoles tc /\ ca_role_map ca' = GetRoleMap tc
     | HostCA => ca_roles ca' = [] /\ ca_role_map ca' = ca_role_map ca
     end.
Proof.
  unfold prepare_remote_CA, GetType. simpl.
  destruct (ca_type ca) eqn:Et; simpl.
  - rewrite Et. auto 6.
  - rewrite fold_AddRole. simpl. rewrite Et. auto 6.
Qed.

(** A run that succeeds has created every prepared CA, in order. *)
Lemma addCertAuthorities_ok (tc : TrustedCluster) (cas : list CertAuthority) :
  forall s,
    outcome h (addCertAuthorities tc cas) s = Done (Ok tt) ->
    calls h (addCertAuthorities tc cas) s
    = map (fun c => mkCall (CreateCertAuthority (prepare_remote_CA tc c))) cas.
Proof.
  induction cas as [| ca cas IH]; intros s; simpl; [reflexivity |].
  step.
  destruct (answer h (CreateCertAuthority (prepare_remote_CA tc ca)) s)
    as [u | e]; step.
  - intros H. rewrite (IH _ H). reflexivity.
  - discriminate.
Qed.

(** The first creation that fails ends the import. *)
Lemma addCertAuthorities_abort (tc : TrustedCluster)
    (pre : list CertAuthority) (ca : CertAuthority) (post : list CertAuthority)
    (e : error) :
  forall s,
    outcome h (addCertAuthorities tc pre) s = Done (Ok tt) ->
    answer h (CreateCertAuthority (prepare_remote_CA tc ca))
      (final h (addCertAuthorities tc pre) s) = Err e ->
    outcome h (addCertAuthorities tc (pre ++ ca :: post)) s = Done (Err e)
    /\ calls h (addCertAuthorities tc (pre ++ ca :: post)) s
       = map (fun c => mkCall (CreateCertAuthority (prepare_remote_CA tc c)))
           (pre ++ [ca])
    /\ final h (addCertAuthorities tc (pre ++ ca :: post)) s
       = after h (CreateCertAuthority (prepare_remote_CA tc ca))
           (final h (addCertAuthorities tc pre) s).
Proof.
  induction pre as [| c pre IH]; intros s; simpl.
  - step. intros _ ->. step. auto.
  - step.
    destruct (answer h (CreateCertAuthority (prepare_remote_CA tc c)) s)
      as [u | e']; step.
    + intros Hpre Hca. destruct (IH _ Hpre Hca) as (Ho & Hc & Hf).
      rewrite Ho, Hc, Hf. auto.
    + discriminate.
Qed.

(** The import, for every backend.  It stores each returned CA under the
    descriptor's name,
    with its type, cluster name and key pairs as received; a user CA gets
    the descriptor's roles and role map, a host CA gets no role and keeps
    its role map.  Every CA is stored by a create call, in the order
    received; the first create that fails (already-exists, on a collision
    with a stored CA) is returned as the error of the import, and no CA
    after it is created. *)
Theorem addCertAuthorities_create_only (tc : TrustedCluster) (s : St) :
  (forall ca,
      let ca' := prepare_remote_CA tc ca in
      ca_name ca' = GetName tc
      /\ ca_type ca' = ca_type ca
      /\ ca_cluster_name ca' = ca_cluster_name ca
      /\ ca_tls_key_pairs ca' = ca_tls_key_pairs ca
      /\ match ca_type ca with
         | UserCA => ca_roles ca' = GetRoles tc /\ ca_role_map ca' = GetRoleMap tc
         | HostCA => ca_roles ca' = [] /\ ca_role_map ca' = ca_role_map ca
         end)
  /\ (forall cas,
        outcome h (addCertAuthorities tc cas) s = Done (Ok tt) ->
        calls h (addCertAuthorities tc cas) s
        = map (fun c => mkCall (CreateCertAuthority (prepare_remote_CA tc c))) cas)
  /\ (forall pre ca post e,
        outcome h (addCertAuthorities tc pre) s = Done (Ok tt) ->
        answer h (CreateCertAuthority (prepare_remote_CA tc ca))
          (final h (addCertAuthorities tc pre) s) = Err e ->
        outcome h (addCertAuthorities tc (pre ++ ca :: post)) s = Done (Err e)
        /\ calls h (addCertAuthorities tc (pre ++ ca :: post)) s
           = map (fun c => mkCall (CreateCertAuthority (prepare_remote_CA tc c)))
               (pre ++ [ca])
        /\ final h (addCertAuthorities tc (pre ++ ca :: post)) s
           = after h (CreateCertAuthority (prepare_remote_CA tc ca))
               (final h (addCertAuthorities tc pre) s)).
Proof.
  split; [| split].
  - intros ca. apply prepare_remote_CA_fields.
  - intros cas. apply addCertAuthorities_ok.
  - intros pre ca post e. apply addCertAuthorities_abort.
Qed.

End CAImport.

(** With the leaf's host CA already stored, importing its user CA, its host
    CA and one more CA creates the first, fails with already-exists on the
    second and never creates the third. *)
Lemma addCertAuthorities_create_only_witness :
  outcome InMemory.handle
    (addCertAuthorities Scenario.T_leaf
       [Scenario.leaf_user; Scenario.leaf_host; Scenario.ghost_host])
    Scenario.half_backend
  = Done (Err (AlreadyExists "certificate authority already exists"))
  /\ calls InMemory.handle
       (addCertAuthorities Scenario.T_leaf
          [Scenario.leaf_user; Scenario.leaf_host; Scenario.ghost_host])
       Scenario.half_backend
     = [mkCall (CreateCertAuthority
                  (prepare_remote_CA Scenario.T_leaf Scenario.leaf_user));
        mkCall (CreateCertAuthority
                  (prepare_remote_CA Scenario.T_leaf Scenario.leaf_host))].
Proof.
  pose proof (proj2 (proj2 (addCertAuthorities_create_only InMemory.handle
                              Scenario.T_leaf Scenario.half_backend))
                [Scenario.leaf_user] Scenario.leaf_host [Scenario.ghost_host]
                (AlreadyExists "certificate authority already exists")
                eq_refl eq_refl) as (Ho & Hc & _).
  split; assumption.
Defined.


(** ** The ensure loop *)

Section Ensure.

Context {M : CertAuthorityMarshaler} {E : Externals}.
Context {St : Type} (h : Handler St).

(** The last step of [ensureEnabled]. *)
Lemma create_tunnel_last (t : TrustedCluster) (renamed : bool) (s : St) :
  outcome h (bind (createReverseTunnel t)
               (fun r => Ret (t, renamed, result_error r))) s
  = Done (t, renamed, result_error (answer h (tunnel_of t) s))
  /\ calls h (bind (createReverseTunnel t)
                (fun r => Ret (t, renamed, result_error r))) s
     = [mkCall (tunnel_of t)]
  /\ final h (bind (createReverseTunnel t)
                (fun r => Ret (t, renamed, result_error r))) s
     = after h (tunnel_of t) s.
Proof.
  unfold createReverseTunnel, tunnel_of. step.
  destruct (answer h _ s) as [u | e]; step; auto.
Qed.

(** C2, as the code has it.  [ensureEnabled] first tries to activate the
    two CAs.  An activation error other than not-found is returned.  On
    not-found it reads the two CAs; a read error other than not-found is
    returned.  Only when the read reports not-found does it establish
    trust; it then renames the descriptor when the cluster name of the
    first returned CA differs from the descriptor's name (and only then
    reports [renamed]), and imports the CAs.  In each of the three cases
    that did not end in an error (the activation succeeded, the CAs were
    read, trust was established and the CAs imported) the last step
    creates the reverse tunnel of the descriptor, and the error of that
    step is the error returned. *)
Theorem ensureEnabled_order (s : St) (tc : TrustedCluster) :
  let act := activateCertAuthority tc in
  let get := getCertAuthorities tc in
  let est := establishTrust tc in
  let s1 := final h act s in
  let s2 := final h get s1 in
  let s3 := final h est s2 in
  (forall u, outcome h act s = Done (Ok u) ->
     outcome h (ensureEnabled tc) s
     = Done (tc, false, result_error (answer h (tunnel_of tc) s1))
     /\ calls h (ensureEnabled tc) s = calls h act s ++ [mkCall (tunnel_of tc)])
  /\ (forall e, outcome h act s = Done (Err e) -> IsNotFound e = false ->
      outcome h (ensureEnabled tc) s = Done (tc, false, Some e)
      /\ calls h (ensureEnabled tc) s = calls h act s)
  /\ (forall e, outcome h act s = Done (Err e) -> IsNotFound e = true ->
      (forall cas, outcome h get s1 = Done (Ok cas) ->
         outcome h (ensureEnabled tc) s
         = Done (tc, false, result_error (answer h (tunnel_of tc) s2))
         /\ calls h (ensureEnabled tc) s
            = calls h act s ++ calls h get s1 ++ [mkCall (tunnel_of tc)])
      /\ (forall e1, outcome h get s1 = Done (Err e1) -> IsNotFound e1 = false ->
          outcome h (ensureEnabled tc) s = Done (tc, false, Some e1)
          /\ calls h (ensureEnabled tc) s = calls h act s ++ calls h get s1)
      /\ (forall e1, outcome h get s1 = Done (Err e1) -> IsNotFound e1 = true ->
          (forall e2, outcome h est s2 = Done (Err e2) ->
             outcome h (ensureEnabled tc) s = Done (tc, false, Some e2)
             /\ calls h (ensureEnabled tc) s
                = calls h act s ++ calls h get s1 ++ calls h est s2)
          /\ (forall ca0 rest, outcome h est s2 = Done (Ok (ca0 :: rest)) ->
              let renamed := negb (String.eqb (GetClusterName ca0) (GetName tc)) in
              let tc' := if renamed then tc_SetName tc (GetClusterName ca0) else tc in
              let add := addCertAuthorities tc' (ca0 :: rest) in
              let s4 := final h add s3 in
              (forall e3, outcome h add s3 = Done (Err e3) ->
                 outcome h (ensureEnabled tc) s = Done (tc', renamed, Some e3)
                 /\ calls h (ensureEnabled tc) s
                    = calls h act s ++ calls h get s1 ++ calls h est s2
                      ++ calls h add s3)
              /\ (forall u, outcome h add s3 = Done (Ok u) ->
                  outcome h (ensureEnabled tc) s
                  = Done (tc', renamed, result_error (answer h (tunnel_of tc') s4))
                  /\ calls h (ensureEnabled tc) s
                     = calls h act s ++ calls h get s1 ++ calls h est s2
                       ++ calls h add s3 ++ [mkCall (tunnel_of tc')])))).
Proof.
  intros act get est s1 s2 s3.
  unfold ensureEnabled. cbv zeta.
  rewrite outcome_bind, calls_bind. fold act s1.
  split; [| split].
  - intros u ->.
    destruct (create_tunnel_last tc false s1) as (Ho & Hc & _).
    rewrite Ho, Hc. auto.
  - intros e -> ->. simpl. rewrite app_nil_r. auto.
  - intros e -> ->. cbn [negb].
    rewrite outcome_bind, calls_bind. fold get s2.
    split; [| split].
    + intros cas ->.
      destruct (create_tunnel_last tc false s2) as (Ho & Hc & _).
      rewrite Ho, Hc. auto.
    + intros e1 -> ->. simpl. rewrite app_nil_r. auto.
    + intros e1 -> ->. cbn [negb].
      rewrite outcome_bind, calls_bind. fold est s3.
      split.
      * intros e2 ->. simpl. rewrite app_nil_r. auto.
      * intros ca0 rest ->.
        set (renamed := negb (String.eqb (GetClusterName ca0) (GetName tc))).
        set (tc' := if renamed then tc_SetName tc (GetClusterName ca0) else tc).
        rewrite outcome_bind, calls_bind.
        set (s4 := final h (addCertAuthorities tc' (ca0 :: rest)) s3).
        split.
        -- intros e3 ->. simpl. rewrite app_nil_r. auto.
        -- intros u ->.
           destruct (create_tunnel_last tc' renamed s4) as (Ho & Hc & _).
           rewrite Ho, Hc. auto.
Qed.

End Ensure.

(** On the enrolled root without its tunnel the activation finds no
    inactive CA, the CAs are read, and the tunnel is created. *)
Lemma ensureEnabled_order_witness :
  outcome InMemory.handle
    (@ensureEnabled Scenario.marshaler Scenario.externals Scenario.T_leaf)
    Scenario.untunnelled_backend
  = Done (Scenario.T_leaf, false, None)
  /\ calls InMemory.handle
       (@ensureEnabled Scenario.marshaler Scenario.externals Scenario.T_leaf)
       Scenario.untunnelled_backend
     = [mkCall (ActivateCertAuthority {| Type_ := UserCA; DomainName := "leaf-east" |});
        mkCall (GetCertAuthority {| Type_ := UserCA; DomainName := "leaf-east" |} false);
        mkCall (GetCertAuthority {| Type_ := HostCA; DomainName := "leaf-east" |} false);
        mkCall (tunnel_of Scenario.T_leaf)].
Proof.
  exact (proj1 (proj2 (proj2 (@ensureEnabled_order Scenario.marshaler
                                Scenario.externals _ InMemory.handle
                                Scenario.untunnelled_backend Scenario.T_leaf))
                  (NotFound "inactive certificate authority not found")
                  eq_refl eq_refl)
           _ eq_refl).
Defined.

(** C2, as stated, fails: with both CAs of the descriptor present, so that
    the read after the failed activation finds them, [ensureEnabled] still
    goes on to create the reverse tunnel, which was not there before. *)
Lemma ensureEnabled_tunnel_with_CAs_present :
  (exists e, outcome InMemory.handle (activateCertAuthority Scenario.T_leaf)
               Scenario.untunnelled_backend = Done (Err e)
             /\ IsNotFound e = true)
  /\ (exists cas, outcome InMemory.handle (getCertAuthorities Scenario.T_leaf)
                    Scenario.untunnelled_backend = Done (Ok cas))
  /\ InMemory.reverse_tunnels Scenario.untunnelled_backend = []
  /\ calls InMemory.handle
       (@ensureEnabled Scenario.marshaler Scenario.externals Scenario.T_leaf)
       Scenario.untunnelled_backend
     = [mkCall (ActivateCertAuthority {| Type_ := UserCA; DomainName := "leaf-east" |});
        mkCall (GetCertAuthority {| Type_ := UserCA; DomainName := "leaf-east" |} false);
        mkCall (GetCertAuthority {| Type_ := HostCA; DomainName := "leaf-east" |} false);
        mkCall (UpsertReverseTunnel
                  {| rt_name := "leaf-east"; rt_dial_addrs := ["p:3024"] |})]
  /\ InMemory.reverse_tunnels
       (final InMemory.handle
          (@ensureEnabled Scenario.marshaler Scenario.externals Scenario.T_leaf)
          Scenario.untunnelled_backend)
     = [{| rt_name := "leaf-east"; rt_dial_addrs := ["p:3024"] |}].
Proof.
  split; [| split; [| split; [| split]]].
  - eexists. split; reflexivity.
  - eexists. reflexivity.
  - reflexivity.
  - reflexivity.
  - reflexivity.
Qed.

(** ** A failed handshake *)

Section FailedHandshake.

Context {M : CertAuthorityMarshaler} {E : Externals}.
Context {St : Type} (h : Handler St).

Lemma reads_only_cons (c : Call) (tr : list Call) :
  reads_only (c :: tr) = negb (mutates c) && reads_only tr.
Proof. reflexivity. Qed.

Lemma reads_only_app (tr1 tr2 : list Call) :
  reads_only (tr1 ++ tr2) = reads_only tr1 && reads_only tr2.
Proof. apply forallb_app. Qed.

(** A run of calls that do not write leaves the state of a backend that
    keeps its state on such calls. *)
Lemma reads_only_final {A : Type} (p : Prog A) :
  reads_keep_state h ->
  forall s, reads_only (calls h p s) = true -> final h p s = s.
Proof.
  intros Hkeep. induction p as [a | msg | Y op k IH]; intros s.
  - reflexivity.
  - reflexivity.
  - rewrite calls_Vis, final_Vis. simpl.
    intros H. apply andb_true_iff in H as [Hop Hrest].
    apply negb_true_iff in Hop. unfold mutates in Hop. simpl in Hop.
    rewrite (Hkeep _ op s Hop) in *. apply IH. exact Hrest.
Qed.

Lemma lookup_existing_reads (tc : TrustedCluster) (s : St) :
  reads_only (calls h (lookup_existing tc) s) = true.
Proof.
  unfold lookup_existing.
  destruct (String.eqb (GetName tc) ""); [reflexivity |].
  step. destruct (answer h _ s); reflexivity.
Qed.

Lemma lookup_existing_missing (tc : TrustedCluster) (s : St) :
  GetName tc = ""
  \/ (exists e, answer h (Presence_GetTrustedCluster (GetName tc)) s = Err e) ->
  outcome h (lookup_existing tc) s = Done None.
Proof.
  unfold lookup_existing. intros [-> | [e He]]; [reflexivity |].
  destruct (String.eqb (GetName tc) ""); [reflexivity |].
  step. rewrite He. reflexivity.
Qed.

Lemma checkLocalRoles_inner_reads (mapping : RoleMapping) (locals : list string) :
  forall s, reads_only (calls h (checkLocalRoles_inner mapping locals) s) = true.
Proof.
  induction locals as [| localRole rest IH]; intros s; simpl; [reflexivity |].
  destruct (ContainsExpansion localRole); [apply IH |].
  step. destruct (answer h (GetRole localRole) s) as [u | e]; simpl.
  - apply IH.
  - destruct (IsNotFound e); reflexivity.
Qed.

Lemma checkLocalRoles_reads (roleMap : RoleMap) :
  forall s, reads_only (calls h (checkLocalRoles roleMap) s) = true.
Proof.
  induction roleMap as [| mapping rest IH]; intros s; simpl; [reflexivity |].
  rewrite calls_bind.
  destruct (outcome h (checkLocalRoles_inner mapping (Local_ mapping)) s)
    as [[u | e] | msg].
  - rewrite reads_only_app, checkLocalRoles_inner_reads, IH. reflexivity.
  - rewrite reads_only_app, checkLocalRoles_inner_reads. reflexivity.
  - apply checkLocalRoles_inner_reads.
Qed.

Lemma sendValidateRequestToProxy_reads (host : string)
    (req : ValidateTrustedClusterRequest) (s : St) :
  reads_only (calls h (sendValidateRequestToProxy host req) s) = true.
Proof.
  unfold sendValidateRequestToProxy. step.
  destruct (answer h (NewClient host) s) as [u | e]; [| reflexivity].
  destruct (Request_ToRaw req) as [raw | e]; [| reflexivity].
  step. destruct (answer h (PostJSON host raw) _) as [[resp |] | e];
    [| reflexivity | reflexivity].
  destruct (ResponseRaw_ToNative resp); reflexivity.
Qed.

Lemma establishTrust_reads (tc : TrustedCluster) (s : St) :
  reads_only (calls h (establishTrust tc) s) = true.
Proof.
  unfold establishTrust. step.
  destruct (answer h GetDomainName s) as [domainName | e]; [| reflexivity].
  step.
  destruct (answer h (GetCertAuthorities HostCA false) _) as [cas | e];
    [| reflexivity].
  cbv beta iota zeta. rewrite calls_bind.
  match goal with
  | |- context [outcome h ?p ?s'] =>
      pose proof (sendValidateRequestToProxy_reads
                    (GetProxyAddress tc)
                    {| req_Token := GetToken tc;
                       req_CAs := filter (fun lca =>
                         String.eqb (GetClusterName lca) domainName) cas |} s')
        as Hsend;
      destruct (outcome h p s') as [[resp | e] | msg]
  end.
  - rewrite !reads_only_cons, reads_only_app, Hsend.
    destruct (check_remote_CAs domainName (resp_CAs resp)); reflexivity.
  - rewrite !reads_only_cons, reads_only_app, Hsend.
    destruct (Contains (Error e) "x509"); reflexivity.
  - rewrite !reads_only_cons, Hsend. reflexivity.
Qed.

(** C7.  When no descriptor of that name is stored, the local roles check
    out and [establishTrust] fails, [UpsertTrustedCluster] returns the
    error of [establishTrust] and has made no call that writes to the
    local backend: no CA created, no tunnel upserted, no descriptor
    stored, no audit event.  On a backend whose reads leave its state
    alone the state after the call is the state before it. *)
Theorem failed_handshake_mutates_nothing (s : St) (ctx : Context)
    (tc : TrustedCluster) (e : error) :
  GetName tc = ""
  \/ (exists e0, answer h (Presence_GetTrustedCluster (GetName tc)) s = Err e0) ->
  let s1 := final h (lookup_existing tc) s in
  (exists u, outcome h (checkLocalRoles (GetRoleMap tc)) s1 = Done (Ok u)) ->
  let s2 := final h (checkLocalRoles (GetRoleMap tc)) s1 in
  outcome h (establishTrust tc) s2 = Done (Err e) ->
  outcome h (UpsertTrustedCluster ctx tc) s = Done (Err e)
  /\ reads_only (calls h (UpsertTrustedCluster ctx tc) s) = true
  /\ (reads_keep_state h -> final h (UpsertTrustedCluster ctx tc) s = s).
Proof.
  intros Hmissing s1 [u Hroles] s2 Hest.
  apply lookup_existing_missing in Hmissing.
  assert (Hout : outcome h (UpsertTrustedCluster ctx tc) s = Done (Err e)
                 /\ reads_only (calls h (UpsertTrustedCluster ctx tc) s) = true).
  { unfold UpsertTrustedCluster.
    rewrite outcome_bind, calls_bind, Hmissing. fold s1.
    rewrite outcome_bind, calls_bind.
    assert (Hcs : outcome h (change_state false (GetEnabled tc) tc) s1
                  = Done (Err e)
                  /\ reads_only (calls h (change_state false (GetEnabled tc) tc) s1)
                     = true).
    { unfold change_state.
      destruct (GetEnabled tc);
        rewrite outcome_bind, calls_bind, Hroles; fold s2;
        rewrite outcome_bind, calls_bind, Hest;
        rewrite !reads_only_app, checkLocalRoles_reads, establishTrust_reads;
        split; reflexivity. }
    destruct Hcs as [Hcs Hreads]. rewrite Hcs.
    rewrite app_nil_r, reads_only_app, lookup_existing_reads, Hreads.
    split; reflexivity. }
  destruct Hout as [Hout Hreads].
  split; [exact Hout | split; [exact Hreads |]].
  intros Hkeep. apply reads_only_final; assumption.
Qed.

End FailedHandshake.

(** The in-memory backend keeps its state on every call that does not
    write. *)
Lemma handle_reads_keep_state : reads_keep_state InMemory.handle.
Proof.
  intros Y op st. unfold after.
  destruct op; simpl; try discriminate; intros _;
    try reflexivity;
    match goal with
    | |- context [find ?f ?l] => destruct (find f l); reflexivity
    | |- context [existsb ?f ?l] => destruct (existsb f l); reflexivity
    | |- context [InMemory.proxy ?b ?host ?body] =>
        destruct (InMemory.proxy b host body); reflexivity
    end.
Qed.

(** Scenario S3: the leaf rejects the token; the root returns the
    access-denied error and its backend is what it was. *)
Lemma failed_handshake_mutates_nothing_witness :
  outcome InMemory.handle
    (@UpsertTrustedCluster Scenario.marshaler Scenario.externals
       Scenario.admin Scenario.T_temp)
    (Scenario.root_backend Scenario.denying_proxy)
  = Done (Err (AccessDenied
                 "the remote server denied access: invalid cluster token"))
  /\ final InMemory.handle
       (@UpsertTrustedCluster Scenario.marshaler Scenario.externals
          Scenario.admin Scenario.T_temp)
       (Scenario.root_backend Scenario.denying_proxy)
     = Scenario.root_backend Scenario.denying_proxy.
Proof.
  pose proof (@failed_handshake_mutates_nothing Scenario.marshaler
                Scenario.externals _ InMemory.handle
                (Scenario.root_backend Scenario.denying_proxy)
                Scenario.admin Scenario.T_temp
                (AccessDenied
                   "the remote server denied access: invalid cluster token")
                (or_intror (ex_intro _ (NotFound "trusted cluster not found")
                                     eq_refl))
                (ex_intro _ tt eq_refl) eq_refl) as (Ho & _ & Hf).
  split; [exact Ho | exact (Hf handle_reads_keep_state)].
Defined.

(** ** One pass over the descriptors *)

Section PassProperties.

Context {M : CertAuthorityMarshaler} {E : Externals}.
Context {St : Type} (h : Handler St).

Lemma exec_Vis {Y A : Type} (op : Op Y) (k : Result Y -> Prog A) (s : St) :
  exec h (Vis op k) s =
  let '(o, s2, tr) := exec h (k (answer h op s)) (after h op s) in
  (o, s2, mkCall op :: tr).
Proof.
  unfold answer, after. simpl. destruct (h _ op s) as [r s1]. reflexivity.
Qed.

Lemma append_error (errs : list error) (err : option error) :
  match err with Some e => errs ++ [e] | None => errs end
  = errs ++ error_list err.
Proof. destruct err; simpl; [reflexivity | rewrite app_nil_r; reflexivity]. Qed.

(** The loop body does what [Reconciled] says, and adds the errors of the
    descriptor to those collected so far. *)
Lemma body_of_Reconciled {tc : TrustedCluster} {s : St} {tc' errs s1 tr} errs0 :
  Reconciled h tc s tc' errs s1 tr ->
  exec h (EnsureTrustedClusters_body tc errs0) s
  = (Done (tc', errs0 ++ errs), s1, tr).
Proof.
  intros HR. unfold EnsureTrustedClusters_body. cbv zeta.
  rewrite exec_bind.
  destruct HR as [tc s tc' err s1 tr Hens
                 | tc s tc' err s1 tr e Hens Hup
                 | tc s tc' err s1 tr stored e Hens Hup Hdel
                 | tc s tc' err s1 tr stored u Hens Hup Hdel];
    rewrite Hens; cbn [negb]; rewrite append_error.
  - simpl. rewrite app_nil_r. reflexivity.
  - cbn [bind call]. rewrite exec_Vis, Hup. simpl.
    rewrite app_assoc. reflexivity.
  - cbn [bind call]. rewrite exec_Vis, Hup. cbn [bind call].
    rewrite exec_Vis, Hdel. simpl. rewrite app_assoc. reflexivity.
  - cbn [bind call]. rewrite exec_Vis, Hup. cbn [bind call].
    rewrite exec_Vis, Hdel. simpl. reflexivity.
Qed.

Lemma Reconciled_of_body (tc : TrustedCluster) (s : St) tc' errs1 s1 tr errs0 :
  exec h (EnsureTrustedClusters_body tc errs0) s = (Done (tc', errs1), s1, tr) ->
  exists errs, errs1 = errs0 ++ errs /\ Reconciled h tc s tc' errs s1 tr.
Proof.
  unfold EnsureTrustedClusters_body. cbv zeta.
  rewrite exec_bind.
  destruct (exec h (EnsureTrustedClusters_ensure tc) s)
    as [[[[[tc2 renamed] err] | msg] s2] tr2] eqn:Hens; [| discriminate].
  rewrite append_error.
  destruct renamed; cbn [negb].
  - cbn [bind call]. rewrite exec_Vis.
    destruct (answer h (Presence_UpsertTrustedCluster tc2) s2)
      as [stored | e] eqn:Hup.
    + cbn [bind call]. rewrite exec_Vis.
      destruct (answer h (Presence_DeleteTrustedCluster (GetName tc))
                  (after h (Presence_UpsertTrustedCluster tc2) s2))
        as [u | e] eqn:Hdel; simpl; intros H; inversion H; subst; clear H.
      * exists (error_list err). split; [reflexivity |].
        eapply Reconciled_renamed; eauto.
      * exists (error_list err ++ [e]). rewrite app_assoc. split; [reflexivity |].
        eapply Reconciled_delete_failed; eauto.
    + simpl. intros H; inversion H; subst; clear H.
      exists (error_list err ++ [e]). rewrite app_assoc. split; [reflexivity |].
      eapply Reconciled_store_failed; eauto.
  - simpl. intros H; inversion H; subst; clear H.
    exists (error_list err). rewrite app_nil_r. split; [reflexivity |].
    apply Reconciled_in_place. exact Hens.
Qed.

(** The loop does what [Pass] says. *)
Lemma loop_of_Pass {tcs : list TrustedCluster} {s : St} {tcs' errs s' tr} :
  Pass h tcs s tcs' errs s' tr ->
  forall errs0,
    exec h (EnsureTrustedClusters_loop tcs errs0) s
    = (Done (tcs', errs0 ++ errs), s', tr).
Proof.
  induction 1 as [s | tc rest s tc' errs1 s1 tr1 rest' errs2 s2 tr2 HR _ IH];
    intros errs0; simpl.
  - rewrite app_nil_r. reflexivity.
  - rewrite exec_bind, (body_of_Reconciled errs0 HR).
    rewrite exec_bind, IH. simpl.
    rewrite app_nil_r, app_assoc. reflexivity.
Qed.

Lemma Pass_of_loop (tcs : list TrustedCluster) :
  forall s errs0 tcs' errs1 s' tr,
    exec h (EnsureTrustedClusters_loop tcs errs0) s = (Done (tcs', errs1), s', tr) ->
    exists errs, errs1 = errs0 ++ errs /\ Pass h tcs s tcs' errs s' tr.
Proof.
  induction tcs as [| tc rest IH]; intros s errs0 tcs' errs1 s' tr; simpl.
  - intros H; inversion H; subst; clear H.
    exists []. rewrite app_nil_r. split; [reflexivity | constructor].
  - rewrite exec_bind.
    destruct (exec h (EnsureTrustedClusters_body tc errs0) s)
      as [[[[tc2 errs2] | msg] s2] tr2] eqn:Hbody; [| discriminate].
    apply Reconciled_of_body in Hbody as (own & -> & HR).
    rewrite exec_bind.
    destruct (exec h (EnsureTrustedClusters_loop rest (errs0 ++ own)) s2)
      as [[[[rest2 errs3] | msg] s3] tr3] eqn:Hloop; [| discriminate].
    apply IH in Hloop as (more & -> & HP).
    simpl. intros H; inversion H; subst; clear H.
    exists (own ++ more). rewrite app_nil_r, app_assoc. split; [reflexivity |].
    eapply Pass_cons; eassumption.
Qed.

Lemma NewAggregate_inj (errs1 errs2 : list error) :
  NewAggregate errs1 = NewAggregate errs2 -> errs1 = errs2.
Proof.
  destruct errs1, errs2; simpl; intros H; try discriminate;
    [reflexivity | inversion H; reflexivity].
Qed.

(** C9.  [EnsureTrustedClusters] over a supplied list of descriptors ends
    with the descriptors [tcs'], the state [s'] and the calls [tr] exactly
    when the pass over the list does: every descriptor is reconciled in
    turn, from the state the one before it left and whatever errors were
    collected before it; a rename is committed by storing the descriptor
    under the new name and then deleting the old record, and the errors of
    the ensure step, of the store and of the deletion are collected in
    order.  The error returned is the aggregate of the collected errors,
    and is nil when there is none.  With no descriptor supplied the list
    is loaded first: a failure to load is returned, a loaded list is
    passed over in the same way. *)
Theorem EnsureTrustedClusters_collects (ctx : Context)
    (tc : TrustedCluster) (rest : list TrustedCluster) (s : St)
    (tcs' : list TrustedCluster) (errs : list error) (s' : St) (tr : list Call) :
  (Pass h (tc :: rest) s tcs' errs s' tr <->
   exec h (EnsureTrustedClusters ctx (tc :: rest)) s
   = (Done (tcs', NewAggregate errs), s', tr))
  /\ NewAggregate [] = None
  /\ (forall e, answer h GetTrustedClusters s = Err e ->
        exec h (EnsureTrustedClusters ctx []) s
        = (Done ([], Some e), after h GetTrustedClusters s,
           [mkCall GetTrustedClusters]))
  /\ (forall loaded, answer h GetTrustedClusters s = Ok loaded ->
        Pass h loaded (after h GetTrustedClusters s) tcs' errs s' tr ->
        exec h (EnsureTrustedClusters ctx []) s
        = (Done ([], NewAggregate errs), s', mkCall GetTrustedClusters :: tr)).
Proof.
  split; [| split; [reflexivity | split]].
  - unfold EnsureTrustedClusters. rewrite exec_bind. split.
    + intros HP. rewrite (loop_of_Pass HP []). simpl.
      rewrite app_nil_r. reflexivity.
    + destruct (exec h (EnsureTrustedClusters_loop (tc :: rest) []) s)
        as [[[[tcs2 errs2] | msg] s2] tr2] eqn:Hloop; [| discriminate].
      simpl. intros H; inversion H; subst; clear H.
      apply Pass_of_loop in Hloop as (errs3 & -> & HP). simpl in *.
      match goal with
      | Hagg : NewAggregate _ = NewAggregate _ |- _ =>
          apply NewAggregate_inj in Hagg; subst
      end.
      rewrite app_nil_r. exact HP.
  - intros e He. unfold EnsureTrustedClusters. cbn [bind call].
    rewrite exec_Vis, He. reflexivity.
  - intros loaded Hload HP. unfold EnsureTrustedClusters. cbn [bind call].
    rewrite exec_Vis, Hload. rewrite exec_bind, (loop_of_Pass HP []). simpl.
    rewrite app_nil_r. reflexivity.
Qed.

End PassProperties.

(** On the root with two stored descriptors the first reconciliation fails
    (its proxy denies the token) and the second is carried out all the
    same, rename commit included; the one error is returned as the
    aggregate. *)
Lemma EnsureTrustedClusters_collects_witness :
  Pass (M := Scenario.marshaler) (E := Scenario.externals) InMemory.handle
    [Scenario.T_denied; Scenario.T_temp] Scenario.two_backend
    [Scenario.T_denied; Scenario.T_leaf]
    [AccessDenied "the remote server denied access: invalid cluster token"]
    (final InMemory.handle
       (@EnsureTrustedClusters Scenario.marshaler Scenario.externals
          Scenario.admin [Scenario.T_denied; Scenario.T_temp])
       Scenario.two_backend)
    (calls InMemory.handle
       (@EnsureTrustedClusters Scenario.marshaler Scenario.externals
          Scenario.admin [Scenario.T_denied; Scenario.T_temp])
       Scenario.two_backend).
Proof.
  apply (proj2 (proj1 (@EnsureTrustedClusters_collects Scenario.marshaler
                         Scenario.externals _ InMemory.handle Scenario.admin
                         Scenario.T_denied [Scenario.T_temp]
                         Scenario.two_backend
                         [Scenario.T_denied; Scenario.T_leaf]
                         [AccessDenied
                            "the remote server denied access: invalid cluster token"]
                         _ _))).
  vm_compute. reflexivity.
Defined.

(** ** Applying a descriptor twice *)

Section Twice.

Context {M : CertAuthorityMarshaler} {E : Externals}.
Context {St : Type} (h : Handler St).

Lemma writes_of_reads (tr : list Call) :
  reads_only tr = true -> filter mutates tr = [].
Proof.
  induction tr as [| c tr IH]; simpl; [reflexivity |].
  intros H. apply andb_true_iff in H as [Hc Htr].
  apply negb_true_iff in Hc. rewrite Hc. auto.
Qed.

(** C3, as the code has it.  A call of [UpsertTrustedCluster] that finds no
    descriptor under the submitted name takes the creating path, also when
    an earlier call with the same descriptor has stored it under the
    pinned name.  When the create-only insert of the first returned CA
    then fails (already-exists, for a CA the earlier call imported) the
    call returns that error; the failed create is the only writing call it
    made, and on a backend that keeps its state on reads and on that
    failed create the state after the call is the state before it. *)
Theorem repeated_upsert_fails_on_import (s : St) (ctx : Context)
    (tc : TrustedCluster) (ca0 : CertAuthority) (rest : list CertAuthority)
    (e : error) :
  GetName tc = ""
  \/ (exists e0, answer h (Presence_GetTrustedCluster (GetName tc)) s = Err e0) ->
  let s1 := final h (lookup_existing tc) s in
  (exists u, outcome h (checkLocalRoles (GetRoleMap tc)) s1 = Done (Ok u)) ->
  let s2 := final h (checkLocalRoles (GetRoleMap tc)) s1 in
  outcome h (establishTrust tc) s2 = Done (Ok (ca0 :: rest)) ->
  let s3 := final h (establishTrust tc) s2 in
  let pinned := tc_SetName tc (GetClusterName ca0) in
  let create := CreateCertAuthority (prepare_remote_CA pinned ca0) in
  answer h create s3 = Err e ->
  outcome h (UpsertTrustedCluster ctx tc) s = Done (Err e)
  /\ filter mutates (calls h (UpsertTrustedCluster ctx tc) s) = [mkCall create]
  /\ (reads_keep_state h -> after h create s3 = s3 ->
      final h (UpsertTrustedCluster ctx tc) s = s).
Proof.
  intros Hmissing s1 [u Hroles] s2 Hest s3 pinned create Hcreate.
  apply lookup_existing_missing in Hmissing.
  assert (Hadd : outcome h (addCertAuthorities pinned (ca0 :: rest)) s3
                 = Done (Err e)
                 /\ calls h (addCertAuthorities pinned (ca0 :: rest)) s3
                    = [mkCall create]
                 /\ final h (addCertAuthorities pinned (ca0 :: rest)) s3
                    = after h create s3).
  { simpl. step. fold pinned create. rewrite Hcreate. step. auto. }
  destruct Hadd as (Hao & Hac & Haf).
  assert (Hcs : outcome h (change_state false (GetEnabled tc) tc) s1
                = Done (Err e)
                /\ calls h (change_state false (GetEnabled tc) tc) s1
                   = calls h (checkLocalRoles (GetRoleMap tc)) s1
                     ++ calls h (establishTrust tc) s2 ++ [mkCall create]
                /\ final h (change_state false (GetEnabled tc) tc) s1
                   = after h create s3).
  { unfold change_state.
    destruct (GetEnabled tc);
      rewrite outcome_bind, calls_bind, final_bind, Hroles; fold s2;
      rewrite outcome_bind, calls_bind, final_bind, Hest; fold s3;
      cbv beta iota; fold pinned;
      rewrite outcome_bind, calls_bind, final_bind, Hao, Hac, Haf;
      simpl; rewrite ?app_nil_r; auto. }
  destruct Hcs as (Hco & Hcc & Hcf).
  unfold UpsertTrustedCluster.
  rewrite outcome_bind, calls_bind, final_bind, Hmissing. fold s1.
  rewrite outcome_bind, calls_bind, final_bind, Hco, Hcc, Hcf.
  split; [reflexivity | split].
  - simpl. rewrite ?app_nil_r, !filter_app.
    rewrite (writes_of_reads _ (lookup_existing_reads h tc s)).
    rewrite (writes_of_reads _ (checkLocalRoles_reads h (GetRoleMap tc) s1)).
    rewrite (writes_of_reads _ (establishTrust_reads h tc s2)).
    reflexivity.
  - intros Hkeep Hfail. simpl. rewrite Hfail.
    unfold s3, s2, s1.
    rewrite (reads_only_final h _ Hkeep _ (establishTrust_reads h tc _)).
    rewrite (reads_only_final h _ Hkeep _ (checkLocalRoles_reads h _ _)).
    apply (reads_only_final h _ Hkeep _ (lookup_existing_reads h tc s)).
Qed.

End Twice.

(** Scenario S1 applied a second time: the root already holds the leaf's
    CAs under the pinned name, the call fails with already-exists and the
    backend is what the first call left. *)
Lemma repeated_upsert_fails_on_import_witness :
  outcome InMemory.handle
    (@UpsertTrustedCluster Scenario.marshaler Scenario.externals
       Scenario.admin Scenario.T_temp)
    Scenario.enrolled_backend
  = Done (Err (AlreadyExists "certificate authority already exists"))
  /\ final InMemory.handle
       (@UpsertTrustedCluster Scenario.marshaler Scenario.externals
          Scenario.admin Scenario.T_temp)
       Scenario.enrolled_backend
     = Scenario.enrolled_backend.
Proof.
  pose proof (@repeated_upsert_fails_on_import Scenario.marshaler
                Scenario.externals _ InMemory.handle
                Scenario.enrolled_backend Scenario.admin Scenario.T_temp
                Scenario.leaf_host [Scenario.leaf_user]
                (AlreadyExists "certificate authority already exists")
                (or_intror (ex_intro _ (NotFound "trusted cluster not found")
                                     eq_refl))
                (ex_intro _ tt eq_refl) eq_refl eq_refl) as (Ho & _ & Hf).
  split; [exact Ho | exact (Hf handle_reads_keep_state eq_refl)].
Defined.

(** C3, as stated, fails: scenario S1 applied once succeeds and returns
    the descriptor under its pinned name; applied a second time with the
    same descriptor it fails with already-exists. *)
Lemma upsert_twice_differs_from_once :
  outcome InMemory.handle
    (@UpsertTrustedCluster Scenario.marshaler Scenario.externals
       Scenario.admin Scenario.T_temp)
    (Scenario.root_backend Scenario.leaf_proxy)
  = Done (Ok Scenario.T_leaf)
  /\ final InMemory.handle
       (@UpsertTrustedCluster Scenario.marshaler Scenario.externals
          Scenario.admin Scenario.T_temp)
       (Scenario.root_backend Scenario.leaf_proxy)
     = Scenario.enrolled_backend
  /\ outcome InMemory.handle
       (@UpsertTrustedCluster Scenario.marshaler Scenario.externals
          Scenario.admin Scenario.T_temp)
       Scenario.enrolled_backend
     = Done (Err (AlreadyExists "certificate authority already exists")).
Proof.
  split; [| split]; vm_compute; reflexivity.
Qed.

(** ** The orphan collector *)

(** The loop that resets the [seen] tags leaves the collector as it was:
    it writes to its own copy of each suspect. *)
Lemma reset_seen_unchanged (range : list suspectedOrphanCA) (c : trustController) :
  reset_seen range c = c.
Proof. induction range as [| sus rest IH]; simpl; auto. Qed.

(** Whether a tracked suspect is met again during the scan has no effect
    on what the last loop does with it: a suspect stored as seen and past
    the cutoff is deleted by id, whatever the descriptors are. *)
Lemma sweep_deletes_past_cutoff {St : Type} (h : Handler St)
    (c : trustController) (t : Time) (sus : suspectedOrphanCA)
    (rest next : list suspectedOrphanCA) (s : St) :
  seen sus = true ->
  After t (since sus) = true ->
  (orphanAfter c < Sub t (since sus))%Z ->
  calls h (sweep c t (sus :: rest) next) s
  = mkCall (DeleteCertAuthority (GetID (sus_ca sus)))
    :: calls h (sweep c t rest next)
         (after h (DeleteCertAuthority (GetID (sus_ca sus))) s).
Proof.
  intros Hseen Hafter Hcut. simpl. rewrite Hseen, Hafter. simpl.
  apply Z.ltb_lt in Hcut. rewrite Hcut. step. reflexivity.
Qed.

(** C1 fails on the code.  Scenario S5 with the descriptor recreated: the
    first cycle, at time 100, finds the two CAs of "ghost" uncovered and
    tracks them.  A descriptor named "ghost" is then stored and stays
    stored.  The second cycle, at time 200 and past the grace window of
    50, meets no orphan candidate (the descriptor covers both CAs), and
    yet deletes both CAs: the suspects are still tagged as seen. *)
Theorem cycle_deletes_covered_CA :
  outcome InMemory.handle
    (@cycle Scenario.marshaler Scenario.externals
       Scenario.collector Scenario.admin 100%Z)
    Scenario.ghost_backend
  = Done (Scenario.tracking_collector, None)
  /\ final InMemory.handle
       (@cycle Scenario.marshaler Scenario.externals
          Scenario.collector Scenario.admin 100%Z)
       Scenario.ghost_backend
     = Scenario.ghost_backend
  /\ InMemory.trusted_clusters Scenario.claimed_backend = [Scenario.T_ghost]
  /\ InMemory.cert_authorities Scenario.claimed_backend
     = [(Scenario.root_host, true); (Scenario.root_user, true);
        (Scenario.ghost_host, true); (Scenario.ghost_user, true)]
  /\ outcome InMemory.handle
       (@cycle Scenario.marshaler Scenario.externals
          Scenario.tracking_collector Scenario.admin 200%Z)
       Scenario.claimed_backend
     = Done ({| orphanAfter := 50%Z; suspectedOrphanCAs := [] |}, None)
  /\ calls InMemory.handle
       (@cycle Scenario.marshaler Scenario.externals
          Scenario.tracking_collector Scenario.admin 200%Z)
       Scenario.claimed_backend
     = [mkCall GetDomainName;
        mkCall AuthServices_GetTrustedClusters;
        mkCall (ActivateCertAuthority {| Type_ := UserCA; DomainName := "ghost" |});
        mkCall (GetCertAuthority {| Type_ := UserCA; DomainName := "ghost" |} false);
        mkCall (GetCertAuthority {| Type_ := HostCA; DomainName := "ghost" |} false);
        mkCall (UpsertReverseTunnel
                  {| rt_name := "ghost"; rt_dial_addrs := ["g:3024"] |});
        mkCall (GetCertAuthorities UserCA false);
        mkCall (GetCertAuthorities HostCA false);
        mkCall (DeleteCertAuthority {| Type_ := UserCA; DomainName := "ghost" |});
        mkCall (DeleteCertAuthority {| Type_ := HostCA; DomainName := "ghost" |})]
  /\ InMemory.cert_authorities
       (final InMemory.handle
          (@cycle Scenario.marshaler Scenario.externals
             Scenario.tracking_collector Scenario.admin 200%Z)
          Scenario.claimed_backend)
     = [(Scenario.root_host, true); (Scenario.root_user, true)]
  /\ InMemory.trusted_clusters
       (final InMemory.handle
          (@cycle Scenario.marshaler Scenario.externals
             Scenario.tracking_collector Scenario.admin 200%Z)
          Scenario.claimed_backend)
     = [Scenario.T_ghost].
Proof.
  repeat split; vm_compute; reflexivity.
Qed.

(** * Further properties *)

(** ** What the methods touch *)

Lemma OpKind_eqb_eq (a b : OpKind) : OpKind_eqb a b = true -> a = b.
Proof. destruct a, b; simpl; intros H; try discriminate; reflexivity. Qed.

Lemma OpKind_eqb_refl (a : OpKind) : OpKind_eqb a a = true.
Proof. destruct a; reflexivity. Qed.

Lemma kind_in_weaken (ks ks' : list OpKind) (c : Call) :
  forallb (fun k => existsb (OpKind_eqb k) ks') ks = true ->
  kind_in ks c = true -> kind_in ks' c = true.
Proof.
  unfold kind_in. intros Hsub Hin.
  apply existsb_exists in Hin as (k & Hk & Heq).
  apply OpKind_eqb_eq in Heq. subst k.
  rewrite forallb_forall in Hsub. apply Hsub. exact Hk.
Qed.

Section Footprint.

Context {St : Type} (h : Handler St).

Lemma touches_Ret {A : Type} (ks : list OpKind) (a : A) : touches h ks (Ret a).
Proof. intros s. reflexivity. Qed.

Lemma touches_Panic {A : Type} (ks : list OpKind) (msg : string) :
  touches h ks (@Panic A msg).
Proof. intros s. reflexivity. Qed.

Lemma touches_Vis {Y A : Type} (ks : list OpKind) (op : Op Y)
    (k : Result Y -> Prog A) :
  kind_in ks (mkCall op) = true ->
  (forall r, touches h ks (k r)) ->
  touches h ks (Vis op k).
Proof.
  intros Hop Hk s. rewrite calls_Vis. simpl. rewrite Hop. apply Hk.
Qed.

Lemma touches_call {Y : Type} (ks : list OpKind) (op : Op Y) :
  kind_in ks (mkCall op) = true -> touches h ks (call op).
Proof. intros Hop. apply touches_Vis; [exact Hop | intros r; apply touches_Ret]. Qed.

Lemma touches_bind {A B : Type} (ks : list OpKind) (p : Prog A)
    (f : A -> Prog B) :
  touches h ks p -> (forall a, touches h ks (f a)) -> touches h ks (bind p f).
Proof.
  intros Hp Hf s. rewrite calls_bind.
  destruct (outcome h p s) as [a | msg].
  - rewrite forallb_app, Hp, Hf. reflexivity.
  - apply Hp.
Qed.

Lemma touches_weaken {A : Type} (ks ks' : list OpKind) (p : Prog A) :
  touches h ks p ->
  forallb (fun k => existsb (OpKind_eqb k) ks') ks = true ->
  touches h ks' p.
Proof.
  intros Hp Hsub s. specialize (Hp s).
  rewrite forallb_forall in Hp. apply forallb_forall. intros c Hc.
  eapply kind_in_weaken; [exact Hsub | apply Hp; exact Hc].
Qed.

End Footprint.

Create HintDb touch.

(** Walk through a method body, call by call. *)
Ltac touch :=
  repeat first
    [ apply touches_Ret
    | apply touches_Panic
    | apply touches_call; reflexivity
    | apply touches_Vis; [reflexivity | intro]
    | (eapply touches_weaken; [solve [eauto with touch] | reflexivity])
    | apply touches_bind; [| intro]
    | match goal with
      | |- touches _ _ (match ?x with _ => _ end) => destruct x
      | |- touches _ _ (if ?b then _ else _) => destruct b
      end ].

Section MethodFootprints.

Context {M : CertAuthorityMarshaler} {E : Externals}.
Context {St : Type} (h : Handler St).

Lemma activateCertAuthority_touches (t : TrustedCluster) :
  touches h [KActivateCA] (activateCertAuthority t).
Proof. unfold activateCertAuthority. touch. Qed.

Lemma deactivateCertAuthority_touches (t : TrustedCluster) :
  touches h [KDeactivateCA] (deactivateCertAuthority t).
Proof. unfold deactivateCertAuthority. touch. Qed.

Lemma getCertAuthorities_touches (t : TrustedCluster) :
  touches h [KGetCA] (getCertAuthorities t).
Proof. unfold getCertAuthorities. touch. Qed.

Lemma createReverseTunnel_touches (t : TrustedCluster) :
  touches h [KUpsertTunnel] (createReverseTunnel t).
Proof. unfold createReverseTunnel. touch. Qed.

Lemma checkLocalRoles_inner_touches (mapping : RoleMapping) (locals : list string) :
  touches h [KGetRole] (checkLocalRoles_inner mapping locals).
Proof.
  induction locals as [| localRole rest IH]; simpl; [touch |].
  destruct (ContainsExpansion localRole); [exact IH |].
  apply touches_Vis; [reflexivity | intros [u | e]]; [exact IH | touch].
Qed.

Lemma checkLocalRoles_touches (roleMap : RoleMap) :
  touches h [KGetRole] (checkLocalRoles roleMap).
Proof.
  induction roleMap as [| mapping rest IH]; simpl; [touch |].
  apply touches_bind; [apply checkLocalRoles_inner_touches | intros [u | e]];
    [exact IH | touch].
Qed.

Lemma sendValidateRequestToProxy_touches (host : string)
    (req : ValidateTrustedClusterRequest) :
  touches h [KNewClient; KPostJSON] (sendValidateRequestToProxy host req).
Proof. unfold sendValidateRequestToProxy. touch. Qed.

Lemma addCertAuthorities_touches (tc : TrustedCluster) (cas : list CertAuthority) :
  touches h [KCreateCA] (addCertAuthorities tc cas).
Proof.
  induction cas as [| ca rest IH]; simpl; [touch |].
  apply touches_Vis; [reflexivity | intros [u | e]]; [exact IH | touch].
Qed.

#[local] Hint Resolve activateCertAuthority_touches
  deactivateCertAuthority_touches getCertAuthorities_touches
  createReverseTunnel_touches checkLocalRoles_touches
  sendValidateRequestToProxy_touches addCertAuthorities_touches : touch.

Lemma establishTrust_touches (tc : TrustedCluster) :
  touches h [KGetDomainName; KGetCAs; KNewClient; KPostJSON] (establishTrust tc).
Proof. unfold establishTrust. touch. Qed.

#[local] Hint Resolve establishTrust_touches : touch.

Lemma ensureEnabled_touches (tc : TrustedCluster) :
  touches h [KActivateCA; KGetCA; KGetDomainName; KGetCAs; KNewClient;
             KPostJSON; KCreateCA; KUpsertTunnel]
    (ensureEnabled tc).
Proof. unfold ensureEnabled. cbv zeta. touch. Qed.

Lemma ensureDisabled_touches (tc : TrustedCluster) :
  touches h [KDeactivateCA; KDeleteTunnel] (ensureDisabled tc).
Proof. unfold ensureDisabled. touch. Qed.

#[local] Hint Resolve ensureEnabled_touches ensureDisabled_touches : touch.

(** The facade methods one pass of the ensure loop may call. *)
Lemma EnsureTrustedClusters_body_touches (tc : TrustedCluster) (errs : list error) :
  touches h [KActivateCA; KDeactivateCA; KGetCA; KGetDomainName; KGetCAs;
             KNewClient; KPostJSON; KCreateCA; KUpsertTunnel; KDeleteTunnel;
             KPresenceUpsert; KPresenceDelete]
    (EnsureTrustedClusters_body tc errs).
Proof.
  unfold EnsureTrustedClusters_body, EnsureTrustedClusters_ensure. cbv zeta.
  touch.
Qed.

Lemma EnsureTrustedClusters_loop_touches (tcs : list TrustedCluster) :
  forall errs,
    touches h [KActivateCA; KDeactivateCA; KGetCA; KGetDomainName; KGetCAs;
               KNewClient; KPostJSON; KCreateCA; KUpsertTunnel; KDeleteTunnel;
               KPresenceUpsert; KPresenceDelete]
      (EnsureTrustedClusters_loop tcs errs).
Proof.
  induction tcs as [| tc rest IH]; intros errs; simpl; [touch |].
  apply touches_bind; [apply EnsureTrustedClusters_body_touches |].
  intros [tc' errs']. apply touches_bind; [apply IH |].
  intros [rest' errs'']. touch.
Qed.

Lemma EnsureTrustedClusters_touches_all (ctx : Context) (tcs : list TrustedCluster) :
  touches h [KGetTrustedClusters; KActivateCA; KDeactivateCA; KGetCA;
             KGetDomainName; KGetCAs; KNewClient; KPostJSON; KCreateCA;
             KUpsertTunnel; KDeleteTunnel; KPresenceUpsert; KPresenceDelete]
    (EnsureTrustedClusters ctx tcs).
Proof.
  pose proof EnsureTrustedClusters_loop_touches as Hloop.
  unfold EnsureTrustedClusters. destruct tcs as [| tc rest].
  - apply touches_bind; [touch | intros [loaded | e]]; [| touch].
    apply touches_bind;
      [eapply touches_weaken; [apply Hloop | reflexivity] | intros [? ?]; touch].
  - apply touches_bind;
      [eapply touches_weaken; [apply Hloop | reflexivity] | intros [? ?]; touch].
Qed.

End MethodFootprints.

(** ** What a collector cycle deletes and tracks *)

Lemma CA_deletions_app (tr1 tr2 : list Call) :
  CA_deletions (tr1 ++ tr2) = CA_deletions tr1 ++ CA_deletions tr2.
Proof. apply flat_map_app. Qed.

Lemma CA_deletions_cons (c : Call) (tr : list Call) :
  CA_deletions (c :: tr) = deleted_CA c ++ CA_deletions tr.
Proof. reflexivity. Qed.

Lemma no_deletion_outside_KDeleteCA (ks : list OpKind) (c : Call) :
  existsb (OpKind_eqb KDeleteCA) ks = false ->
  kind_in ks c = true -> deleted_CA c = [].
Proof.
  intros Hks Hin. destruct c as [Y op]. unfold kind_in in Hin.
  destruct op; try reflexivity.
  simpl in Hin. rewrite Hks in Hin. discriminate.
Qed.

Section Collector.

Context {M : CertAuthorityMarshaler} {E : Externals}.
Context {St : Type} (h : Handler St).

Lemma touches_no_deletions {A : Type} (ks : list OpKind) (p : Prog A) :
  touches h ks p ->
  existsb (OpKind_eqb KDeleteCA) ks = false ->
  forall s, CA_deletions (calls h p s) = [].
Proof.
  intros Hp Hks s. specialize (Hp s).
  induction (calls h p s) as [| c tr IH]; [reflexivity |].
  simpl in *. apply andb_true_iff in Hp as [Hc Htr].
  rewrite (no_deletion_outside_KDeleteCA ks c Hks Hc). auto.
Qed.

Lemma scan_touches (domainName : string) (tcs : list TrustedCluster)
    (c : trustController) (t : Time) (caTypes : list CertAuthType) :
  forall next, touches h [KGetCAs] (scan domainName tcs c t caTypes next).
Proof.
  induction caTypes as [| caType rest IH]; intros next; simpl; [touch |].
  apply touches_Vis; [reflexivity | intros [cas | e]]; [apply IH | touch].
Qed.

(** The last loop: what it keeps and what it deletes. *)
Lemma sweep_result (c : trustController) (t : Time)
    (range : list suspectedOrphanCA) :
  forall next s,
    outcome h (sweep c t range next) s
    = Done (next ++ filter (fun sus => seen sus && negb (past_cutoff c t sus)) range)
    /\ CA_deletions (calls h (sweep c t range next) s)
       = map (fun sus => GetID (sus_ca sus)) (filter (past_cutoff c t) range).
Proof.
  induction range as [| sus rest IH]; intros next s; simpl.
  - rewrite app_nil_r. split; reflexivity.
  - assert (Hpc : past_cutoff c t sus
                  = seen sus && (After t (since sus)
                                 && (orphanAfter c <? Sub t (since sus))%Z)).
    { unfold past_cutoff. rewrite andb_assoc. reflexivity. }
    rewrite Hpc.
    destruct (seen sus); simpl.
    + destruct (After t (since sus) && (orphanAfter c <? Sub t (since sus))%Z);
        simpl.
      * step.
        destruct (IH next (after h (DeleteCertAuthority (GetID (sus_ca sus))) s))
          as [Ho Hd].
        rewrite Ho. unfold CA_deletions in *. simpl. rewrite Hd.
        split; reflexivity.
      * destruct (IH (next ++ [sus]) s) as [Ho Hd].
        rewrite Ho, Hd, <- app_assoc. split; reflexivity.
    + apply IH.
Qed.

(** X1.  The CA deletions a collector cycle asks for.  When the cycle ends
    without an error, the ids it asks the CA store to delete are exactly
    the ids of the suspects that were tracked before the cycle, are stored
    as seen and are past the cutoff at the cycle's time, in the order
    tracked; a cycle that ends with an error or panics has asked for no
    CA deletion. *)
Theorem cycle_deletions (c : trustController) (ctx : Context) (t : Time) (s : St) :
  CA_deletions (calls h (cycle c ctx t) s)
  = match outcome h (cycle c ctx t) s with
    | Done (_, None) =>
        map (fun sus => GetID (sus_ca sus))
          (filter (past_cutoff c t) (suspectedOrphanCAs c))
    | _ => []
    end.
Proof.
  unfold cycle. step.
  destruct (answer h GetDomainName s) as [domainName | e]; [| reflexivity].
  step.
  destruct (answer h AuthServices_GetTrustedClusters _) as [tcs | e];
    [| reflexivity].
  rewrite calls_bind, outcome_bind.
  match goal with
  | |- context [outcome h (EnsureTrustedClusters ctx tcs) ?s0] =>
      pose proof (touches_no_deletions _ _
                    (EnsureTrustedClusters_touches_all h ctx tcs) eq_refl s0) as Hens;
      set (s2 := final h (EnsureTrustedClusters ctx tcs) s0) in *;
      destruct (outcome h (EnsureTrustedClusters ctx tcs) s0)
        as [[tcs' err] | msg]
  end.
  - rewrite reset_seen_unchanged.
    rewrite calls_bind, outcome_bind.
    pose proof (touches_no_deletions _ _
                  (scan_touches domainName tcs' c t [UserCA; HostCA] []) eq_refl s2)
      as Hscan.
    set (s3 := final h (scan domainName tcs' c t [UserCA; HostCA] []) s2) in *.
    destruct (outcome h (scan domainName tcs' c t [UserCA; HostCA] []) s2)
      as [[next | e] | msg].
    + rewrite calls_bind, outcome_bind.
      destruct (sweep_result c t (suspectedOrphanCAs c) next s3) as [Ho Hd].
      rewrite Ho. cbv beta iota.
      rewrite !CA_deletions_cons, !CA_deletions_app, Hens, Hscan, Hd.
      autorewrite with exec. cbn [CA_deletions flat_map deleted_CA mkCall projT2 app].
      rewrite ?app_nil_r. reflexivity.
    + cbv beta iota.
      rewrite !CA_deletions_cons, !CA_deletions_app, Hens, Hscan. reflexivity.
    + rewrite !CA_deletions_cons, !CA_deletions_app, Hens, Hscan. reflexivity.
  - rewrite !CA_deletions_cons, Hens. reflexivity.
Qed.

End Collector.

Section CollectorSuspects.

Context {M : CertAuthorityMarshaler} {E : Externals}.
Context {St : Type} (h : Handler St).

(** What the loop over the CAs of one type adds to the next suspects. *)
Lemma Processing_adds (domainName : string) (tcs : list TrustedCluster)
    (c : trustController) (t : Time) (cas : list CertAuthority) :
  forall next,
  exists added,
    fold_left (Processing_body domainName tcs c t) cas next = next ++ added
    /\ Forall (newly_tracked domainName tcs c t) added.
Proof.
  induction cas as [| ca cas IH]; intros next; simpl.
  - exists []. rewrite app_nil_r. split; constructor.
  - unfold Processing_body at 2.
    destruct (String.eqb (GetClusterName ca) domainName) eqn:Hlocal;
      [apply IH |].
    destruct (claimed_by ca tcs) eqn:Hclaimed; [apply IH |].
    destruct (already_tracked ca (suspectedOrphanCAs c)) eqn:Htracked;
      [apply IH |].
    destruct (IH (next ++ [{| sus_ca := ca; since := t; seen := true |}]))
      as (added & Heq & Hall).
    exists ({| sus_ca := ca; since := t; seen := true |} :: added).
    rewrite Heq, <- app_assoc. split; [reflexivity |].
    constructor; [| exact Hall].
    unfold newly_tracked. simpl. auto.
Qed.

Lemma scan_adds (domainName : string) (tcs : list TrustedCluster)
    (c : trustController) (t : Time) (caTypes : list CertAuthType) :
  forall next s next',
    outcome h (scan domainName tcs c t caTypes next) s = Done (Ok next') ->
    exists added,
      next' = next ++ added
      /\ Forall (newly_tracked domainName tcs c t) added.
Proof.
  induction caTypes as [| caType rest IH]; intros next s next'; simpl.
  - intros H. inversion H; subst. exists []. rewrite app_nil_r.
    split; constructor.
  - step.
    destruct (answer h (GetCertAuthorities caType false) s) as [cas | e];
      [| step; discriminate].
    intros H. apply IH in H as (added2 & -> & Hall2).
    destruct (Processing_adds domainName tcs c t cas next)
      as (added1 & -> & Hall1).
    exists (added1 ++ added2). rewrite app_assoc. split; [reflexivity |].
    apply Forall_app. split; assumption.
Qed.

(** X2.  A cycle that ends with an error (the local domain, the
    descriptors or the CAs of a type could not be loaded) hands back the
    suspect set and the grace window it was given. *)
Theorem cycle_error_keeps_suspects (c c' : trustController) (ctx : Context)
    (t : Time) (s : St) (e : error) :
  outcome h (cycle c ctx t) s = Done (c', Some e) -> c' = c.
Proof.
  unfold cycle. step.
  destruct (answer h GetDomainName s) as [domainName | e0];
    [| step; intros H; inversion H; reflexivity].
  step.
  destruct (answer h AuthServices_GetTrustedClusters _) as [tcs | e0];
    [| step; intros H; inversion H; reflexivity].
  rewrite outcome_bind.
  destruct (outcome h (EnsureTrustedClusters ctx tcs) _) as [[tcs' err] | msg];
    [| discriminate].
  rewrite reset_seen_unchanged, outcome_bind.
  destruct (outcome h (scan domainName tcs' c t [UserCA; HostCA] []) _)
    as [[next | e0] | msg].
  - rewrite outcome_bind.
    match goal with
    | |- context [outcome h (sweep c t ?r next) ?s0] =>
        destruct (sweep_result h c t r next s0) as [Ho _]; rewrite Ho
    end.
    step. discriminate.
  - step. intros H; inversion H; reflexivity.
  - discriminate.
Qed.

(** X3.  The suspect set a cycle leaves when it ends without an error:
    first the suspects it added, each a CA that is not of the local
    domain, that none of the descriptors (as the ensure loop left them)
    covers and that was not tracked before, tagged seen and dated with
    the cycle's time; then the suspects tracked before that are stored as
    seen and not past the cutoff, in their order.  The grace window is
    unchanged. *)
Theorem cycle_next_suspects (c c' : trustController) (ctx : Context)
    (t : Time) (s : St) (domainName : string)
    (tcs tcs' : list TrustedCluster) (err : option error) :
  answer h GetDomainName s = Ok domainName ->
  answer h AuthServices_GetTrustedClusters (after h GetDomainName s) = Ok tcs ->
  outcome h (EnsureTrustedClusters ctx tcs)
    (after h AuthServices_GetTrustedClusters (after h GetDomainName s))
  = Done (tcs', err) ->
  outcome h (cycle c ctx t) s = Done (c', None) ->
  orphanAfter c' = orphanAfter c
  /\ exists added,
       suspectedOrphanCAs c'
       = added ++ filter (fun sus => seen sus && negb (past_cutoff c t sus))
                    (suspectedOrphanCAs c)
       /\ Forall (newly_tracked domainName tcs' c t) added.
Proof.
  intros Hdom Htcs Hens. unfold cycle. step. rewrite Hdom. step. rewrite Htcs.
  rewrite outcome_bind, Hens, reset_seen_unchanged, outcome_bind.
  destruct (outcome h (scan domainName tcs' c t [UserCA; HostCA] []) _)
    as [[next | e0] | msg] eqn:Hscan; [| step; discriminate | discriminate].
  apply scan_adds in Hscan as (added & -> & Hall).
  rewrite outcome_bind.
  match goal with
  | |- context [outcome h (sweep c t ?r ?n) ?s0] =>
      destruct (sweep_result h c t r n s0) as [Ho _]; rewrite Ho
  end.
  step. intros H; inversion H; subst; clear H. simpl.
  split; [reflexivity |]. exists added. split; [reflexivity | exact Hall].
Qed.

(** X4.  Every suspect a collector tracks is tagged seen: a cycle keeps
    this, whatever the backend answers, so the branch of the last loop
    that drops an unseen suspect is never taken. *)
Theorem cycle_keeps_seen_tag (c c' : trustController) (ctx : Context)
    (t : Time) (s : St) (err : option error) :
  Forall (fun sus => seen sus = true) (suspectedOrphanCAs c) ->
  outcome h (cycle c ctx t) s = Done (c', err) ->
  Forall (fun sus => seen sus = true) (suspectedOrphanCAs c').
Proof.
  intros Hseen. unfold cycle. step.
  destruct (answer h GetDomainName s) as [domainName | e0];
    [| step; intros H; inversion H; subst; exact Hseen].
  step.
  destruct (answer h AuthServices_GetTrustedClusters _) as [tcs | e0];
    [| step; intros H; inversion H; subst; exact Hseen].
  rewrite outcome_bind.
  destruct (outcome h (EnsureTrustedClusters ctx tcs) _) as [[tcs' e1] | msg];
    [| discriminate].
  rewrite reset_seen_unchanged, outcome_bind.
  destruct (outcome h (scan domainName tcs' c t [UserCA; HostCA] []) _)
    as [[next | e0] | msg] eqn:Hscan;
    [| step; intros H; inversion H; subst; exact Hseen | discriminate].
  apply scan_adds in Hscan as (added & -> & Hall).
  rewrite outcome_bind.
  match goal with
  | |- context [outcome h (sweep c t ?r ?n) ?s0] =>
      destruct (sweep_result h c t r n s0) as [Ho _]; rewrite Ho
  end.
  step. intros H; inversion H; subst; clear H. simpl.
  apply Forall_app. split.
  - eapply Forall_impl; [| exact Hall]. intros sus (_ & Hs & _). exact Hs.
  - apply Forall_forall. intros sus Hin. apply filter_In in Hin as [Hin _].
    rewrite Forall_forall in Hseen. apply Hseen. exact Hin.
Qed.

End CollectorSuspects.

(** ** Local roles of a role map *)

Section LocalRoles.

Context {E : Externals}.
Context {St : Type} (h : Handler St).

(** A property of the backend's state that role lookups keep. *)
Variable I : St -> Prop.
Hypothesis lookups_keep_I : forall r st, I st -> I (after h (GetRole r) st).

Lemma checkLocalRoles_inner_keeps_I (mapping : RoleMapping) (locals : list string) :
  forall s, I s -> I (final h (checkLocalRoles_inner mapping locals) s).
Proof.
  induction locals as [| localRole rest IH]; intros s Hs; simpl; [exact Hs |].
  destruct (ContainsExpansion localRole); [apply IH; exact Hs |].
  step. destruct (answer h (GetRole localRole) s) as [u | e].
  - apply IH. apply lookups_keep_I. exact Hs.
  - destruct (IsNotFound e); step; apply lookups_keep_I; exact Hs.
Qed.

Lemma checkLocalRoles_inner_found (mapping : RoleMapping) (locals : list string) :
  (forall r st, I st ->
                In r (filter (fun r => negb (ContainsExpansion r)) locals) ->
                exists u, answer h (GetRole r) st = Ok u) ->
  forall s, I s ->
    outcome h (checkLocalRoles_inner mapping locals) s = Done (Ok tt)
    /\ calls h (checkLocalRoles_inner mapping locals) s
       = map (fun r => mkCall (GetRole r))
           (filter (fun r => negb (ContainsExpansion r)) locals).
Proof.
  induction locals as [| localRole rest IH]; intros Hall s Hs; simpl.
  - split; reflexivity.
  - simpl in Hall. destruct (ContainsExpansion localRole) eqn:Hexp; simpl in *.
    + apply IH; assumption.
    + step. destruct (Hall localRole s Hs (or_introl eq_refl)) as [u Hu].
      rewrite Hu.
      destruct (IH (fun r st Hst Hin => Hall r st Hst (or_intror Hin))
                  (after h (GetRole localRole) s)
                  (lookups_keep_I localRole s Hs)) as [Ho Hc].
      rewrite Ho, Hc. split; reflexivity.
Qed.

(** X5.  When every local role of the role map that is no template
    expansion exists, [checkLocalRoles] succeeds, and the roles it looked
    up are exactly those, once per occurrence and in the order of the
    map: a template expansion is never looked up.  ([I] is any property of
    the backend's state that role lookups keep.) *)
Theorem checkLocalRoles_found (roleMap : RoleMap) :
  (forall r st, I st -> In r (looked_up_roles roleMap) ->
                exists u, answer h (GetRole r) st = Ok u) ->
  forall s, I s ->
    outcome h (checkLocalRoles roleMap) s = Done (Ok tt)
    /\ calls h (checkLocalRoles roleMap) s
       = map (fun r => mkCall (GetRole r)) (looked_up_roles roleMap).
Proof.
  unfold looked_up_roles.
  induction roleMap as [| mapping rest IH]; intros Hall s Hs; simpl.
  - split; reflexivity.
  - simpl in Hall. rewrite filter_app, map_app.
    assert (Hin : forall r st, I st ->
               In r (filter (fun r => negb (ContainsExpansion r)) (Local_ mapping)) ->
               exists u, answer h (GetRole r) st = Ok u).
    { intros r st Hst Hr. apply Hall; [exact Hst |].
      rewrite filter_app. apply in_or_app. left. exact Hr. }
    destruct (checkLocalRoles_inner_found mapping (Local_ mapping) Hin s Hs)
      as [Ho Hc].
    rewrite outcome_bind, calls_bind, Ho, Hc.
    assert (Hrest : forall r st, I st ->
               In r (filter (fun r => negb (ContainsExpansion r))
                       (flat_map Local_ rest)) ->
               exists u, answer h (GetRole r) st = Ok u).
    { intros r st Hst Hr. apply Hall; [exact Hst |].
      rewrite filter_app. apply in_or_app. right. exact Hr. }
    destruct (IH Hrest
                (final h (checkLocalRoles_inner mapping (Local_ mapping)) s)
                (checkLocalRoles_inner_keeps_I mapping (Local_ mapping) s Hs))
      as [Ho' Hc'].
    rewrite Ho', Hc'. split; reflexivity.
Qed.

Lemma checkLocalRoles_inner_missing (mapping : RoleMapping) (locals : list string) :
  forall s, I s ->
    (outcome h (checkLocalRoles_inner mapping locals) s = Done (Ok tt)
     /\ forall r, In r (filter (fun r => negb (ContainsExpansion r)) locals) ->
                  exists s0 u, I s0 /\ answer h (GetRole r) s0 = Ok u)
    \/ exists e, outcome h (checkLocalRoles_inner mapping locals) s = Done (Err e)
                 /\ not_found_if_lookups_are h e.
Proof.
  induction locals as [| localRole rest IH]; intros s Hs; simpl.
  - left. split; [reflexivity | intros r []].
  - destruct (ContainsExpansion localRole) eqn:Hexp; simpl;
      [apply IH; exact Hs |].
    step. destruct (answer h (GetRole localRole) s) as [u | e0] eqn:Hans.
    + destruct (IH (after h (GetRole localRole) s)
                  (lookups_keep_I localRole s Hs)) as [[Ho Hall] | Herr].
      * left. split; [exact Ho |].
        intros r [<- | Hr]; [exists s, u; auto | apply Hall; exact Hr].
      * right. exact Herr.
    + right. destruct (IsNotFound e0) eqn:Hnf; step.
      * eexists. split; [reflexivity |]. intros _. reflexivity.
      * exists e0. split; [reflexivity |]. intros Hkind.
        rewrite (Hkind _ _ _ Hans) in Hnf. discriminate.
Qed.

Lemma checkLocalRoles_missing_cases (roleMap : RoleMap) :
  forall s, I s ->
    (outcome h (checkLocalRoles roleMap) s = Done (Ok tt)
     /\ forall r, In r (looked_up_roles roleMap) ->
                  exists s0 u, I s0 /\ answer h (GetRole r) s0 = Ok u)
    \/ exists e, outcome h (checkLocalRoles roleMap) s = Done (Err e)
                 /\ not_found_if_lookups_are h e.
Proof.
  unfold looked_up_roles.
  induction roleMap as [| mapping rest IH]; intros s Hs; simpl.
  - left. split; [reflexivity | intros r []].
  - rewrite outcome_bind.
    destruct (checkLocalRoles_inner_missing mapping (Local_ mapping) s Hs)
      as [[Ho Hall] | (e & Ho & He)]; rewrite Ho.
    + destruct (IH (final h (checkLocalRoles_inner mapping (Local_ mapping)) s)
                  (checkLocalRoles_inner_keeps_I mapping (Local_ mapping) s Hs))
        as [[Ho' Hall'] | Herr].
      * left. split; [exact Ho' |].
        intros r Hr. rewrite filter_app in Hr.
        apply in_app_or in Hr as [Hr | Hr]; [apply Hall | apply Hall']; exact Hr.
      * right. exact Herr.
    + right. exists e. split; [reflexivity | exact He].
Qed.

(** X6.  When some local role of the role map that is no template
    expansion cannot be read, [checkLocalRoles] fails; and when every
    failing lookup of the backend is a not-found, so is the error
    returned.  ([I] is any property of the backend's state that role
    lookups keep.) *)
Theorem checkLocalRoles_missing (roleMap : RoleMap) (r : string) :
  In r (looked_up_roles roleMap) ->
  (forall st, I st -> exists e, answer h (GetRole r) st = Err e) ->
  forall s, I s ->
    exists e, outcome h (checkLocalRoles roleMap) s = Done (Err e)
              /\ ((forall r0 s0 e0, answer h (GetRole r0) s0 = Err e0 ->
                                    IsNotFound e0 = true) ->
                  IsNotFound e = true).
Proof.
  intros Hin Hmissing s Hs.
  destruct (checkLocalRoles_missing_cases roleMap s Hs) as [[_ Hall] | Herr].
  - destruct (Hall r Hin) as (s0 & u & Hs0 & Hok).
    destruct (Hmissing s0 Hs0) as [e He]. rewrite He in Hok. discriminate.
  - exact Herr.
Qed.

End LocalRoles.

(** ** The handshake, seen from the initiator *)

Section Handshake.

Context {M : CertAuthorityMarshaler} {E : Externals}.
Context {St : Type} (h : Handler St).

Lemma check_key_pairs_None (domainName : string) (keyPairs : list TLSKeyPair) :
  check_key_pairs domainName keyPairs = None ->
  Forall (fun keyPair =>
            exists cert name,
              ParseCertificatePEM (Cert keyPair) = Ok cert
              /\ tlsca_ClusterName (Subject cert) = Ok name
              /\ String.eqb name domainName = false)
         keyPairs.
Proof.
  induction keyPairs as [| keyPair rest IH]; simpl; [constructor |].
  destruct (ParseCertificatePEM (Cert keyPair)) as [cert |] eqn:Hp;
    [| discriminate].
  destruct (tlsca_ClusterName (Subject cert)) as [name |] eqn:Hn;
    [| discriminate].
  destruct (String.eqb name domainName) eqn:Hd; [discriminate |].
  intros H. constructor; [| apply IH; exact H].
  exists cert, name. auto.
Qed.

Lemma check_remote_CAs_None (domainName : string) (CAs : list CertAuthority) :
  check_remote_CAs domainName CAs = None ->
  Forall (certificates_name_another domainName) CAs.
Proof.
  induction CAs as [| ca rest IH]; simpl; [constructor |].
  destruct (check_key_pairs domainName (GetTLSKeyPairs ca)) eqn:Hk;
    [discriminate |].
  intros H. constructor; [| apply IH; exact H].
  apply check_key_pairs_None. exact Hk.
Qed.

(** X7.  The CAs [establishTrust] returns never carry a TLS certificate of
    the local cluster: every certificate of every returned CA parses and
    names a cluster other than the local domain.  (A returned CA without
    TLS key pairs is not examined.) *)
Theorem establishTrust_rejects_local_name (tc : TrustedCluster) (s : St)
    (domainName : string) (cas : list CertAuthority) :
  answer h GetDomainName s = Ok domainName ->
  outcome h (establishTrust tc) s = Done (Ok cas) ->
  Forall (certificates_name_another domainName) cas.
Proof.
  intros Hdom. unfold establishTrust. step. rewrite Hdom. step.
  destruct (answer h (GetCertAuthorities HostCA false) _) as [local | e];
    [| step; discriminate].
  cbv beta iota zeta. rewrite outcome_bind.
  destruct (outcome h (sendValidateRequestToProxy _ _) _)
    as [[resp | e] | msg]; [| | discriminate].
  - destruct (check_remote_CAs domainName (resp_CAs resp)) eqn:Hcheck;
      step; [discriminate |].
    intros H. inversion H; subst. apply check_remote_CAs_None. exact Hcheck.
  - destruct (Contains (Error e) "x509"); step; discriminate.
Qed.

Lemma posted_requests_app (tr1 tr2 : list Call) :
  posted_requests (tr1 ++ tr2) = posted_requests tr1 ++ posted_requests tr2.
Proof. apply flat_map_app. Qed.

Lemma posted_requests_cons (c : Call) (tr : list Call) :
  posted_requests (c :: tr) = posted c ++ posted_requests tr.
Proof. reflexivity. Qed.

(** What [sendValidateRequestToProxy] posts: nothing, or the raw form of
    the request, to the host it was given. *)
Lemma sendValidateRequestToProxy_posts (host : string)
    (req : ValidateTrustedClusterRequest) (s : St) :
  posted_requests (calls h (sendValidateRequestToProxy host req) s) = []
  \/ exists raw,
       Request_ToRaw req = Ok raw
       /\ posted_requests (calls h (sendValidateRequestToProxy host req) s)
          = [(host, raw)].
Proof.
  unfold sendValidateRequestToProxy. step.
  destruct (answer h (NewClient host) s) as [u | e]; [| left; reflexivity].
  destruct (Request_ToRaw req) as [raw | e]; [| left; reflexivity].
  right. exists raw. split; [reflexivity |].
  step. destruct (answer h (PostJSON host raw) _) as [[resp |] | e];
    [| reflexivity | reflexivity].
  destruct (ResponseRaw_ToNative resp); reflexivity.
Qed.

(** X8.  [establishTrust] posts at most one validation request, and only
    to the proxy address of the descriptor.  The request carries the
    descriptor's token and the marshalled host CAs of the local cluster,
    in the order the CA store listed them: a host CA of another cluster
    is never sent. *)
Theorem establishTrust_posts (tc : TrustedCluster) (s : St) :
  posted_requests (calls h (establishTrust tc) s) = []
  \/ exists domainName allLocalCAs raw,
       answer h GetDomainName s = Ok domainName
       /\ answer h (GetCertAuthorities HostCA false) (after h GetDomainName s)
          = Ok allLocalCAs
       /\ rawreq_Token raw = GetToken tc
       /\ Forall2 (fun ca data => MarshalCertAuthority ca = Ok data)
            (filter (fun lca => String.eqb (GetClusterName lca) domainName)
                    allLocalCAs)
            (rawreq_CAs raw)
       /\ posted_requests (calls h (establishTrust tc) s)
          = [(GetProxyAddress tc, raw)].
Proof.
  unfold establishTrust. step.
  destruct (answer h GetDomainName s) as [domainName | e] eqn:Hdom;
    [| left; reflexivity].
  step.
  destruct (answer h (GetCertAuthorities HostCA false) _) as [local | e] eqn:Hcas;
    [| left; reflexivity].
  cbv beta iota zeta. rewrite calls_bind.
  set (req := {| req_Token := GetToken tc;
                 req_CAs := filter (fun lca =>
                   String.eqb (GetClusterName lca) domainName) local |}).
  set (s2 := after h (GetCertAuthorities HostCA false) (after h GetDomainName s)).
  assert (Htail : forall r,
             posted_requests
               (calls h (match r with
                         | Ok validateResponse =>
                             match check_remote_CAs domainName
                                     (resp_CAs validateResponse) with
                             | Some err => Ret (Err err)
                             | None => Ret (Ok (resp_CAs validateResponse))
                             end
                         | Err err =>
                             if Contains (Error err) "x509"
                             then Ret (Err (AccessDenied
                               "the trusted cluster uses misconfigured HTTP/TLS certificate."))
                             else Ret (Err (Wrap err))
                         end)
                  (final h (sendValidateRequestToProxy (GetProxyAddress tc) req) s2))
             = []).
  { intros [resp | e].
    - destruct (check_remote_CAs domainName (resp_CAs resp)); reflexivity.
    - destruct (Contains (Error e) "x509"); reflexivity. }
  destruct (sendValidateRequestToProxy_posts (GetProxyAddress tc) req s2)
    as [Hnone | (raw & Hraw & Hone)].
  - left.
    destruct (outcome h (sendValidateRequestToProxy (GetProxyAddress tc) req) s2)
      as [r | msg];
      rewrite !posted_requests_cons, ?posted_requests_app, Hnone, ?Htail;
      reflexivity.
  - right. exists domainName, local, raw.
    split; [first [exact Hdom | reflexivity] |
            split; [first [exact Hcas | reflexivity] |]].
    unfold Request_ToRaw in Hraw. simpl in Hraw.
    destruct (marshal_loop _ []) as [ds |] eqn:Hm; [| discriminate].
    inversion Hraw; subst raw; clear Hraw.
    apply marshal_loop_inv in Hm as (ds' & -> & HF).
    cbn [rawreq_Token rawreq_CAs app].
    split; [reflexivity | split; [exact HF |]].
    destruct (outcome h (sendValidateRequestToProxy (GetProxyAddress tc) req) s2)
      as [r | msg];
      rewrite !posted_requests_cons, ?posted_requests_app, Hone, ?Htail;
      reflexivity.
Qed.

End Handshake.

(** ** Paths of the reconciler and of the ensure loop *)

Section Paths.

Context {M : CertAuthorityMarshaler} {E : Externals}.
Context {St : Type} (h : Handler St).

(** X9.  When deactivating the user CA reports not-found, [ensureDisabled]
    does not try to deactivate the host CA: its only other call deletes
    the reverse tunnel.  It then reports no error when that deletion
    succeeds or reports not-found, and the error of the deletion
    otherwise. *)
Theorem ensureDisabled_skips_host_CA (tc : TrustedCluster) (s : St) (e : error) :
  let user := DeactivateCertAuthority {| Type_ := UserCA; DomainName := GetName tc |} in
  let tunnel := DeleteReverseTunnel (GetName tc) in
  answer h user s = Err e ->
  IsNotFound e = true ->
  calls h (ensureDisabled tc) s = [mkCall user; mkCall tunnel]
  /\ (ok_or_not_found (answer h tunnel (after h user s)) ->
      outcome h (ensureDisabled tc) s = Done None)
  /\ (forall e', answer h tunnel (after h user s) = Err e' ->
                 IsNotFound e' = false ->
                 outcome h (ensureDisabled tc) s = Done (Some e')).
Proof.
  intros user tunnel Huser Hnf.
  unfold ensureDisabled, deactivateCertAuthority. step.
  fold user. rewrite Huser. step.
  assert (Htol : tolerate_not_found (Err (Wrap e)) = None).
  { unfold tolerate_not_found, Wrap. rewrite Hnf. reflexivity. }
  rewrite Htol. step. fold tunnel.
  destruct (answer h tunnel (after h user s)) as [u | e'] eqn:Htun;
    unfold tolerate_not_found, Wrap; cbn [ok_or_not_found].
  - step. split; [reflexivity | split; [reflexivity | discriminate]].
  - destruct (IsNotFound e') eqn:Hnf'; cbn [negb]; step.
    + split; [reflexivity | split; [reflexivity |]].
      intros e'' H. inversion H; subst. congruence.
    + split; [reflexivity | split].
      * intros Hok. congruence.
      * intros e'' H Hk. inversion H; subst. reflexivity.
Qed.

(** X10.  When activating the user CA reports not-found and both CAs of
    the descriptor can be read, [ensureEnabled] does not try to activate
    the host CA: it reads the two CAs, upserts the reverse tunnel and
    reports the error of that upsert only, with the descriptor not
    renamed. *)
Theorem ensureEnabled_skips_host_CA (tc : TrustedCluster) (s : St) (e : error)
    (userCA hostCA : CertAuthority) :
  let activate := ActivateCertAuthority {| Type_ := UserCA; DomainName := GetName tc |} in
  let getUser := GetCertAuthority {| Type_ := UserCA; DomainName := GetName tc |} false in
  let getHost := GetCertAuthority {| Type_ := HostCA; DomainName := GetName tc |} false in
  let s1 := after h activate s in
  let s2 := after h getUser s1 in
  let s3 := after h getHost s2 in
  answer h activate s = Err e ->
  IsNotFound e = true ->
  answer h getUser s1 = Ok userCA ->
  answer h getHost s2 = Ok hostCA ->
  calls h (ensureEnabled tc) s
  = [mkCall activate; mkCall getUser; mkCall getHost; mkCall (tunnel_of tc)]
  /\ outcome h (ensureEnabled tc) s
     = Done (tc, false, result_error (answer h (tunnel_of tc) s3)).
Proof.
  intros activate getUser getHost s1 s2 s3 Hact Hnf Huser Hhost.
  unfold ensureEnabled, activateCertAuthority, getCertAuthorities,
    createReverseTunnel. cbv zeta. step.
  fold activate. rewrite Hact. step. unfold Wrap. rewrite Hnf. cbn [negb]. step.
  fold s1 getUser. rewrite Huser. step.
  fold s2 getHost. rewrite Hhost. step.
  fold s3. unfold tunnel_of.
  destruct (answer h _ s3) as [u | e']; step; split; reflexivity.
Qed.

(** X11.  When the stored descriptor refuses the change of state,
    [UpsertTrustedCluster] returns that refusal and its only call was the
    look-up of the descriptor. *)
Theorem UpsertTrustedCluster_refused_change (s : St) (ctx : Context)
    (tc existing : TrustedCluster) (e : error) :
  GetName tc <> "" ->
  answer h (Presence_GetTrustedCluster (GetName tc)) s = Ok existing ->
  CanChangeStateTo existing tc = Some e ->
  outcome h (UpsertTrustedCluster ctx tc) s = Done (Err e)
  /\ calls h (UpsertTrustedCluster ctx tc) s
     = [mkCall (Presence_GetTrustedCluster (GetName tc))].
Proof.
  intros Hname Hget Hcan.
  destruct (lookup_existing_found h s tc existing Hname Hget) as (Ho & Hf & Hc).
  unfold UpsertTrustedCluster.
  rewrite outcome_bind, calls_bind, Ho, Hc, Hcan. step.
  split; reflexivity.
Qed.

(** X12.  Disabling a stored descriptor does not tolerate a failing
    deletion of the reverse tunnel, not-found included: after the CAs
    were deactivated, the error of the deletion is returned, the
    descriptor is not stored and no audit event is emitted. *)
Theorem UpsertTrustedCluster_disable_needs_tunnel (s : St) (ctx : Context)
    (tc existing : TrustedCluster) (e : error) :
  let s1 := after h (Presence_GetTrustedCluster (GetName tc)) s in
  let s2 := final h (deactivateCertAuthority tc) s1 in
  GetName tc <> "" ->
  answer h (Presence_GetTrustedCluster (GetName tc)) s = Ok existing ->
  CanChangeStateTo existing tc = None ->
  GetEnabled tc = false ->
  (exists u, outcome h (deactivateCertAuthority tc) s1 = Done (Ok u)) ->
  answer h (DeleteReverseTunnel (GetName tc)) s2 = Err e ->
  outcome h (UpsertTrustedCluster ctx tc) s = Done (Err e)
  /\ calls h (UpsertTrustedCluster ctx tc) s
     = mkCall (Presence_GetTrustedCluster (GetName tc))
       :: calls h (deactivateCertAuthority tc) s1
          ++ [mkCall (DeleteReverseTunnel (GetName tc))].
Proof.
  intros s1 s2 Hname Hget Hcan Hoff [u Hdeact] Htun.
  destruct (lookup_existing_found h s tc existing Hname Hget) as (Ho & Hf & Hc).
  unfold UpsertTrustedCluster.
  rewrite outcome_bind, calls_bind, Ho, Hc, Hf, Hcan, Hoff. fold s1.
  rewrite outcome_bind, calls_bind.
  unfold change_state.
  rewrite outcome_bind, calls_bind, final_bind, Hdeact. fold s2.
  step. rewrite Htun. step. simpl. rewrite app_nil_r. split; reflexivity.
Qed.

(** X13.  When the change of state went through and Presence stored the
    descriptor, [UpsertTrustedCluster] returns the descriptor as Presence
    handed it back, whatever the audit log answers; storing the
    descriptor and emitting the TrustedClusterCreate event for the
    context's user are its last two calls. *)
Theorem UpsertTrustedCluster_stores_last (s : St) (ctx : Context)
    (tc tc' stored : TrustedCluster) (existing : option TrustedCluster) :
  let exists_ := match existing with Some _ => true | None => false end in
  let s1 := final h (lookup_existing tc) s in
  let s2 := final h (change_state exists_ (GetEnabled tc) tc) s1 in
  outcome h (lookup_existing tc) s = Done existing ->
  match existing with
  | Some existingCluster => CanChangeStateTo existingCluster tc = None
  | None => True
  end ->
  outcome h (change_state exists_ (GetEnabled tc) tc) s1 = Done (Ok tc') ->
  answer h (Presence_UpsertTrustedCluster tc') s2 = Ok stored ->
  outcome h (UpsertTrustedCluster ctx tc) s = Done (Ok stored)
  /\ calls h (UpsertTrustedCluster ctx tc) s
     = calls h (lookup_existing tc) s
       ++ calls h (change_state exists_ (GetEnabled tc) tc) s1
       ++ [mkCall (Presence_UpsertTrustedCluster tc');
           mkCall (EmitAuditEvent TrustedClusterCreate (clientUsername ctx))].
Proof.
  intros exists_ s1 s2 Hlook Hcan Hcs Hstore.
  unfold UpsertTrustedCluster.
  rewrite outcome_bind, calls_bind, Hlook. fold s1.
  assert (Hcan' : match existing with
                  | Some existingCluster => CanChangeStateTo existingCluster tc
                  | None => None
                  end = None).
  { destruct existing; [exact Hcan | reflexivity]. }
  rewrite Hcan'. fold exists_.
  rewrite outcome_bind, calls_bind, Hcs. fold s2.
  step. rewrite Hstore. step. split; reflexivity.
Qed.

Lemma lookup_existing_touches (tc : TrustedCluster) :
  touches h [KPresenceGet] (lookup_existing tc).
Proof. unfold lookup_existing. touch. Qed.

Lemma change_state_touches (exists_ enable : bool) (tc : TrustedCluster) :
  touches h
    (if enable then
       [KActivateCA; KUpsertTunnel; KGetRole; KGetDomainName; KGetCAs;
        KNewClient; KPostJSON; KCreateCA]
     else
       [KDeactivateCA; KDeleteTunnel; KGetRole; KGetDomainName; KGetCAs;
        KNewClient; KPostJSON; KCreateCA])
    (change_state exists_ enable tc).
Proof.
  pose proof (activateCertAuthority_touches h) as H1.
  pose proof (deactivateCertAuthority_touches h) as H2.
  pose proof (createReverseTunnel_touches h) as H3.
  pose proof (checkLocalRoles_touches h) as H4.
  pose proof (establishTrust_touches h) as H5.
  pose proof (addCertAuthorities_touches h) as H6.
  unfold change_state. destruct exists_, enable; touch.
Qed.

(** X14.  The facade methods [UpsertTrustedCluster] may call.  For an
    enabled descriptor it never deactivates a CA and never deletes a
    reverse tunnel; for a disabled one it never activates a CA and never
    upserts a reverse tunnel; for neither does it delete a CA or a
    descriptor, or list descriptors. *)
Theorem UpsertTrustedCluster_touches (ctx : Context) (tc : TrustedCluster) :
  touches h
    (if GetEnabled tc then
       [KPresenceGet; KActivateCA; KUpsertTunnel; KGetRole; KGetDomainName;
        KGetCAs; KNewClient; KPostJSON; KCreateCA; KPresenceUpsert; KEmitAudit]
     else
       [KPresenceGet; KDeactivateCA; KDeleteTunnel; KGetRole; KGetDomainName;
        KGetCAs; KNewClient; KPostJSON; KCreateCA; KPresenceUpsert; KEmitAudit])
    (UpsertTrustedCluster ctx tc).
Proof.
  pose proof (lookup_existing_touches tc) as Hl.
  unfold UpsertTrustedCluster.
  apply touches_bind.
  { eapply touches_weaken; [exact Hl |]. destruct (GetEnabled tc); reflexivity. }
  intros existing.
  destruct (match existing with
            | Some existingCluster => CanChangeStateTo existingCluster tc
            | None => None
            end); [touch |].
  apply touches_bind.
  { eapply touches_weaken; [apply change_state_touches |].
    destruct (GetEnabled tc); reflexivity. }
  intros [tc' | e]; [| touch].
  apply touches_Vis; [destruct (GetEnabled tc); reflexivity |].
  intros [stored | e]; [| touch].
  apply touches_Vis; [destruct (GetEnabled tc); reflexivity |].
  intros r. touch.
Qed.

Lemma exec_bind_assoc {A B C : Type} (p : Prog A) (f : A -> Prog B)
    (g : B -> Prog C) (s : St) :
  exec h (bind (bind p f) g) s = exec h (bind p (fun x => bind (f x) g)) s.
Proof.
  revert s. induction p as [a | msg | Y op k IH]; intros s; simpl;
    try reflexivity.
  destruct (h Y op s) as [r s1]. rewrite IH. reflexivity.
Qed.

Lemma touches_bind_assoc {A B C : Type} (ks : list OpKind) (p : Prog A)
    (f : A -> Prog B) (g : B -> Prog C) :
  touches h ks (bind p (fun x => bind (f x) g)) ->
  touches h ks (bind (bind p f) g).
Proof.
  intros H s. specialize (H s). unfold calls in *.
  rewrite exec_bind_assoc. exact H.
Qed.

Lemma EnsureTrustedClusters_loop_disabled (tcs : list TrustedCluster) :
  forallb (fun tc => negb (GetEnabled tc)) tcs = true ->
  forall errs,
    touches h [KDeactivateCA; KDeleteTunnel] (EnsureTrustedClusters_loop tcs errs).
Proof.
  induction tcs as [| tc rest IH]; intros Hoff errs; simpl; [touch |].
  simpl in Hoff. apply andb_prop in Hoff. destruct Hoff as [Htc Hrest].
  apply negb_true_iff in Htc.
  apply touches_bind.
  - unfold EnsureTrustedClusters_body, EnsureTrustedClusters_ensure.
    cbv zeta. rewrite Htc.
    apply touches_bind_assoc.
    apply touches_bind; [apply ensureDisabled_touches | intros err].
    cbn [bind negb]. touch.
  - intros [tc' errs']. apply touches_bind; [apply IH; exact Hrest |].
    intros [rest' errs'']. touch.
Qed.

(** X15.  The facade methods [EnsureTrustedClusters] may call: it never
    deletes a CA, never emits an audit event, and never reads a role, a
    token or the cluster name.  Given descriptors that are all disabled,
    it only deactivates CAs and deletes reverse tunnels: it contacts no
    proxy, creates no CA and stores or deletes no descriptor. *)
Theorem EnsureTrustedClusters_touches (ctx : Context) (tcs : list TrustedCluster) :
  touches h [KGetTrustedClusters; KActivateCA; KDeactivateCA; KGetCA;
             KGetDomainName; KGetCAs; KNewClient; KPostJSON; KCreateCA;
             KUpsertTunnel; KDeleteTunnel; KPresenceUpsert; KPresenceDelete]
    (EnsureTrustedClusters ctx tcs)
  /\ (tcs <> [] ->
      forallb (fun tc => negb (GetEnabled tc)) tcs = true ->
      touches h [KDeactivateCA; KDeleteTunnel] (EnsureTrustedClusters ctx tcs)).
Proof.
  split; [apply EnsureTrustedClusters_touches_all |].
  intros Hsome Hoff. unfold EnsureTrustedClusters.
  destruct tcs as [| tc rest]; [contradiction Hsome; reflexivity |].
  apply touches_bind.
  - apply EnsureTrustedClusters_loop_disabled. exact Hoff.
  - intros [tcs' errs]. touch.
Qed.

End Paths.

(** ** The properties above on concrete cases *)

(** With a CA store that cannot list its CAs, a cycle of the tracking
    collector ends with the error of the store and the collector as it
    was. *)
Lemma cycle_error_keeps_suspects_witness :
  outcome unlistable
    (@cycle Scenario.marshaler Scenario.externals
       Scenario.tracking_collector Scenario.admin 200%Z)
    Scenario.claimed_backend
  = Done (Scenario.tracking_collector, Some (Error_ KOther "backend unavailable"))
  /\ Scenario.tracking_collector = Scenario.tracking_collector.
Proof.
  split; [reflexivity |].
  exact (@cycle_error_keeps_suspects Scenario.marshaler Scenario.externals _
           unlistable Scenario.tracking_collector Scenario.tracking_collector
           Scenario.admin 200%Z Scenario.claimed_backend
           (Error_ KOther "backend unavailable") eq_refl).
Defined.

(** The first cycle of scenario S5 adds the two CAs of "ghost". *)
Lemma cycle_next_suspects_witness :
  orphanAfter Scenario.tracking_collector = orphanAfter Scenario.collector
  /\ exists added,
       suspectedOrphanCAs Scenario.tracking_collector
       = added ++ filter (fun sus => seen sus
                                     && negb (past_cutoff Scenario.collector 100%Z sus))
                    (suspectedOrphanCAs Scenario.collector)
       /\ Forall (newly_tracked "root" [] Scenario.collector 100%Z) added.
Proof.
  exact (@cycle_next_suspects Scenario.marshaler Scenario.externals _
           InMemory.handle Scenario.collector Scenario.tracking_collector
           Scenario.admin 100%Z Scenario.ghost_backend "root" [] [] None
           eq_refl eq_refl eq_refl eq_refl).
Defined.

(** Within the grace window the two suspects stay, tagged seen. *)
Lemma cycle_keeps_seen_tag_witness :
  Forall (fun sus => seen sus = true)
    (suspectedOrphanCAs Scenario.tracking_collector).
Proof.
  apply (@cycle_keeps_seen_tag Scenario.marshaler Scenario.externals _
           InMemory.handle Scenario.tracking_collector
           Scenario.tracking_collector Scenario.admin 120%Z
           Scenario.claimed_backend None).
  - repeat constructor.
  - reflexivity.
Defined.

(** Role lookups leave the in-memory backend as it is. *)
Lemma GetRole_keeps_only_admin (r : string) (b : InMemory.Backend) :
  Cases.only_admin b -> Cases.only_admin (after InMemory.handle (GetRole r) b).
Proof.
  intros Hb. rewrite (handle_reads_keep_state _ (GetRole r) b eq_refl). exact Hb.
Qed.

(** With the role "admin" stored, the role map with a template expansion
    passes, and the template is not looked up. *)
Lemma checkLocalRoles_found_witness :
  outcome InMemory.handle
    (@checkLocalRoles Scenario.externals Cases.template_map)
    (Scenario.root_backend Scenario.leaf_proxy) = Done (Ok tt)
  /\ calls InMemory.handle
       (@checkLocalRoles Scenario.externals Cases.template_map)
       (Scenario.root_backend Scenario.leaf_proxy)
     = [mkCall (GetRole "admin"); mkCall (GetRole "admin")].
Proof.
  apply (@checkLocalRoles_found Scenario.externals _ InMemory.handle
           Cases.only_admin GetRole_keeps_only_admin Cases.template_map).
  - intros r st Hst [<- | [<- | []]]; exists tt;
      unfold answer; simpl; rewrite Hst; reflexivity.
  - reflexivity.
Defined.

(** The role "operator" is not stored: the role map that names it fails
    with not-found, the only error a role lookup of the in-memory backend
    gives. *)
Lemma checkLocalRoles_missing_witness :
  exists e,
    outcome InMemory.handle
      (@checkLocalRoles Scenario.externals Cases.missing_map)
      (Scenario.root_backend Scenario.leaf_proxy) = Done (Err e)
    /\ IsNotFound e = true.
Proof.
  destruct (@checkLocalRoles_missing Scenario.externals _ InMemory.handle
              Cases.only_admin GetRole_keeps_only_admin Cases.missing_map
              "operator") with (s := Scenario.root_backend Scenario.leaf_proxy)
    as (e & Ho & Hnf).
  - right. left. reflexivity.
  - intros st Hst. eexists. unfold answer. simpl. rewrite Hst. reflexivity.
  - reflexivity.
  - exists e. split; [exact Ho |]. apply Hnf.
    intros r0 s0 e0. unfold answer. simpl.
    destruct (existsb _ _); intros H; inversion H; reflexivity.
Defined.

(** The leaf's host CA carries a certificate for "leaf-east", not for the
    root. *)
Lemma establishTrust_rejects_local_name_witness :
  Forall (@certificates_name_another Scenario.externals "root")
    [Cases.leaf_tls_host].
Proof.
  apply (@establishTrust_rejects_local_name Cases.tls_marshaler
           Scenario.externals _ InMemory.handle Scenario.T_temp
           (Scenario.root_backend Cases.tls_proxy) "root" [Cases.leaf_tls_host]).
  - reflexivity.
  - vm_compute. reflexivity.
Defined.

(** With only the leaf's host CA stored, ensuring the leaf disabled leaves
    that host CA alone and reports no error. *)
Lemma ensureDisabled_skips_host_CA_witness :
  calls InMemory.handle (ensureDisabled Cases.T_leaf_off) Scenario.half_backend
  = [mkCall (DeactivateCertAuthority {| Type_ := UserCA; DomainName := "leaf-east" |});
     mkCall (DeleteReverseTunnel "leaf-east")]
  /\ outcome InMemory.handle (ensureDisabled Cases.T_leaf_off)
       Scenario.half_backend = Done None.
Proof.
  destruct (ensureDisabled_skips_host_CA InMemory.handle Cases.T_leaf_off
              Scenario.half_backend
              (NotFound "active certificate authority not found")
              eq_refl eq_refl) as (Hc & Ho & _).
  split; [exact Hc | exact (Ho eq_refl)].
Defined.

(** With the user CA active and the host CA inactive, ensuring the leaf
    enabled reports success and has not tried to activate the host CA. *)
Lemma ensureEnabled_skips_host_CA_witness :
  calls InMemory.handle
    (@ensureEnabled Scenario.marshaler Scenario.externals Scenario.T_leaf)
    Cases.split_backend
  = [mkCall (ActivateCertAuthority {| Type_ := UserCA; DomainName := "leaf-east" |});
     mkCall (GetCertAuthority {| Type_ := UserCA; DomainName := "leaf-east" |} false);
     mkCall (GetCertAuthority {| Type_ := HostCA; DomainName := "leaf-east" |} false);
     mkCall (tunnel_of Scenario.T_leaf)]
  /\ outcome InMemory.handle
       (@ensureEnabled Scenario.marshaler Scenario.externals Scenario.T_leaf)
       Cases.split_backend
     = Done (Scenario.T_leaf, false, None).
Proof.
  exact (@ensureEnabled_skips_host_CA Scenario.marshaler Scenario.externals _
           InMemory.handle Scenario.T_leaf Cases.split_backend
           (NotFound "inactive certificate authority not found")
           (prepare_remote_CA Scenario.T_leaf Scenario.leaf_user)
           (prepare_remote_CA Scenario.T_leaf Scenario.leaf_host)
           eq_refl eq_refl eq_refl eq_refl).
Defined.

(** The legacy descriptor resubmitted with another token is refused. *)
Lemma UpsertTrustedCluster_refused_change_witness :
  outcome InMemory.handle
    (@UpsertTrustedCluster Scenario.marshaler Scenario.externals
       Scenario.admin Cases.T_legacy_retoken)
    Scenario.legacy_backend
  = Done (Err (Error_ KOther "invalid transition"))
  /\ calls InMemory.handle
       (@UpsertTrustedCluster Scenario.marshaler Scenario.externals
          Scenario.admin Cases.T_legacy_retoken)
       Scenario.legacy_backend
     = [mkCall (Presence_GetTrustedCluster "legacy")].
Proof.
  apply (@UpsertTrustedCluster_refused_change Scenario.marshaler
           Scenario.externals _ InMemory.handle Scenario.legacy_backend
           Scenario.admin Cases.T_legacy_retoken Scenario.T_legacy
           (Error_ KOther "invalid transition")).
  - discriminate.
  - reflexivity.
  - reflexivity.
Defined.

(** Disabling the enrolled leaf whose tunnel is already gone fails with
    the not-found of the tunnel deletion. *)
Lemma UpsertTrustedCluster_disable_needs_tunnel_witness :
  outcome InMemory.handle
    (@UpsertTrustedCluster Scenario.marshaler Scenario.externals
       Scenario.admin Cases.T_leaf_off)
    Scenario.untunnelled_backend
  = Done (Err (NotFound "reverse tunnel not found")).
Proof.
  apply (@UpsertTrustedCluster_disable_needs_tunnel Scenario.marshaler
           Scenario.externals _ InMemory.handle Scenario.untunnelled_backend
           Scenario.admin Cases.T_leaf_off Scenario.T_leaf
           (NotFound "reverse tunnel not found")).
  - discriminate.
  - reflexivity.
  - reflexivity.
  - reflexivity.
  - exists tt. reflexivity.
  - reflexivity.
Defined.

(** Scenario S1: the descriptor comes back under its pinned name. *)
Lemma UpsertTrustedCluster_stores_last_witness :
  outcome InMemory.handle
    (@UpsertTrustedCluster Scenario.marshaler Scenario.externals
       Scenario.admin Scenario.T_temp)
    (Scenario.root_backend Scenario.leaf_proxy)
  = Done (Ok Scenario.T_leaf).
Proof.
  apply (@UpsertTrustedCluster_stores_last Scenario.marshaler
           Scenario.externals _ InMemory.handle
           (Scenario.root_backend Scenario.leaf_proxy) Scenario.admin
           Scenario.T_temp Scenario.T_leaf Scenario.T_leaf None).
  - reflexivity.
  - exact I.
  - vm_compute. reflexivity.
  - reflexivity.
Defined.

(** Ensuring the disabled leaf alone only deactivates CAs and deletes
    reverse tunnels. *)
Lemma EnsureTrustedClusters_touches_witness :
  touches InMemory.handle [KDeactivateCA; KDeleteTunnel]
    (@EnsureTrustedClusters Scenario.marshaler Scenario.externals
       Scenario.admin [Cases.T_leaf_off]).
Proof.
  apply (proj2 (@EnsureTrustedClusters_touches Scenario.marshaler
                  Scenario.externals _ InMemory.handle Scenario.admin
                  [Cases.T_leaf_off])).
  - discriminate.
  - reflexivity.
Defined.

(** ** Running programs over a wider family of calls *)

Section ExecOver.

Context {O : Type -> Type} {St : Type} (h : HandlerOf O St).

Lemma execOf_bind {A B : Type} (p : ProgOf O A) (f : A -> ProgOf O B) (s : St) :
  execOf h (bindOf p f) s =
  match execOf h p s with
  | (Done a, s1, tr1) =>
      let '(o, s2, tr2) := execOf h (f a) s1 in (o, s2, tr1 ++ tr2)
  | (Panicked msg, s1, tr1) => (Panicked msg, s1, tr1)
  end.
Proof.
  revert s. induction p as [a | msg | Y op k IH]; intros s; simpl.
  - destruct (execOf h (f a) s) as [[o s2] tr2]. reflexivity.
  - reflexivity.
  - destruct (h _ op s) as [r s1]. rewrite IH.
    destruct (execOf h (k r) s1) as [[[a | msg] s2] tr1]; [|reflexivity].
    destruct (execOf h (f a) s2) as [[o s3] tr2]. reflexivity.
Qed.

Lemma outcomeOf_Ret {A : Type} (a : A) (s : St) :
  outcomeOf h (RetOf a) s = Done a.
Proof. reflexivity. Qed.

Lemma finalOf_Ret {A : Type} (a : A) (s : St) : finalOf h (RetOf a) s = s.
Proof. reflexivity. Qed.

Lemma callsOf_Ret {A : Type} (a : A) (s : St) : callsOf h (RetOf a) s = [].
Proof. reflexivity. Qed.

Lemma outcomeOf_Vis {Y A : Type} (op : O Y) (k : Result Y -> ProgOf O A) (s : St) :
  outcomeOf h (VisOf op k) s = outcomeOf h (k (answerOf h op s)) (afterOf h op s).
Proof.
  unfold outcomeOf, answerOf, afterOf. simpl. destruct (h _ op s) as [r s1]. simpl.
  destruct (execOf h (k r) s1) as [[o s2] tr]. reflexivity.
Qed.

Lemma finalOf_Vis {Y A : Type} (op : O Y) (k : Result Y -> ProgOf O A) (s : St) :
  finalOf h (VisOf op k) s = finalOf h (k (answerOf h op s)) (afterOf h op s).
Proof.
  unfold finalOf, answerOf, afterOf. simpl. destruct (h _ op s) as [r s1]. simpl.
  destruct (execOf h (k r) s1) as [[o s2] tr]. reflexivity.
Qed.

Lemma callsOf_Vis {Y A : Type} (op : O Y) (k : Result Y -> ProgOf O A) (s : St) :
  callsOf h (VisOf op k) s =
  mkCallOf op :: callsOf h (k (answerOf h op s)) (afterOf h op s).
Proof.
  unfold callsOf, answerOf, afterOf. simpl. destruct (h _ op s) as [r s1]. simpl.
  destruct (execOf h (k r) s1) as [[o s2] tr]. reflexivity.
Qed.

Lemma outcomeOf_bind {A B : Type} (p : ProgOf O A) (f : A -> ProgOf O B) (s : St) :
  outcomeOf h (bindOf p f) s =
  match outcomeOf h p s with
  | Done a => outcomeOf h (f a) (finalOf h p s)
  | Panicked msg => Panicked msg
  end.
Proof.
  unfold outcomeOf, finalOf. rewrite execOf_bind.
  destruct (execOf h p s) as [[[a | msg] s1] tr1]; simpl; [| reflexivity].
  destruct (execOf h (f a) s1) as [[o s2] tr2]. reflexivity.
Qed.

Lemma finalOf_bind {A B : Type} (p : ProgOf O A) (f : A -> ProgOf O B) (s : St) :
  finalOf h (bindOf p f) s =
  match outcomeOf h p s with
  | Done a => finalOf h (f a) (finalOf h p s)
  | Panicked _ => finalOf h p s
  end.
Proof.
  unfold outcomeOf, finalOf. rewrite execOf_bind.
  destruct (execOf h p s) as [[[a | msg] s1] tr1]; simpl; [| reflexivity].
  destruct (execOf h (f a) s1) as [[o s2] tr2]. reflexivity.
Qed.

Lemma callsOf_bind {A B : Type} (p : ProgOf O A) (f : A -> ProgOf O B) (s : St) :
  callsOf h (bindOf p f) s =
  match outcomeOf h p s with
  | Done a => callsOf h p s ++ callsOf h (f a) (finalOf h p s)
  | Panicked _ => callsOf h p s
  end.
Proof.
  unfold outcomeOf, finalOf, callsOf. rewrite execOf_bind.
  destruct (execOf h p s) as [[[a | msg] s1] tr1]; simpl; [| reflexivity].
  destruct (execOf h (f a) s1) as [[o s2] tr2]. reflexivity.
Qed.

End ExecOver.

Create Rewrite HintDb execof.
#[local] Hint Rewrite @outcomeOf_Ret @finalOf_Ret @callsOf_Ret
  @outcomeOf_Vis @finalOf_Vis @callsOf_Vis : execof.

Ltac stepOf := cbn [bindOf callOf]; autorewrite with execof.

(** ** Methods of guest clusters, run on the wider backend *)

Section Lifted.

Context {St : Type} (h : HandlerOf RemoteOp St).

Lemma execOf_lift {A : Type} (p : Prog A) (s : St) :
  execOf h (lift p) s =
  let '(o, s1, tr) := exec (auth_part h) p s in (o, s1, map lift_call tr).
Proof.
  revert s. induction p as [a | msg | Y op k IH]; intros s; simpl;
    try reflexivity.
  unfold auth_part at 1. destruct (h Y (Auth op) s) as [r s1].
  rewrite IH. destruct (exec (auth_part h) (k r) s1) as [[o s2] tr].
  reflexivity.
Qed.

Lemma outcomeOf_lift {A : Type} (p : Prog A) (s : St) :
  outcomeOf h (lift p) s = outcome (auth_part h) p s.
Proof.
  unfold outcomeOf, outcome. rewrite execOf_lift.
  destruct (exec (auth_part h) p s) as [[o s1] tr]. reflexivity.
Qed.

Lemma finalOf_lift {A : Type} (p : Prog A) (s : St) :
  finalOf h (lift p) s = final (auth_part h) p s.
Proof.
  unfold finalOf, final. rewrite execOf_lift.
  destruct (exec (auth_part h) p s) as [[o s1] tr]. reflexivity.
Qed.

Lemma callsOf_lift {A : Type} (p : Prog A) (s : St) :
  callsOf h (lift p) s = map lift_call (calls (auth_part h) p s).
Proof.
  unfold callsOf, calls. rewrite execOf_lift.
  destruct (exec (auth_part h) p s) as [[o s1] tr]. reflexivity.
Qed.

End Lifted.

(** ** The responder of the handshake *)

Section TokenCheck.

Context {E : Externals} {St : Type} (h : Handler St).

Lemma validateTrustedClusterToken_calls (s : St) (token : string) :
  calls h (validateTrustedClusterToken token) s = [mkCall (ValidateToken token)].
Proof.
  unfold validateTrustedClusterToken. step.
  destruct (answer h (ValidateToken token) s) as [roles | err]; [| reflexivity].
  destruct (negb _ && negb _); reflexivity.
Qed.

Lemma validateTrustedClusterToken_final (s : St) (token : string) :
  final h (validateTrustedClusterToken token) s = after h (ValidateToken token) s.
Proof.
  unfold validateTrustedClusterToken. step.
  destruct (answer h (ValidateToken token) s) as [roles | err]; [| reflexivity].
  destruct (negb _ && negb _); reflexivity.
Qed.

Lemma validateTrustedClusterToken_outcome (s : St) (token : string) :
  if token_accepted (answer h (ValidateToken token) s)
  then outcome h (validateTrustedClusterToken token) s = Done (Ok tt)
  else exists e, outcome h (validateTrustedClusterToken token) s = Done (Err e)
                 /\ IsAccessDenied e = true.
Proof.
  unfold validateTrustedClusterToken, token_accepted. step.
  destruct (answer h (ValidateToken token) s) as [roles | err].
  - destruct (Include roles RoleTrustedCluster),
             (Include roles LegacyClusterTokenType); simpl;
      try reflexivity.
    eexists. split; reflexivity.
  - eexists. split; reflexivity.
Qed.

End TokenCheck.

Lemma last_cons_default {A : Type} (a d : A) (l : list A) :
  last (a :: l) d = last l a.
Proof.
  revert a d. induction l as [| b l IH]; intros a d; [reflexivity |].
  change (last (a :: b :: l) d) with (last (b :: l) d).
  rewrite !IH. reflexivity.
Qed.

Lemma remote_cluster_name_Ok {E : Externals} (domainName : string)
    (cas : list CertAuthority) (name : string) :
  none_named domainName cas = true ->
  remote_cluster_name domainName cas name
  = Ok (last (map CA_GetName cas) name).
Proof.
  revert name. induction cas as [| ca rest IH]; intros name H.
  - reflexivity.
  - cbn [none_named forallb] in H. apply andb_prop in H.
    destruct H as [Hca Hrest]. apply negb_true_iff in Hca.
    cbn [remote_cluster_name map]. rewrite Hca, last_cons_default.
    apply IH. exact Hrest.
Qed.

Lemma remote_cluster_name_Err {E : Externals} (domainName : string)
    (cas : list CertAuthority) (name : string) :
  none_named domainName cas = false ->
  exists e, remote_cluster_name domainName cas name = Err e
            /\ IsAccessDenied e = true.
Proof.
  revert name. induction cas as [| ca rest IH]; intros name H; simpl in *.
  - discriminate.
  - destruct (String.eqb (CA_GetName ca) domainName); simpl in H.
    + eexists. split; reflexivity.
    + apply IH. exact H.
Qed.

Lemma CA_upserts_upsert_calls (l : list CertAuthority) :
  CA_upserts (map upsert_call l) = l.
Proof. induction l as [| ca l IH]; simpl; [| rewrite IH]; reflexivity. Qed.

Lemma CA_upserts_export_calls (d : string) (l : list CertAuthType) :
  CA_upserts (map (export_call d) l) = [].
Proof. induction l as [| t l IH]; simpl; [| rewrite IH]; reflexivity. Qed.

Lemma CA_exports_upsert_calls (l : list CertAuthority) :
  CA_exports (map upsert_call l) = [].
Proof. induction l as [| ca l IH]; simpl; [| rewrite IH]; reflexivity. Qed.

Lemma CA_exports_export_calls (d : string) (l : list CertAuthType) :
  CA_exports (map (export_call d) l)
  = map (fun t => ({| Type_ := t; DomainName := d |}, false)) l.
Proof. induction l as [| t l IH]; simpl; [| rewrite IH]; reflexivity. Qed.

Lemma cluster_creations_upsert_calls (l : list CertAuthority) :
  cluster_creations (map upsert_call l) = [].
Proof. induction l as [| ca l IH]; simpl; [| rewrite IH]; reflexivity. Qed.

Lemma cluster_creations_export_calls (d : string) (l : list CertAuthType) :
  cluster_creations (map (export_call d) l) = [].
Proof. induction l as [| t l IH]; simpl; [| rewrite IH]; reflexivity. Qed.

Lemma remote_CA_deletions_upsert_calls (l : list CertAuthority) :
  remote_CA_deletions (map upsert_call l) = [].
Proof. induction l as [| ca l IH]; simpl; [| rewrite IH]; reflexivity. Qed.

Lemma remote_CA_deletions_export_calls (d : string) (l : list CertAuthType) :
  remote_CA_deletions (map (export_call d) l) = [].
Proof. induction l as [| t l IH]; simpl; [| rewrite IH]; reflexivity. Qed.

Lemma cluster_deletions_upsert_calls (l : list CertAuthority) :
  cluster_deletions (map upsert_call l) = [].
Proof. induction l as [| ca l IH]; simpl; [| rewrite IH]; reflexivity. Qed.

Lemma cluster_deletions_export_calls (d : string) (l : list CertAuthType) :
  cluster_deletions (map (export_call d) l) = [].
Proof. induction l as [| t l IH]; simpl; [| rewrite IH]; reflexivity. Qed.

Section Responder.

Context {E : Externals} {R : RemoteExternals}.
Context {St : Type} (h : HandlerOf RemoteOp St).

(** The second loop upserts a prefix of the list, all of it when it ends
    without an error. *)
Lemma upsert_loop_run (cas : list CertAuthority) (s : St) :
  exists ups rest,
    cas = ups ++ rest
    /\ callsOf h (upsert_loop cas) s = map upsert_call ups
    /\ ((outcomeOf h (upsert_loop cas) s = Done None /\ rest = [])
        \/ exists e, outcomeOf h (upsert_loop cas) s = Done (Some e)).
Proof.
  revert s. induction cas as [| ca cas IH]; intros s.
  - exists [], []. repeat split. left. split; reflexivity.
  - cbn [upsert_loop]. stepOf.
    destruct (answerOf h (UpsertCertAuthority ca) s) as [[] | err].
    + destruct (IH (afterOf h (UpsertCertAuthority ca) s))
        as (ups & rest & Hcas & Htr & Ho).
      exists (ca :: ups), rest. split; [rewrite Hcas; reflexivity |].
      split; [rewrite Htr; reflexivity | exact Ho].
    + exists [ca], cas. split; [reflexivity |]. split; [reflexivity |].
      right. eexists. stepOf. reflexivity.
Qed.

(** The third loop reads the host CA and then the user CA of the local
    domain, without their secrets; the response holds what the two reads
    answered, in that order. *)
Lemma export_loop_run (d : string) (s : St) :
  let p := export_loop d [HostCA; UserCA] {| resp_CAs := [] |} in
  let host := GetCertAuthority_SkipValidation
                {| Type_ := HostCA; DomainName := d |} false in
  let user := GetCertAuthority_SkipValidation
                {| Type_ := UserCA; DomainName := d |} false in
  exists exps rest,
    [HostCA; UserCA] = exps ++ rest
    /\ callsOf h p s = map (export_call d) exps
    /\ ((exists hostCA userCA,
           outcomeOf h p s = Done (Ok {| resp_CAs := [hostCA; userCA] |})
           /\ rest = []
           /\ answerOf h host s = Ok hostCA
           /\ answerOf h user (afterOf h host s) = Ok userCA)
        \/ exists e, outcomeOf h p s = Done (Err e)).
Proof.
  cbn zeta. cbn [export_loop]. stepOf.
  destruct (answerOf h (GetCertAuthority_SkipValidation
                          {| Type_ := HostCA; DomainName := d |} false) s)
    as [hostCA | err] eqn:Hhost.
  - stepOf.
    destruct (answerOf h (GetCertAuthority_SkipValidation
                            {| Type_ := UserCA; DomainName := d |} false) _)
      as [userCA | err] eqn:Huser.
    + exists [HostCA; UserCA], []. split; [reflexivity |].
      split; [stepOf; reflexivity |]. left. exists hostCA, userCA.
      stepOf. repeat split; assumption.
    + exists [HostCA; UserCA], []. split; [reflexivity |].
      split; [stepOf; reflexivity |]. right. eexists. stepOf. reflexivity.
  - exists [HostCA], [UserCA]. split; [reflexivity |].
    split; [stepOf; reflexivity |]. right. eexists. stepOf. reflexivity.
Qed.

(** Every run of [validateTrustedCluster], by the answers it gets. *)
Lemma validateTrustedCluster_run (s : St) (req : ValidateTrustedClusterRequest) :
  let o := outcomeOf h (validateTrustedCluster req) s in
  let tr := callsOf h (validateTrustedCluster req) s in
  let s1 := afterOf h (Auth GetDomainName) s in
  let tok := Auth (ValidateToken (req_Token req)) in
  let reads := [mkCallOf (Auth GetDomainName); mkCallOf tok] in
  match answerOf h (Auth GetDomainName) s with
  | Err e => o = Done (Err e) /\ tr = [mkCallOf (Auth GetDomainName)]
  | Ok d =>
      if negb (token_accepted (answerOf h tok s1)
               && none_named d (req_CAs req))
      then (exists e, o = Done (Err e) /\ IsAccessDenied e = true)
           /\ tr = reads
      else
        match NewRemoteCluster (last (map CA_GetName (req_CAs req)) "") with
        | Err e => o = Done (Err e) /\ tr = reads
        | Ok rc =>
            exists ups rest exps rest',
              req_CAs req = ups ++ rest
              /\ [HostCA; UserCA] = exps ++ rest'
              /\ tr = reads ++ mkCallOf (CreateRemoteCluster rc)
                        :: map upsert_call ups ++ map (export_call d) exps
              /\ (exists r, o = Done r)
              /\ (forall resp, o = Done (Ok resp) ->
                    rest = [] /\ rest' = []
                    /\ exists s2 hostCA userCA,
                         resp_CAs resp = [hostCA; userCA]
                         /\ answerOf h (GetCertAuthority_SkipValidation
                              {| Type_ := HostCA; DomainName := d |} false) s2
                            = Ok hostCA
                         /\ answerOf h (GetCertAuthority_SkipValidation
                              {| Type_ := UserCA; DomainName := d |} false)
                              (afterOf h (GetCertAuthority_SkipValidation
                                 {| Type_ := HostCA; DomainName := d |} false) s2)
                            = Ok userCA)
        end
  end.
Proof.
  cbn zeta. unfold validateTrustedCluster. stepOf.
  destruct (answerOf h (Auth GetDomainName) s) as [d | e]; [| split; reflexivity].
  rewrite outcomeOf_bind, callsOf_bind, outcomeOf_lift, callsOf_lift, finalOf_lift.
  rewrite validateTrustedClusterToken_calls, validateTrustedClusterToken_final.
  pose proof (validateTrustedClusterToken_outcome (auth_part h)
                (afterOf h (Auth GetDomainName) s) (req_Token req)) as Htok.
  change (answer (auth_part h) (ValidateToken (req_Token req))
            (afterOf h (Auth GetDomainName) s))
    with (answerOf h (Auth (ValidateToken (req_Token req)))
            (afterOf h (Auth GetDomainName) s)) in Htok.
  change (after (auth_part h) (ValidateToken (req_Token req))
            (afterOf h (Auth GetDomainName) s))
    with (afterOf h (Auth (ValidateToken (req_Token req)))
            (afterOf h (Auth GetDomainName) s)).
  destruct (token_accepted _).
  2:{ destruct Htok as (e & -> & He). simpl. split; [| reflexivity].
      exists e. split; [reflexivity | exact He]. }
  rewrite Htok. cbn [andb map lift_call projT2 mkCall app].
  destruct (none_named d (req_CAs req)) eqn:Hnamed; cbn [negb].
  2:{ destruct (remote_cluster_name_Err d (req_CAs req) "" Hnamed)
        as (e & -> & He).
      split; [| reflexivity]. exists e. split; [reflexivity | exact He]. }
  rewrite (remote_cluster_name_Ok d (req_CAs req) "" Hnamed).
  destruct (NewRemoteCluster _) as [rc | e]; [| split; reflexivity].
  stepOf.
  set (s3 := afterOf h (CreateRemoteCluster rc) _).
  destruct (tolerate_already_exists _) as [err |].
  { exists [], (req_CAs req), [], [HostCA; UserCA].
    split; [reflexivity |]. split; [reflexivity |].
    split; [reflexivity |]. split; [eexists; reflexivity |].
    intros resp H. discriminate H. }
  rewrite outcomeOf_bind, callsOf_bind.
  destruct (upsert_loop_run (req_CAs req) s3) as (ups & rest & Hcas & Htr & Ho).
  rewrite Htr.
  destruct Ho as [[Ho ->] | [e Ho]]; rewrite Ho.
  2:{ exists ups, rest, [], [HostCA; UserCA].
      split; [exact Hcas |]. split; [reflexivity |].
      split; [stepOf; cbn [map]; rewrite !app_nil_r; reflexivity |].
      split; [eexists; reflexivity |].
      intros resp H. discriminate H. }
  destruct (export_loop_run d (finalOf h (upsert_loop (req_CAs req)) s3))
    as (exps & rest' & Hexps & Htr' & Ho').
  cbn zeta in Htr', Ho'. rewrite Htr'.
  exists ups, [], exps, rest'.
  split; [exact Hcas |]. split; [exact Hexps |]. split; [reflexivity |].
  destruct Ho' as [(hostCA & userCA & Ho' & -> & Hh & Hu) | [e Ho']];
    rewrite Ho'.
  - split; [eexists; reflexivity |].
    intros resp H. injection H as <-.
    split; [reflexivity |]. split; [reflexivity |].
    exists (finalOf h (upsert_loop (req_CAs req)) s3), hostCA, userCA.
    repeat split; assumption.
  - split; [eexists; reflexivity |].
    intros resp H. discriminate H.
Qed.

End Responder.

Section ResponderProperties.

Context {E : Externals} {R : RemoteExternals}.
Context {St : Type} (h : HandlerOf RemoteOp St).

(** X16.  The responder refuses before it writes.  When the validator
    does not know the request's token, or the token carries neither the
    trusted-cluster role nor the legacy one, or any CA of the request, the
    last one included, is named as the local domain, [validateTrustedCluster]
    fails with an access-denied error and its only calls are the read of
    the domain name and the token validation: no remote cluster is created
    and no CA is stored. *)
Theorem validateTrustedCluster_refuses (s : St)
    (req : ValidateTrustedClusterRequest) (d : string) :
  answerOf h (Auth GetDomainName) s = Ok d ->
  token_accepted (answerOf h (Auth (ValidateToken (req_Token req)))
                    (afterOf h (Auth GetDomainName) s)) = false
  \/ none_named d (req_CAs req) = false ->
  (exists e, outcomeOf h (validateTrustedCluster req) s = Done (Err e)
             /\ IsAccessDenied e = true)
  /\ callsOf h (validateTrustedCluster req) s
     = [mkCallOf (Auth GetDomainName);
        mkCallOf (Auth (ValidateToken (req_Token req)))].
Proof.
  intros Hd Hbad.
  pose proof (validateTrustedCluster_run h s req) as Hrun.
  cbn zeta in Hrun. rewrite Hd in Hrun.
  assert (Hneg : negb (token_accepted
                         (answerOf h (Auth (ValidateToken (req_Token req)))
                            (afterOf h (Auth GetDomainName) s))
                       && none_named d (req_CAs req)) = true).
  { destruct Hbad as [-> | ->]; [reflexivity |].
    rewrite andb_false_r. reflexivity. }
  rewrite Hneg in Hrun. exact Hrun.
Qed.

(** X17.  What an accepted request leaves behind.  When
    [validateTrustedCluster] answers with a response, the token was accepted
    and no CA of the request is named as the local domain; the run created
    one remote cluster, the one [NewRemoteCluster] builds for the name of
    the last CA of the request, and upserted the CAs of the request,
    each as it came and in the request's order; it read the host CA and
    then the user CA of the local domain, both without secrets, and the
    response holds what these two reads answered, in that order. *)
Theorem validateTrustedCluster_accepted (s : St)
    (req : ValidateTrustedClusterRequest)
    (resp : ValidateTrustedClusterResponse) :
  outcomeOf h (validateTrustedCluster req) s = Done (Ok resp) ->
  let tr := callsOf h (validateTrustedCluster req) s in
  exists d rc,
    answerOf h (Auth GetDomainName) s = Ok d
    /\ token_accepted (answerOf h (Auth (ValidateToken (req_Token req)))
                         (afterOf h (Auth GetDomainName) s)) = true
    /\ none_named d (req_CAs req) = true
    /\ NewRemoteCluster (last (map CA_GetName (req_CAs req)) "") = Ok rc
    /\ cluster_creations tr = [rc]
    /\ CA_upserts tr = req_CAs req
    /\ CA_exports tr = [({| Type_ := HostCA; DomainName := d |}, false);
                        ({| Type_ := UserCA; DomainName := d |}, false)]
    /\ exists s2 hostCA userCA,
         resp_CAs resp = [hostCA; userCA]
         /\ answerOf h (GetCertAuthority_SkipValidation
                          {| Type_ := HostCA; DomainName := d |} false) s2
            = Ok hostCA
         /\ answerOf h (GetCertAuthority_SkipValidation
                          {| Type_ := UserCA; DomainName := d |} false)
              (afterOf h (GetCertAuthority_SkipValidation
                            {| Type_ := HostCA; DomainName := d |} false) s2)
            = Ok userCA.
Proof.
  intros Ho tr. subst tr.
  pose proof (validateTrustedCluster_run h s req) as Hrun.
  cbn zeta in Hrun.
  destruct (answerOf h (Auth GetDomainName) s) as [d | e].
  2:{ destruct Hrun as [Hrun _]. rewrite Hrun in Ho. discriminate Ho. }
  destruct (token_accepted _) eqn:Htok; cbn [andb negb] in Hrun.
  2:{ destruct Hrun as [(e & Hrun & _) _]. rewrite Hrun in Ho. discriminate Ho. }
  destruct (none_named d (req_CAs req)) eqn:Hnamed; cbn [negb] in Hrun.
  2:{ destruct Hrun as [(e & Hrun & _) _]. rewrite Hrun in Ho. discriminate Ho. }
  destruct (NewRemoteCluster _) as [rc | e].
  2:{ destruct Hrun as [Hrun _]. rewrite Hrun in Ho. discriminate Ho. }
  destruct Hrun as (ups & rest & exps & rest' & Hcas & Hexps & Htr & _ & Hok).
  destruct (Hok resp Ho) as (-> & -> & Hresp).
  rewrite app_nil_r in Hcas, Hexps. subst ups exps.
  exists d, rc. rewrite Htr.
  split; [reflexivity |]. split; [reflexivity |]. split; [exact Hnamed |].
  split; [reflexivity |].
  unfold cluster_creations, CA_upserts, CA_exports.
  cbn [app flat_map created_cluster upserted_CA exported_CA projT2 mkCallOf].
  rewrite !flat_map_app.
  fold (cluster_creations (map upsert_call (req_CAs req))).
  fold (cluster_creations (map (export_call d) [HostCA; UserCA])).
  fold (CA_upserts (map upsert_call (req_CAs req))).
  fold (CA_upserts (map (export_call d) [HostCA; UserCA])).
  fold (CA_exports (map upsert_call (req_CAs req))).
  fold (CA_exports (map (export_call d) [HostCA; UserCA])).
  rewrite cluster_creations_upsert_calls, cluster_creations_export_calls,
    CA_upserts_upsert_calls, CA_upserts_export_calls,
    CA_exports_upsert_calls, CA_exports_export_calls.
  cbn [app]. rewrite ?app_nil_r.
  split; [reflexivity |]. split; [reflexivity |]. split; [reflexivity |].
  exact Hresp.
Qed.

(** X18.  What the responder never does, whatever the backend answers and
    whatever the request holds: it deletes no CA and no remote cluster, it
    never asks for the secrets of a CA it reads for the response, it
    creates at most one remote cluster, and the CAs it upserts are a
    prefix of the request's CAs, unchanged. *)
Theorem validateTrustedCluster_never (s : St)
    (req : ValidateTrustedClusterRequest) :
  let tr := callsOf h (validateTrustedCluster req) s in
  remote_CA_deletions tr = []
  /\ cluster_deletions tr = []
  /\ forallb (fun x => negb (snd x)) (CA_exports tr) = true
  /\ length (cluster_creations tr) <= 1
  /\ exists rest, req_CAs req = CA_upserts tr ++ rest.
Proof.
  cbn zeta.
  pose proof (validateTrustedCluster_run h s req) as Hrun.
  cbn zeta in Hrun.
  destruct (answerOf h (Auth GetDomainName) s) as [d | e].
  2:{ destruct Hrun as [_ ->]. cbn.
      repeat split; try lia. exists (req_CAs req). reflexivity. }
  destruct (negb _).
  { destruct Hrun as [_ ->]. cbn.
    repeat split; try lia. exists (req_CAs req). reflexivity. }
  destruct (NewRemoteCluster _) as [rc | e].
  2:{ destruct Hrun as [_ ->]. cbn.
      repeat split; try lia. exists (req_CAs req). reflexivity. }
  destruct Hrun as (ups & rest & exps & rest' & Hcas & Hexps & -> & _).
  unfold remote_CA_deletions, cluster_deletions, cluster_creations,
    CA_upserts, CA_exports.
  cbn [app flat_map created_cluster upserted_CA exported_CA remote_deleted_CA
       deleted_cluster projT2 mkCallOf].
  rewrite !flat_map_app.
  fold (remote_CA_deletions (map upsert_call ups)).
  fold (remote_CA_deletions (map (export_call d) exps)).
  fold (cluster_deletions (map upsert_call ups)).
  fold (cluster_deletions (map (export_call d) exps)).
  fold (cluster_creations (map upsert_call ups)).
  fold (cluster_creations (map (export_call d) exps)).
  fold (CA_upserts (map upsert_call ups)).
  fold (CA_upserts (map (export_call d) exps)).
  fold (CA_exports (map upsert_call ups)).
  fold (CA_exports (map (export_call d) exps)).
  rewrite remote_CA_deletions_upsert_calls, remote_CA_deletions_export_calls,
    cluster_deletions_upsert_calls, cluster_deletions_export_calls,
    cluster_creations_upsert_calls, cluster_creations_export_calls,
    CA_upserts_upsert_calls, CA_upserts_export_calls,
    CA_exports_upsert_calls, CA_exports_export_calls.
  cbn [app]. rewrite ?app_nil_r.
  split; [reflexivity |]. split; [reflexivity |].
  split.
  { cbn [app]. rewrite forallb_forall. intros x Hx.
    apply in_map_iff in Hx. destruct Hx as (t & <- & _). reflexivity. }
  split; [cbn; lia |].
  exists rest. exact Hcas.
Qed.

End ResponderProperties.

Section RemoteClusters.

Context {E : Externals} {R : RemoteExternals}.
Context {St : Type} (h : HandlerOf RemoteOp St).

(** X19.  A name that is not a remote cluster deletes nothing.  When the
    presence store does not find the remote cluster, [DeleteRemoteCluster]
    returns that error and has made no other call: no CA is deleted, not
    even when the name is the one of the local cluster or of a trusted
    cluster. *)
Theorem DeleteRemoteCluster_unknown (s : St) (clusterName : string) (e : error) :
  answerOf h (Presence_GetRemoteCluster clusterName) s = Err e ->
  outcomeOf h (DeleteRemoteCluster clusterName) s = Done (Err e)
  /\ callsOf h (DeleteRemoteCluster clusterName) s
     = [mkCallOf (Presence_GetRemoteCluster clusterName)].
Proof.
  intros He. unfold DeleteRemoteCluster. stepOf. rewrite He.
  split; reflexivity.
Qed.

(** X20.  When the record of the remote cluster is deleted.
    [DeleteRemoteCluster] deletes the record exactly when the remote
    cluster was found and each of the two CA deletions, host CA first and
    user CA second, succeeded or found nothing to delete; so a deletion
    that stopped after the CAs can be repeated.  The CAs it deletes are
    never of another name: the host CA and the user CA of the cluster when
    the host CA deletion was tolerated, the host CA alone when it was not,
    none when the cluster was not found. *)
Theorem DeleteRemoteCluster_deletes (s : St) (clusterName : string) :
  let tr := callsOf h (DeleteRemoteCluster clusterName) s in
  let host := Auth (DeleteCertAuthority
                      {| Type_ := HostCA; DomainName := clusterName |}) in
  let user := Auth (DeleteCertAuthority
                      {| Type_ := UserCA; DomainName := clusterName |}) in
  let s1 := afterOf h (Presence_GetRemoteCluster clusterName) s in
  let s2 := afterOf h host s1 in
  let found := succeeded (answerOf h (Presence_GetRemoteCluster clusterName) s) in
  cluster_deletions tr
  = (if found && gone (answerOf h host s1) && gone (answerOf h user s2)
     then [clusterName] else [])
  /\ remote_CA_deletions tr
     = (if found
        then if gone (answerOf h host s1)
             then [{| Type_ := HostCA; DomainName := clusterName |};
                   {| Type_ := UserCA; DomainName := clusterName |}]
             else [{| Type_ := HostCA; DomainName := clusterName |}]
        else []).
Proof.
  cbn zeta. unfold DeleteRemoteCluster. stepOf.
  destruct (answerOf h (Presence_GetRemoteCluster clusterName) s) as [rc | e];
    [| split; reflexivity].
  stepOf. cbn [succeeded andb].
  set (s1 := afterOf h (Presence_GetRemoteCluster clusterName) s).
  destruct (answerOf h (Auth (DeleteCertAuthority
              {| Type_ := HostCA; DomainName := clusterName |})) s1)
    as [[] | e1]; cbn [tolerate_not_found gone].
  - stepOf.
    destruct (answerOf h (Auth (DeleteCertAuthority
                {| Type_ := UserCA; DomainName := clusterName |})) _)
      as [[] | e2]; cbn [tolerate_not_found gone].
    + unfold callOf. stepOf. split; reflexivity.
    + destruct (IsNotFound e2); cbn [negb].
      * unfold callOf. stepOf. split; reflexivity.
      * stepOf. split; reflexivity.
  - destruct (IsNotFound e1); cbn [negb].
    + stepOf.
      destruct (answerOf h (Auth (DeleteCertAuthority
                  {| Type_ := UserCA; DomainName := clusterName |})) _)
        as [[] | e2]; cbn [tolerate_not_found gone].
      * unfold callOf. stepOf. split; reflexivity.
      * destruct (IsNotFound e2); cbn [negb].
        -- unfold callOf. stepOf. split; reflexivity.
        -- stepOf. split; reflexivity.
    + stepOf. split; reflexivity.
Qed.

(** The status update reads the configuration and the tunnel
    connections, and nothing else; what it leaves in the remote cluster
    is decided by the latest connection. *)
Lemma updateRemoteClusterStatus_run (now : Time) (rc : RemoteCluster) (s : St) :
  let p := updateRemoteClusterStatus now rc in
  remote_reads_only (callsOf h p s) = true
  /\ exists rc' err,
       outcomeOf h p s = Done (rc', err)
       /\ rc_name rc' = rc_name rc
       /\ (err = None ->
           exists config connections,
             answerOf h GetClusterConfig s = Ok config
             /\ answerOf h (GetTunnelConnections (rc_name rc))
                  (afterOf h GetClusterConfig s) = Ok connections
             /\ match LatestTunnelConnection connections with
                | Err _ =>
                    rc_connection_status rc' = RemoteClusterStatusOffline
                    /\ rc_last_heartbeat rc' = rc_last_heartbeat rc
                | Ok conn =>
                    rc_connection_status rc'
                    = TunnelConnectionStatus now conn
                        (wrap64 (KeepAliveCountMax config
                                 * KeepAliveInterval config))
                    /\ rc_last_heartbeat rc' = GetLastHeartbeat conn
                end).
Proof.
  cbn zeta. unfold updateRemoteClusterStatus. stepOf.
  destruct (answerOf h GetClusterConfig s) as [config | e].
  2:{ split; [reflexivity |]. exists rc, (Some (Wrap e)).
      split; [reflexivity |]. split; [reflexivity |]. discriminate. }
  stepOf.
  destruct (answerOf h (GetTunnelConnections (rc_name rc)) _)
    as [connections | e] eqn:Hconns.
  2:{ split; [reflexivity |]. exists rc, (Some (Wrap e)).
      split; [reflexivity |]. split; [reflexivity |]. discriminate. }
  cbn zeta.
  destruct (LatestTunnelConnection connections) as [conn | e] eqn:Hlast.
  - split; [reflexivity |]. eexists _, None.
    split; [reflexivity |]. split; [reflexivity |]. intros _.
    exists config, connections. split; [reflexivity |].
    split; [first [exact Hconns | reflexivity] |].
    rewrite Hlast. split; reflexivity.
  - split; [reflexivity |]. eexists _, None.
    split; [reflexivity |]. split; [reflexivity |]. intros _.
    exists config, connections. split; [reflexivity |].
    split; [first [exact Hconns | reflexivity] |].
    rewrite Hlast. split; reflexivity.
Qed.

Lemma remote_reads_only_app (l1 l2 : list (CallOf RemoteOp)) :
  remote_reads_only (l1 ++ l2) = remote_reads_only l1 && remote_reads_only l2.
Proof. apply forallb_app. Qed.

Lemma GetRemoteClusters_loop_run (clock : nat -> Time) (range : list RemoteCluster) :
  forall (i : nat) (done : list RemoteCluster) (s : St),
    let p := GetRemoteClusters_loop clock i range done in
    remote_reads_only (callsOf h p s) = true
    /\ ((exists e, outcomeOf h p s = Done (Err e))
        \/ exists updated,
             outcomeOf h p s = Done (Ok (done ++ updated))
             /\ map rc_name updated = map rc_name range).
Proof.
  induction range as [| rc range IH]; intros i done s; cbn zeta.
  - split; [reflexivity |]. right. exists []. rewrite app_nil_r.
    split; reflexivity.
  - cbn [GetRemoteClusters_loop].
    rewrite outcomeOf_bind, callsOf_bind.
    destruct (updateRemoteClusterStatus_run (clock i) rc s)
      as (Hreads & rc' & err & Ho & Hname & _).
    cbn zeta in Hreads, Ho. rewrite Ho.
    destruct err as [e |].
    + stepOf. rewrite app_nil_r. split; [exact Hreads |].
      left. eexists. reflexivity.
    + destruct (IH (S i) (done ++ [rc'])
                  (finalOf h (updateRemoteClusterStatus (clock i) rc) s))
        as (Hreads' & Hout).
      cbn zeta in Hreads', Hout.
      rewrite remote_reads_only_app, Hreads, Hreads'.
      split; [reflexivity |].
      destruct Hout as [[e He] | (updated & Hu & Hnames)].
      * left. exists e. exact He.
      * right. exists (rc' :: updated). rewrite Hu, <- app_assoc.
        split; [reflexivity |]. cbn [map]. rewrite Hname, Hnames.
        reflexivity.
Qed.

(** X21.  Reading remote clusters writes nothing.  Whatever the backend
    answers, no call of [GetRemoteCluster] and none of [GetRemoteClusters]
    writes to the backend: the status they return is computed for the
    answer and not stored. *)
Theorem GetRemoteClusters_read_only (s : St) (now : Time)
    (clock : nat -> Time) (clusterName : string) :
  remote_reads_only (callsOf h (GetRemoteCluster now clusterName) s) = true
  /\ remote_reads_only (callsOf h (GetRemoteClusters clock) s) = true.
Proof.
  split.
  - unfold GetRemoteCluster. stepOf.
    destruct (answerOf h (Presence_GetRemoteCluster clusterName) s)
      as [rc | e]; [| reflexivity].
    rewrite callsOf_bind.
    destruct (updateRemoteClusterStatus_run now rc
                (afterOf h (Presence_GetRemoteCluster clusterName) s))
      as (Hreads & rc' & err & Ho & _).
    cbn zeta in Hreads, Ho. rewrite Ho.
    change (remote_reads_only (?c :: ?l))
      with (negb (remote_write (projT2 c)) && remote_reads_only l).
    rewrite remote_reads_only_app, Hreads.
    destruct err; reflexivity.
  - unfold GetRemoteClusters. stepOf.
    destruct (answerOf h Presence_GetRemoteClusters s) as [rcs | e];
      [| reflexivity].
    destruct (GetRemoteClusters_loop_run clock rcs 0 []
                (afterOf h Presence_GetRemoteClusters s)) as [Hreads _].
    cbn zeta in Hreads.
    change (remote_reads_only (?c :: ?l))
      with (negb (remote_write (projT2 c)) && remote_reads_only l).
    rewrite Hreads. reflexivity.
Qed.

(** X22.  The listing keeps the stored clusters.  When [GetRemoteClusters]
    returns a list, the presence store answered with a list of the same
    names in the same order: the status update drops, adds, renames and
    reorders nothing. *)
Theorem GetRemoteClusters_names (s : St) (clock : nat -> Time)
    (rcs : list RemoteCluster) :
  outcomeOf h (GetRemoteClusters clock) s = Done (Ok rcs) ->
  exists stored,
    answerOf h Presence_GetRemoteClusters s = Ok stored
    /\ map rc_name rcs = map rc_name stored.
Proof.
  unfold GetRemoteClusters. stepOf.
  destruct (answerOf h Presence_GetRemoteClusters s) as [stored | e].
  2:{ stepOf. discriminate. }
  intros Ho. exists stored. split; [reflexivity |].
  destruct (GetRemoteClusters_loop_run clock stored 0 []
              (afterOf h Presence_GetRemoteClusters s))
    as [_ [[e He] | (updated & Hu & Hnames)]]; cbn zeta in *.
  - rewrite He in Ho. discriminate Ho.
  - rewrite Hu in Ho. injection Ho as <-. exact Hnames.
Qed.

(** X23.  The status a read returns is derived from the latest tunnel
    connection, never the stored one.  When [GetRemoteCluster] returns a
    remote cluster, the presence store had one of that name, the cluster
    configuration and the tunnel connections of that name were read, and
    the cluster returned has the stored name and: when there is no latest
    connection, the offline status and the stored last heartbeat; when
    there is one, the status [TunnelConnectionStatus] gives for it with
    the threshold keep-alive count times keep-alive interval, as an int64
    product, and the last heartbeat of that connection. *)
Theorem GetRemoteCluster_status (s : St) (now : Time) (clusterName : string)
    (rc' : RemoteCluster) :
  outcomeOf h (GetRemoteCluster now clusterName) s = Done (Ok rc') ->
  let s1 := afterOf h (Presence_GetRemoteCluster clusterName) s in
  exists rc config connections,
    answerOf h (Presence_GetRemoteCluster clusterName) s = Ok rc
    /\ answerOf h GetClusterConfig s1 = Ok config
    /\ answerOf h (GetTunnelConnections (rc_name rc))
         (afterOf h GetClusterConfig s1) = Ok connections
    /\ rc_name rc' = rc_name rc
    /\ match LatestTunnelConnection connections with
       | Err _ =>
           rc_connection_status rc' = RemoteClusterStatusOffline
           /\ rc_last_heartbeat rc' = rc_last_heartbeat rc
       | Ok conn =>
           rc_connection_status rc'
           = TunnelConnectionStatus now conn
               (wrap64 (KeepAliveCountMax config * KeepAliveInterval config))
           /\ rc_last_heartbeat rc' = GetLastHeartbeat conn
       end.
Proof.
  cbn zeta. unfold GetRemoteCluster. stepOf.
  destruct (answerOf h (Presence_GetRemoteCluster clusterName) s) as [rc | e].
  2:{ stepOf. discriminate. }
  rewrite outcomeOf_bind.
  destruct (updateRemoteClusterStatus_run now rc
              (afterOf h (Presence_GetRemoteCluster clusterName) s))
    as (_ & rc1 & err & Ho & Hname & Hstatus).
  cbn zeta in Ho. rewrite Ho.
  destruct err as [e |]; stepOf; intros H; [discriminate H |].
  injection H as <-.
  destruct (Hstatus eq_refl) as (config & connections & Hconfig & Hconns & Hlast).
  exists rc, config, connections.
  split; [reflexivity |]. split; [exact Hconfig |]. split; [exact Hconns |].
  split; [exact Hname | exact Hlast].
Qed.

End RemoteClusters.

(** ** The remote-cluster properties on the concrete root *)

Section RemoteWitnesses.

#[local] Existing Instance Scenario.externals.
#[local] Existing Instance RemoteCases.remote_externals.

(** A request whose last CA is named as the root is refused with an
    access-denied error after the two reads; the leaf's CA that came
    before it is not stored. *)
Lemma validateTrustedCluster_refuses_witness :
  (exists e,
     outcomeOf RemoteCases.handle
       (validateTrustedCluster RemoteCases.smuggling_request)
       RemoteCases.root_world = Done (Err e)
     /\ IsAccessDenied e = true)
  /\ callsOf RemoteCases.handle
       (validateTrustedCluster RemoteCases.smuggling_request)
       RemoteCases.root_world
     = [mkCallOf (Auth GetDomainName);
        mkCallOf (Auth (ValidateToken "cluster-token"))].
Proof.
  apply (validateTrustedCluster_refuses RemoteCases.handle
           RemoteCases.root_world RemoteCases.smuggling_request "root").
  - reflexivity.
  - right. reflexivity.
Defined.

(** The leaf's request is accepted: the root creates the remote cluster
    "leaf-east", stores the leaf's host CA and answers with its own host
    and user CAs. *)
Lemma validateTrustedCluster_accepted_witness :
  exists d rc,
    answerOf RemoteCases.handle (Auth GetDomainName) RemoteCases.root_world = Ok d
    /\ token_accepted
         (answerOf RemoteCases.handle (Auth (ValidateToken "cluster-token"))
            (afterOf RemoteCases.handle (Auth GetDomainName)
               RemoteCases.root_world)) = true
    /\ none_named d [Scenario.leaf_host] = true
    /\ NewRemoteCluster "leaf-east" = Ok rc
    /\ cluster_creations
         (callsOf RemoteCases.handle
            (validateTrustedCluster RemoteCases.leaf_request)
            RemoteCases.root_world) = [rc]
    /\ CA_upserts
         (callsOf RemoteCases.handle
            (validateTrustedCluster RemoteCases.leaf_request)
            RemoteCases.root_world) = [Scenario.leaf_host]
    /\ CA_exports
         (callsOf RemoteCases.handle
            (validateTrustedCluster RemoteCases.leaf_request)
            RemoteCases.root_world)
       = [({| Type_ := HostCA; DomainName := d |}, false);
          ({| Type_ := UserCA; DomainName := d |}, false)]
    /\ exists s2 hostCA userCA,
         [Scenario.root_host; Scenario.root_user] = [hostCA; userCA]
         /\ answerOf RemoteCases.handle
              (GetCertAuthority_SkipValidation
                 {| Type_ := HostCA; DomainName := d |} false) s2 = Ok hostCA
         /\ answerOf RemoteCases.handle
              (GetCertAuthority_SkipValidation
                 {| Type_ := UserCA; DomainName := d |} false)
              (afterOf RemoteCases.handle
                 (GetCertAuthority_SkipValidation
                    {| Type_ := HostCA; DomainName := d |} false) s2)
            = Ok userCA.
Proof.
  apply (validateTrustedCluster_accepted RemoteCases.handle
           RemoteCases.root_world RemoteCases.leaf_request
           {| resp_CAs := [Scenario.root_host; Scenario.root_user] |}).
  reflexivity.
Defined.

(** Before the leaf joined, its name deletes nothing on the root, and
    neither does the root's own name. *)
Lemma DeleteRemoteCluster_unknown_witness :
  outcomeOf RemoteCases.handle (DeleteRemoteCluster "root")
    RemoteCases.root_world
  = Done (Err (NotFound "remote cluster not found"))
  /\ callsOf RemoteCases.handle (DeleteRemoteCluster "root")
       RemoteCases.root_world
     = [mkCallOf (Presence_GetRemoteCluster "root")].
Proof.
  apply (DeleteRemoteCluster_unknown RemoteCases.handle RemoteCases.root_world
           "root" (NotFound "remote cluster not found")).
  reflexivity.
Defined.

(** The listing of the root after the leaf joined has the one name. *)
Lemma GetRemoteClusters_names_witness :
  exists stored,
    answerOf RemoteCases.handle Presence_GetRemoteClusters
      RemoteCases.joined_world = Ok stored
    /\ map rc_name
         [{| rc_name := "leaf-east"; rc_connection_status := "online";
             rc_last_heartbeat := 96%Z |}]
       = map rc_name stored.
Proof.
  apply (GetRemoteClusters_names RemoteCases.handle RemoteCases.joined_world
           (fun _ => 100%Z)).
  reflexivity.
Defined.

(** Read at time 100, the leaf is online with the heartbeat 96 of its
    latest connection, within the threshold of 15; the status stored with
    the record is not the one returned. *)
Lemma GetRemoteCluster_status_witness :
  exists rc config connections,
    answerOf RemoteCases.handle (Presence_GetRemoteCluster "leaf-east")
      RemoteCases.joined_world = Ok rc
    /\ answerOf RemoteCases.handle GetClusterConfig
         (afterOf RemoteCases.handle (Presence_GetRemoteCluster "leaf-east")
            RemoteCases.joined_world) = Ok config
    /\ answerOf RemoteCases.handle (GetTunnelConnections (rc_name rc))
         (afterOf RemoteCases.handle GetClusterConfig
            (afterOf RemoteCases.handle (Presence_GetRemoteCluster "leaf-east")
               RemoteCases.joined_world)) = Ok connections
    /\ rc_name RemoteCases.leaf_online = rc_name rc
    /\ match LatestTunnelConnection connections with
       | Err _ =>
           rc_connection_status RemoteCases.leaf_online
           = RemoteClusterStatusOffline
           /\ rc_last_heartbeat RemoteCases.leaf_online = rc_last_heartbeat rc
       | Ok conn =>
           rc_connection_status RemoteCases.leaf_online
           = TunnelConnectionStatus 100%Z conn
               (wrap64 (KeepAliveCountMax config * KeepAliveInterval config))
           /\ rc_last_heartbeat RemoteCases.leaf_online = GetLastHeartbeat conn
       end.
Proof.
  apply (GetRemoteCluster_status RemoteCases.handle RemoteCases.joined_world
           100%Z "leaf-east" RemoteCases.leaf_online).
  reflexivity.
Defined.

End RemoteWitnesses.

(** ** Client credentials *)

Section ClientProperties.

Import client.

Context {F : Foreign} {X : ClientExternals}.
Context {St : Type} (h : HandlerOf ClientOp St).

Lemma configure_fixed (c : tls_Config) : configure (configure c) = configure c.
Proof.
  destruct c as [certs get roots protos name rest].
  unfold configure, Clone, set_NextProtos, set_ServerName, set_Certificates,
    set_GetClientCertificate. cbn.
  destruct (String.eqb name "") eqn:Hname; cbn.
  - destruct certs as [| cert certs]; cbn;
      destruct (String.eqb APIDomain "") eqn:Hapi; cbn; try reflexivity;
      apply String.eqb_eq in Hapi; rewrite Hapi; reflexivity.
  - destruct certs as [| cert certs]; cbn; rewrite Hname; reflexivity.
Qed.

Lemma configure_configured (c : tls_Config) : configured (configure c).
Proof.
  split; [| split; [| apply configure_fixed]].
  - destruct c as [certs get roots protos name rest].
    unfold configure, Clone. cbn.
    destruct (String.eqb name ""); destruct certs; reflexivity.
  - destruct c as [certs get roots protos name rest].
    unfold configure, Clone. cbn.
    destruct (String.eqb name ""); destruct certs; reflexivity.
Qed.

(** X24.  [configure] is idempotent, and it says what a configured
    connection offers: the only protocol is [NextProtoTLS], whatever the
    caller had listed; a server name the caller gave is kept and a missing
    one becomes [APIDomain]; the root pool and the fields the function does
    not name are kept.  When the caller gave static certificates, none is
    left and the first one is presented to every certificate request,
    replacing a callback the caller may have set; when the caller gave
    none, the caller's callback is kept. *)
Theorem configure_idempotent (c : tls_Config) :
  configure (configure c) = configure c
  /\ NextProtos (configure c) = [NextProtoTLS]
  /\ ServerName (configure c)
     = (if String.eqb (ServerName c) "" then APIDomain else ServerName c)
  /\ RootCAs (configure c) = RootCAs c
  /\ other (configure c) = other c
  /\ Certificates (configure c) = []
  /\ (forall info,
        presents (configure c) info
        = match Certificates c with
          | cert :: _ => Some (Ok cert)
          | [] => presents c info
          end).
Proof.
  split; [apply configure_fixed |].
  destruct c as [certs get roots protos name rest].
  unfold configure, Clone, presents. cbn.
  destruct (String.eqb name ""); destruct certs as [| cert certs]; cbn;
    repeat split; reflexivity.
Qed.

(** X25.  Whatever a [Credentials] implementation of this file returns as
    a TLS configuration went through [configure]: for [TLSConfigCreds],
    [KeyPairCreds] and [IdentityCreds] alike, a configuration that
    [TLSConfig] returns offers [NextProtoTLS] only, holds no static
    certificate, and is left unchanged by [configure]. *)
Theorem Credentials_TLSConfig_configured (s : St) (cfg : tls_Config) :
  (exists c : TLSConfigCreds, outcomeOf h (TLSConfig c) s = Done (Ok cfg))
  \/ (exists c : KeyPairCreds, outcomeOf h (TLSConfig c) s = Done (Ok cfg))
  \/ (exists c : IdentityCreds, outcomeOf h (TLSConfig c) s = Done (Ok cfg)) ->
  configured cfg.
Proof.
  intros [[c H] | [[c H] | [c H]]]; cbn [TLSConfig TLSConfigCreds_Credentials
    KeyPairCreds_Credentials IdentityCreds_Credentials] in H.
  - unfold TLSConfigCreds_TLSConfig in H.
    destruct (tlsConfig c) as [cfg0 |]; cbn in H; [| discriminate H].
    injection H as <-. apply configure_configured.
  - unfold KeyPairCreds_TLSConfig in H. revert H. stepOf.
    destruct (answerOf h (tls_LoadX509KeyPair (certFile c) (keyFile c)) s)
      as [cert | e]; [| stepOf; discriminate].
    stepOf.
    destruct (answerOf h (ioutil_ReadFile (caFile c)) _) as [cas | e];
      [| stepOf; discriminate].
    destruct (AppendCertsFromPEM NewCertPool cas) as [pool ok].
    destruct ok; cbn [negb]; stepOf; [| discriminate].
    intros H. injection H as <-. apply configure_configured.
  - unfold IdentityCreds_TLSConfig in H. revert H. stepOf.
    destruct (answerOf h (ReadIdentityFile (path c)) s) as [identity | e];
      [| stepOf; discriminate].
    destruct (IdentityFile_TLSConfig identity) as [[cfg0 |] | e];
      stepOf; try discriminate.
    intros H. injection H as <-. apply configure_configured.
Qed.

(** X26.  What [KeyPairCreds] loads.  The key pair is loaded before the CA
    file is read, and a key pair that cannot be loaded ends the call with
    that error and the CA file unread.  When [TLSConfig] returns a
    configuration, its root pool is the new pool with the PEM of the CA
    file appended, its server name is [APIDomain], and it presents the
    loaded key pair to every certificate request. *)
Theorem KeyPairCreds_TLSConfig_loads (s : St) (c : KeyPairCreds) :
  let load := tls_LoadX509KeyPair (certFile c) (keyFile c) in
  let read_ca := ioutil_ReadFile (caFile c) in
  (forall e, answerOf h load s = Err e ->
     outcomeOf h (TLSConfig c) s = Done (Err e)
     /\ callsOf h (TLSConfig c) s = [mkCallOf load])
  /\ (forall cfg, outcomeOf h (TLSConfig c) s = Done (Ok cfg) ->
        exists cert cas pool,
          answerOf h load s = Ok cert
          /\ answerOf h read_ca (afterOf h load s) = Ok cas
          /\ AppendCertsFromPEM NewCertPool cas = (pool, true)
          /\ callsOf h (TLSConfig c) s = [mkCallOf load; mkCallOf read_ca]
          /\ RootCAs cfg = Some pool
          /\ ServerName cfg = APIDomain
          /\ forall info, presents cfg info = Some (Ok cert)).
Proof.
  cbn zeta. cbn [TLSConfig KeyPairCreds_Credentials].
  unfold KeyPairCreds_TLSConfig. stepOf. split.
  - intros e ->. split; reflexivity.
  - intros cfg.
    destruct (answerOf h (tls_LoadX509KeyPair (certFile c) (keyFile c)) s)
      as [cert | e]; [| stepOf; discriminate].
    stepOf.
    destruct (answerOf h (ioutil_ReadFile (caFile c)) _) as [cas | e];
      [| stepOf; discriminate].
    destruct (AppendCertsFromPEM NewCertPool cas) as [pool ok] eqn:Hpool.
    destruct ok; cbn [negb]; stepOf; [| discriminate].
    intros H. injection H as <-.
    exists cert, cas, pool.
    split; [reflexivity |]. split; [reflexivity |]. split; [exact Hpool |].
    split; [reflexivity |]. split; [reflexivity |]. split; [reflexivity |].
    intros info. reflexivity.
Qed.

(** X27.  An identity file that cannot be read is a bad parameter.
    Whatever error reading the identity file gives, a missing file
    included, [TLSConfig] and [SSHConfig] of [IdentityCreds] both fail
    with a bad-parameter error after that one read; and no implementation
    has a dialer: [Dialer] fails without reading anything. *)
Theorem IdentityCreds_unreadable (s : St) (c : IdentityCreds) (e : error) :
  answerOf h (ReadIdentityFile (path c)) s = Err e ->
  (exists e1, outcomeOf h (TLSConfig c) s = Done (Err e1)
              /\ IsBadParameter e1 = true)
  /\ (exists e2, outcomeOf h (SSHConfig c) s = Done (Err e2)
                 /\ IsBadParameter e2 = true)
  /\ callsOf h (TLSConfig c) s = [mkCallOf (ReadIdentityFile (path c))]
  /\ callsOf h (SSHConfig c) s = [mkCallOf (ReadIdentityFile (path c))]
  /\ callsOf h (Dialer c) s = []
  /\ exists e3, outcomeOf h (Dialer c) s = Done (Err e3).
Proof.
  intros He.
  cbn [TLSConfig SSHConfig Dialer IdentityCreds_Credentials].
  unfold IdentityCreds_TLSConfig, IdentityCreds_SSHConfig, IdentityCreds_Dialer.
  stepOf. rewrite He. stepOf.
  split; [eexists; split; reflexivity |].
  split; [eexists; split; reflexivity |].
  split; [reflexivity |]. split; [reflexivity |]. split; [reflexivity |].
  eexists. reflexivity.
Qed.

End ClientProperties.

Section ClientWitnesses.

Import client.

#[local] Existing Instance ClientCases.foreign.
#[local] Existing Instance ClientCases.externals.

(** The key pair of alice, loaded from the concrete disk, is configured. *)
Lemma Credentials_TLSConfig_configured_witness :
  configured ClientCases.alice_config.
Proof.
  apply (Credentials_TLSConfig_configured ClientCases.handle ClientCases.disk).
  right. left. exists (LoadKeyPair "alice.crt" "alice.key" "ca.pem").
  reflexivity.
Defined.

(** The key pair of alice and the CA file of the concrete disk. *)
Lemma KeyPairCreds_TLSConfig_loads_witness :
  exists cert cas pool,
    answerOf ClientCases.handle (tls_LoadX509KeyPair "alice.crt" "alice.key")
      ClientCases.disk = Ok cert
    /\ answerOf ClientCases.handle (ioutil_ReadFile "ca.pem")
         (afterOf ClientCases.handle
            (tls_LoadX509KeyPair "alice.crt" "alice.key") ClientCases.disk)
       = Ok cas
    /\ AppendCertsFromPEM NewCertPool cas = (pool, true)
    /\ callsOf ClientCases.handle
         (TLSConfig (LoadKeyPair "alice.crt" "alice.key" "ca.pem"))
         ClientCases.disk
       = [mkCallOf (tls_LoadX509KeyPair "alice.crt" "alice.key");
          mkCallOf (ioutil_ReadFile "ca.pem")]
    /\ RootCAs ClientCases.alice_config = Some pool
    /\ ServerName ClientCases.alice_config = APIDomain
    /\ forall info,
         presents ClientCases.alice_config info = Some (Ok cert).
Proof.
  pose proof (KeyPairCreds_TLSConfig_loads ClientCases.handle ClientCases.disk
                (LoadKeyPair "alice.crt" "alice.key" "ca.pem")) as H.
  cbn zeta in H. destruct H as [_ H].
  apply (H ClientCases.alice_config).
  reflexivity.
Defined.

(** An identity file that is not on the disk. *)
Lemma IdentityCreds_unreadable_witness :
  (exists e1,
     outcomeOf ClientCases.handle (TLSConfig (LoadIdentityFile "bob.identity"))
       ClientCases.disk = Done (Err e1)
     /\ IsBadParameter e1 = true)
  /\ (exists e2,
        outcomeOf ClientCases.handle (SSHConfig (LoadIdentityFile "bob.identity"))
          ClientCases.disk = Done (Err e2)
        /\ IsBadParameter e2 = true)
  /\ callsOf ClientCases.handle (TLSConfig (LoadIdentityFile "bob.identity"))
       ClientCases.disk = [mkCallOf (ReadIdentityFile "bob.identity")]
  /\ callsOf ClientCases.handle (SSHConfig (LoadIdentityFile "bob.identity"))
       ClientCases.disk = [mkCallOf (ReadIdentityFile "bob.identity")]
  /\ callsOf ClientCases.handle (Dialer (LoadIdentityFile "bob.identity"))
       ClientCases.disk = []
  /\ exists e3,
       outcomeOf ClientCases.handle (Dialer (LoadIdentityFile "bob.identity"))
         ClientCases.disk = Done (Err e3).
Proof.
  apply (IdentityCreds_unreadable ClientCases.handle ClientCases.disk
           (LoadIdentityFile "bob.identity")
           (NotFound "no such file or directory")).
  reflexivity.
Defined.

End ClientWitnesses.

(** ** Web handlers for local users *)

Section WebProperties.

Import web.

Context {W : WebExternals}.
Context {St : Type} (h : HandlerOf WebOp St).

Lemma checkAndSetDefaults_invalid (req : requestUser) :
  req_Name req = "" \/ req_Roles req = [] ->
  exists e, checkAndSetDefaults req = Some e /\ IsBadParameter e = true.
Proof.
  intros H. unfold checkAndSetDefaults.
  destruct (String.eqb (req_Name req) "") eqn:Hname.
  - eexists. split; reflexivity.
  - destruct H as [H | H].
    + rewrite H in Hname. discriminate Hname.
    + rewrite H. eexists. split; reflexivity.
Qed.

Lemma checkAndSetDefaults_valid (req : requestUser) :
  checkAndSetDefaults req = None ->
  req_Name req <> "" /\ req_Roles req <> [].
Proof.
  unfold checkAndSetDefaults.
  destruct (String.eqb (req_Name req) "") eqn:Hname; [discriminate |].
  destruct (req_Roles req) as [| r rs]; [discriminate |].
  intros _. split; [| discriminate].
  intros H. rewrite H in Hname. discriminate Hname.
Qed.

Lemma getUsers_loop_map (range : list User) (users : list ui_User) :
  getUsers_loop range users = users ++ map to_ui range.
Proof.
  revert users. induction range as [| u rest IH]; intros users; cbn.
  - rewrite app_nil_r. reflexivity.
  - rewrite IH, <- app_assoc. reflexivity.
Qed.

(** X28.  A request without a user name or without roles reaches no one.
    [createUser] and [updateUser] answer such a request with a
    bad-parameter error and make no call on the auth client; so does
    [deleteUser] for an empty user name. *)
Theorem invalid_user_request_calls_nothing (s : St) (req : requestUser)
    (user : string) (t1 t2 : Time) :
  req_Name req = "" \/ req_Roles req = [] ->
  ((exists e, outcomeOf h (createUser (Ok (Some req)) user t1 t2) s = Done (Err e)
              /\ IsBadParameter e = true)
   /\ callsOf h (createUser (Ok (Some req)) user t1 t2) s = [])
  /\ ((exists e, outcomeOf h (updateUser (Ok (Some req))) s = Done (Err e)
                 /\ IsBadParameter e = true)
      /\ callsOf h (updateUser (Ok (Some req))) s = [])
  /\ ((exists e, outcomeOf h (deleteUser "") s = Done (Err e)
                 /\ IsBadParameter e = true)
      /\ callsOf h (deleteUser "") s = []).
Proof.
  intros H. destruct (checkAndSetDefaults_invalid req H) as (e & He & Hbad).
  unfold createUser, updateUser, deleteUser. rewrite He. cbn.
  repeat split; try (exists e; split; [reflexivity | exact Hbad]).
  eexists. split; reflexivity.
Qed.

(** X29.  [createUser] creates a user only when there is none of that
    name.  It never updates or deletes a user.  It creates at most one,
    and then the request was decoded and valid, the look-up of the name
    answered not-found, and the user created is the new user of that name
    with the roles of the request, created by the session's user at the
    first reading of the clock.  It asks for one invite token for that
    name exactly when the creation succeeded, and the user of a response
    is the created one. *)
Theorem createUser_creates_only_new (s : St)
    (body : Result (option requestUser)) (user : string) (t1 t2 : Time) :
  let p := createUser body user t1 t2 in
  let tr := callsOf h p s in
  user_updates tr = [] /\ user_deletions tr = []
  /\ ((user_creations tr = [] /\ token_requests tr = []
       /\ forall resp, outcomeOf h p s <> Done (Ok resp))
      \/ exists req e newUser,
           body = Ok (Some req)
           /\ checkAndSetDefaults req = None
           /\ answerOf h (GetUser (req_Name req) false) s = Err e
           /\ IsNotFound e = true
           /\ NewUser (req_Name req) = Ok newUser
           /\ let created :=
                SetCreatedBy (SetRoles newUser (req_Roles req))
                  {| cb_User := user; cb_Time := t1 |} in
              user_creations tr = [created]
              /\ token_requests tr
                 = (if succeeded (answerOf h (CreateUser created)
                                    (afterOf h (GetUser (req_Name req) false) s))
                    then [{| crt_Name := req_Name req;
                             crt_Type := ResetPasswordTokenTypeInvite |}]
                    else [])
              /\ forall resp, outcomeOf h p s = Done (Ok resp) ->
                              rcu_User resp = to_ui created).
Proof.
  cbn zeta. unfold createUser.
  destruct body as [[req |] | err];
    try (cbn; repeat split; left; repeat split; discriminate).
  destruct (checkAndSetDefaults req) as [err |] eqn:Hcheck;
    [cbn; repeat split; left; repeat split; discriminate |].
  stepOf.
  destruct (answerOf h (GetUser (req_Name req) false) s) as [u | e] eqn:Hget;
    [stepOf; cbn; repeat split; left; repeat split; discriminate |].
  destruct (IsNotFound e) eqn:Hnf; cbn [negb];
    [| stepOf; cbn; repeat split; left; repeat split; discriminate].
  destruct (NewUser (req_Name req)) as [newUser | err] eqn:Hnew;
    [| stepOf; cbn; repeat split; left; repeat split; discriminate].
  cbn zeta. stepOf.
  destruct (answerOf h (CreateUser _) _) as [[] | err] eqn:Hcreate.
  - stepOf.
    destruct (answerOf h (CreateResetPasswordToken _) _) as [token | err];
      stepOf; cbn; (split; [reflexivity |]); (split; [reflexivity |]);
      right; exists req, e, newUser; rewrite Hcreate; cbn [succeeded];
      repeat (split; [first [reflexivity | assumption] |]);
      intros resp Hresp;
      [injection Hresp as <-; reflexivity | discriminate Hresp].
  - stepOf. cbn. split; [reflexivity |]. split; [reflexivity |].
    right. exists req, e, newUser. rewrite Hcreate. cbn [succeeded].
    repeat (split; [first [reflexivity | assumption] |]).
    intros resp Hresp. discriminate Hresp.
Qed.

(** X30.  [updateUser] touches only the user it read.  It never creates
    or deletes a user and asks for no token.  It updates at most one
    user, and then the request was decoded and valid, the auth client had
    the user of that name, and what is written is that user with the
    roles of the request and nothing else changed by the handler; the
    user of a response is the written one.  [getUsers] writes nothing and
    lists the stored users in their order. *)
Theorem updateUser_updates_existing (s : St)
    (body : Result (option requestUser)) :
  let p := updateUser body in
  let tr := callsOf h p s in
  user_creations tr = [] /\ user_deletions tr = [] /\ token_requests tr = []
  /\ ((user_updates tr = [] /\ forall resp, outcomeOf h p s <> Done (Ok resp))
      \/ exists req stored,
           body = Ok (Some req)
           /\ checkAndSetDefaults req = None
           /\ answerOf h (GetUser (req_Name req) false) s = Ok stored
           /\ user_updates tr = [SetRoles stored (req_Roles req)]
           /\ forall resp, outcomeOf h p s = Done (Ok resp) ->
                           ruu_User resp = to_ui (SetRoles stored (req_Roles req)))
  /\ callsOf h getUsers s = [mkCallOf (GetUsers false)]
  /\ forall resp, outcomeOf h getUsers s = Done (Ok resp) ->
       exists localUsers,
         answerOf h (GetUsers false) s = Ok localUsers
         /\ rgu_Users resp = map to_ui localUsers.
Proof.
  cbn zeta.
  assert (Hlist : callsOf h getUsers s = [mkCallOf (GetUsers false)]
                  /\ forall resp, outcomeOf h getUsers s = Done (Ok resp) ->
                       exists localUsers,
                         answerOf h (GetUsers false) s = Ok localUsers
                         /\ rgu_Users resp = map to_ui localUsers).
  { unfold getUsers. stepOf.
    destruct (answerOf h (GetUsers false) s) as [localUsers | e]; stepOf.
    - split; [reflexivity |]. intros resp Hresp. injection Hresp as <-.
      exists localUsers. split; [reflexivity |]. cbn.
      apply (getUsers_loop_map localUsers []).
    - split; [reflexivity |]. intros resp Hresp. discriminate Hresp. }
  destruct Hlist as [Hcalls Hresp].
  enough (Hupd :
    user_creations (callsOf h (updateUser body) s) = []
    /\ user_deletions (callsOf h (updateUser body) s) = []
    /\ token_requests (callsOf h (updateUser body) s) = []
    /\ ((user_updates (callsOf h (updateUser body) s) = []
         /\ forall resp, outcomeOf h (updateUser body) s <> Done (Ok resp))
        \/ exists req stored,
             body = Ok (Some req)
             /\ checkAndSetDefaults req = None
             /\ answerOf h (GetUser (req_Name req) false) s = Ok stored
             /\ user_updates (callsOf h (updateUser body) s)
                = [SetRoles stored (req_Roles req)]
             /\ forall resp, outcomeOf h (updateUser body) s = Done (Ok resp) ->
                   ruu_User resp = to_ui (SetRoles stored (req_Roles req)))).
  { destruct Hupd as (Ha & Hb & Hc & Hd).
    exact (conj Ha (conj Hb (conj Hc (conj Hd (conj Hcalls Hresp))))). }
  clear Hcalls Hresp. unfold updateUser.
  destruct body as [[req |] | err];
    try (cbn; repeat split; left; repeat split; discriminate).
  destruct (checkAndSetDefaults req) as [err |] eqn:Hcheck;
    [cbn; repeat split; left; repeat split; discriminate |].
  stepOf.
  destruct (answerOf h (GetUser (req_Name req) false) s) as [stored | e]
    eqn:Hget;
    [| stepOf; cbn; repeat split; left; repeat split; discriminate].
  cbn zeta. stepOf.
  destruct (answerOf h (UpdateUser _) _) as [[] | err]; stepOf; cbn;
    (split; [reflexivity |]); (split; [reflexivity |]);
    (split; [reflexivity |]); right; exists req, stored;
    repeat (split; [first [reflexivity | assumption] |]);
    intros resp Hresp;
    [injection Hresp as <-; reflexivity | discriminate Hresp].
Qed.

End WebProperties.

Section WebWitnesses.

Import web.

#[local] Existing Instance WebCases.externals.

(** A request for bob without roles, and a deletion without a name. *)
Lemma invalid_user_request_calls_nothing_witness :
  ((exists e,
      outcomeOf WebCases.handle
        (createUser (Ok (Some WebCases.no_roles)) "root" 100%Z 100%Z)
        WebCases.users = Done (Err e)
      /\ IsBadParameter e = true)
   /\ callsOf WebCases.handle
        (createUser (Ok (Some WebCases.no_roles)) "root" 100%Z 100%Z)
        WebCases.users = [])
  /\ ((exists e,
         outcomeOf WebCases.handle (updateUser (Ok (Some WebCases.no_roles)))
           WebCases.users = Done (Err e)
         /\ IsBadParameter e = true)
      /\ callsOf WebCases.handle (updateUser (Ok (Some WebCases.no_roles)))
           WebCases.users = [])
  /\ ((exists e,
         outcomeOf WebCases.handle (deleteUser "") WebCases.users = Done (Err e)
         /\ IsBadParameter e = true)
      /\ callsOf WebCases.handle (deleteUser "") WebCases.users = []).
Proof.
  apply (invalid_user_request_calls_nothing WebCases.handle WebCases.users
           WebCases.no_roles "root" 100%Z 100%Z).
  right. reflexivity.
Defined.

End WebWitnesses.
